(** * libertyParser: a shallow embedding of [src/libertyParser.py]

    The Liberty parser reads a text file line by line, classifies every
    line with a fixed chain of regular expressions, collects the groups in a
    flat list of dictionaries, and re-organises that list into a tree.  This
    file embeds the regular expressions (with a small backtracking matcher
    that follows Python's [re] priorities), the line loop of
    [libertyParser], [organizeData], [genCellLibFile], [restoreLib] and the
    query functions, and states the properties of the specification on them.

    Conventions of the embedding:
    - text is [string]; a file is its decoded content, a character being
      the code point of its number (so text is made of code points below
      256), and reading it yields its lines with their line ends, as
      Python's text mode does;
    - a Python [dict] is an association list in insertion order;
    - the dictionaries of [groupList] are shared objects: the list position
      of a dictionary is its identity, and a child list holds references
      [VRef i] into that store, not copies;
    - an uncaught exception is [Raise e], [sys.exit(n)] is [SysExit n];
    - messages printed on [sys.stderr] are kept as structured records;
    - [debugPrint] (wall-clock time on standard output, only when [debug]
      is set) is left out: it touches no other state. *)

From Stdlib Require Import String Ascii List ZArith Lia Bool Arith Sorted.
From stdpp Require Import base gmap strings pretty relations.
Import ListNotations.
Open Scope string_scope.
Open Scope list_scope.
Open Scope nat_scope.

(* ================================================================== *)
(** ** Characters and Python string helpers *)

Definition nl : ascii := "010"%char.
Definition dquote : ascii := "034"%char.

(** [str.isspace], and the class [\s] of a [str] pattern, on the code
    points below 256: TAB..CR, FS..US, SPACE, NEL (133) and NBSP (160). *)
Definition is_space (c : ascii) : bool :=
  let n := nat_of_ascii c in
  ((9 <=? n) && (n <=? 13)) || ((28 <=? n) && (n <=? 32)) ||
  (n =? 133) || (n =? 160).

Definition chars (s : string) : list ascii := list_ascii_of_string s.
Definition str (l : list ascii) : string := string_of_list_ascii l.

Fixpoint lstrip_chars (l : list ascii) : list ascii :=
  match l with
  | c :: l' => if is_space c then lstrip_chars l' else l
  | [] => []
  end.

Definition strip_chars (l : list ascii) : list ascii :=
  rev (lstrip_chars (rev (lstrip_chars l))).

(** [s.strip()] *)
Definition strip (s : string) : string := str (strip_chars (chars s)).

(** [sep.join(l)] *)
Fixpoint join (sep : string) (l : list string) : string :=
  match l with
  | [] => ""
  | [x] => x
  | x :: l' => x +:+ sep +:+ join sep l'
  end.

(** [''.join(l)], what [writelines] puts in a file. *)
Definition concat_str (l : list string) : string := fold_right String.append "" l.

(** [l[a:b]] for non-negative [a] and [b]. *)
Definition py_slice {A} (l : list A) (a b : nat) : list A := skipn a (firstn b l).

(** Normalisation of a Python list index: negative indices count from the
    end, anything outside [-n, n) is an [IndexError]. *)
Definition py_norm (n : nat) (i : Z) : option nat :=
  if ((0 <=? i) && (i <? Z.of_nat n))%Z then Some (Z.to_nat i)
  else if ((- Z.of_nat n <=? i) && (i <? 0))%Z then Some (Z.to_nat (Z.of_nat n + i))
  else None.

(** Reading a text file: universal newlines turn CR LF and CR into LF. *)
Fixpoint universal_newlines (l : list ascii) : list ascii :=
  match l with
  | [] => []
  | c :: l' =>
      if Ascii.eqb c "013"%char then
        match l' with
        | d :: l'' => if Ascii.eqb d nl then nl :: universal_newlines l''
                      else nl :: universal_newlines l'
        | [] => [nl]
        end
      else c :: universal_newlines l'
  end.

(** Splitting into lines, each line keeping its line end. *)
Fixpoint split_lines (cur : list ascii) (l : list ascii) : list string :=
  match l with
  | [] => match cur with [] => [] | _ => [str (rev cur)] end
  | c :: l' =>
      if Ascii.eqb c nl then str (rev (c :: cur)) :: split_lines [] l'
      else split_lines (c :: cur) l'
  end.

(** [f.readlines()], also the sequence [for line in f] runs over. *)
Definition readlines (content : string) : list string :=
  split_lines [] (universal_newlines (chars content)).

(* ================================================================== *)
(** ** Regular expressions

    The constructs the source's patterns use, and a backtracking matcher in
    continuation-passing style with Python's priorities: a greedy star
    tries one more iteration before it tries the rest of the pattern, a lazy
    star the other way round, and the first success is the match. *)

Inductive regex : Type :=
| Bol                          (* ^ *)
| Eol                          (* $ : at the end, or before a final newline *)
| Chr (c : ascii)              (* a literal character *)
| Dot                          (* . : anything but a newline *)
| Spc                          (* \s *)
| NonSpc                       (* \S *)
| Seq (r1 r2 : regex)
| Alt (r1 r2 : regex)          (* r1|r2 *)
| Star (r : regex)             (* r* *)
| LazyStar (r : regex)         (* r*? *)
| Group (n : nat) (r : regex). (* the n-th capturing group *)

Definition Plus (r : regex) : regex := Seq r (Star r).   (* r+ *)

Fixpoint seqs (l : list regex) : regex :=
  match l with
  | [] => Star (Chr nl)  (* never used: every pattern below is non-empty *)
  | [r] => r
  | r :: l' => Seq r (seqs l')
  end.

Definition captures := list (nat * string).
Definition mres : Type := option (list ascii * captures).

(** The iterations of a greedy star over a matcher [m] of its body: one
    more iteration is tried first, and must consume input. *)
Fixpoint star_loop (m : list ascii -> captures -> (list ascii -> captures -> mres) -> mres)
         (k : list ascii -> captures -> mres)
         (fuel : nat) (s : list ascii) (g : captures) : mres :=
  match fuel with
  | O => k s g
  | S fuel' =>
      match m s g (fun s' g' => if length s' <? length s
                                then star_loop m k fuel' s' g' else None) with
      | Some res => Some res
      | None => k s g
      end
  end.

(** The iterations of a lazy star: the rest of the pattern is tried first. *)
Fixpoint lazy_loop (m : list ascii -> captures -> (list ascii -> captures -> mres) -> mres)
         (k : list ascii -> captures -> mres)
         (fuel : nat) (s : list ascii) (g : captures) : mres :=
  match k s g with
  | Some res => Some res
  | None =>
      match fuel with
      | O => None
      | S fuel' =>
          m s g (fun s' g' => if length s' <? length s
                              then lazy_loop m k fuel' s' g' else None)
      end
  end.

Fixpoint rx (r : regex) (whole s : list ascii) (g : captures)
         (k : list ascii -> captures -> mres) {struct r} : mres :=
  match r with
  | Bol => if length s =? length whole then k s g else None
  | Eol =>
      match s with
      | [] => k s g
      | [c] => if Ascii.eqb c nl then k s g else None
      | _ => None
      end
  | Chr c =>
      match s with
      | c' :: s' => if Ascii.eqb c c' then k s' g else None
      | [] => None
      end
  | Dot =>
      match s with
      | c' :: s' => if Ascii.eqb c' nl then None else k s' g
      | [] => None
      end
  | Spc =>
      match s with
      | c' :: s' => if is_space c' then k s' g else None
      | [] => None
      end
  | NonSpc =>
      match s with
      | c' :: s' => if is_space c' then None else k s' g
      | [] => None
      end
  | Seq r1 r2 => rx r1 whole s g (fun s' g' => rx r2 whole s' g' k)
  | Alt r1 r2 =>
      match rx r1 whole s g k with
      | Some res => Some res
      | None => rx r2 whole s g k
      end
  | Star r1 => star_loop (rx r1 whole) k (length s) s g
  | LazyStar r1 => lazy_loop (rx r1 whole) k (length s) s g
  | Group n r1 =>
      rx r1 whole s g
         (fun s' g' => k s' ((n, str (firstn (length s - length s') s)) :: g'))
  end.

(** [pattern.match(line)]: the match is anchored at the start of the line
    and need not reach its end. *)
Definition re_match (r : regex) (line : string) : option captures :=
  match rx r (chars line) (chars line) [] (fun s g => Some (s, g)) with
  | Some (_, g) => Some g
  | None => None
  end.

(** [m.group(n)] *)
Fixpoint group (n : nat) (g : captures) : string :=
  match g with
  | [] => ""
  | (m, s) :: g' => if n =? m then s else group n g'
  end.

(** [pattern.search(line)], as a truth value: a match at some position. *)
Fixpoint search_from (r : regex) (whole s : list ascii) : bool :=
  match rx r whole s [] (fun s' g => Some (s', g)) with
  | Some _ => true
  | None => match s with
            | [] => false
            | _ :: s' => search_from r whole s'
            end
  end.

Definition re_search (r : regex) (line : string) : bool :=
  search_from r (chars line) (chars line).

Definition matches (r : regex) (line : string) : bool :=
  match re_match r line with Some _ => true | None => false end.

(* ================================================================== *)
(** ** Python values, dictionaries and outcomes *)

(** The values the parser stores and the extractors return.  [VRef i] is a
    reference to the dictionary object created as the [i]-th group. *)
#[local] Set Warnings "-register-all".
Inductive pyval : Type :=
| VInt (z : Z)
| VStr (s : string)
| VList (l : list pyval)
| VRef (i : nat)
| VDict (d : list (string * pyval)).

(** A [dict] (or [OrderedDict]) with string keys, in insertion order. *)
Definition dict (V : Type) : Type := list (string * V).
Abbreviation pydict := (dict pyval).

Fixpoint dict_get {V} (k : string) (d : dict V) : option V :=
  match d with
  | [] => None
  | (k', v) :: d' => if String.eqb k k' then Some v else dict_get k d'
  end.

Definition dict_has {V} (k : string) (d : dict V) : bool :=
  match dict_get k d with Some _ => true | None => false end.

(** [d[k] = v]: an existing key keeps its position, a new key goes last. *)
Fixpoint dict_set {V} (k : string) (v : V) (d : dict V) : dict V :=
  match d with
  | [] => [(k, v)]
  | (k', v') :: d' =>
      if String.eqb k k' then (k', v) :: d' else (k', v') :: dict_set k v d'
  end.

Definition dict_keys {V} (d : dict V) : list string := map fst d.

Inductive exn : Type :=
| IndexError | KeyError | TypeError | AttributeError | RecursionError
| FileNotFoundError.

Inductive result (A : Type) : Type :=
| Ok (a : A)
| Raise (e : exn)
| SysExit (status : Z).
Arguments Ok {A} a.
Arguments Raise {A} e.
Arguments SysExit {A} status.

Definition bind {A B} (m : result A) (f : A -> result B) : result B :=
  match m with
  | Ok a => f a
  | Raise e => Raise e
  | SysExit n => SysExit n
  end.

Notation "'let*' x ':=' m 'in' f" := (bind m (fun x => f))
  (at level 10, x name, m at level 100, f at level 200).

(** What the program prints on [sys.stderr], one record per message. *)
Inductive diag : Type :=
| ErrNoSuchFile (libFile : string)
| ErrCellMissing (cell libFile : string)
| ErrMultiLines (line : nat) (text : string)
| WarnIrregularLiberty (line : nat) (text : string)
| WarnIrregular (line : nat) (text : string)
| ErrUnrecognizable (line : nat) (text : string).

(* ================================================================== *)
(** ** The patterns compiled in [__init__]

    Each pattern is quoted in the layout of [re.VERBOSE]: the blanks
    between its tokens are not part of it. *)

(** [^ ( \s* ) ( \S+ ) \s* \( ( .*? ) \) \s* { \s* $] *)
Definition _group_re : regex :=
  seqs [Bol; Group 1 (Star Spc); Group 2 (Plus NonSpc); Star Spc; Chr "(";
        Group 3 (LazyStar Dot); Chr ")"; Star Spc; Chr "{"; Star Spc; Eol].

(** [^ \s* } \s* $] *)
Definition _group_done_re : regex :=
  seqs [Bol; Star Spc; Chr "}"; Star Spc; Eol].

(** [^ ( \s* ) ( \S+ ) \s* : \s* ( .+ ) \s* ; .* $] *)
Definition _simple_attr_re : regex :=
  seqs [Bol; Group 1 (Star Spc); Group 2 (Plus NonSpc); Star Spc; Chr ":";
        Star Spc; Group 3 (Plus Dot); Star Spc; Chr ";"; Star Dot; Eol].

(** [^ ( \s* ) ( \S+ ) \s* : \s* ( .+ ) \s* $] *)
Definition _special_simple_attr_re : regex :=
  seqs [Bol; Group 1 (Star Spc); Group 2 (Plus NonSpc); Star Spc; Chr ":";
        Star Spc; Group 3 (Plus Dot); Star Spc; Eol].

(** [^ ( \s* ) ( \S+ ) \s* ( \( .+ \) ) \s* ; .* $] *)
Definition _complex_attr_re : regex :=
  seqs [Bol; Group 1 (Star Spc); Group 2 (Plus NonSpc); Star Spc;
        Group 3 (seqs [Chr "("; Plus Dot; Chr ")"]); Star Spc; Chr ";";
        Star Dot; Eol].

(** [^ ( \s* ) ( \S+ ) \s* ( \( .+ \) ) \s* $] *)
Definition _special_complex_attr_re : regex :=
  seqs [Bol; Group 1 (Star Spc); Group 2 (Plus NonSpc); Star Spc;
        Group 3 (seqs [Chr "("; Plus Dot; Chr ")"]); Star Spc; Eol].

(** [^ ( .* ) \\ s* $]: in the raw string the two backslashes are one
    literal backslash, and [s*] is the letter s, zero or more times. *)
Definition _multilines_re : regex :=
  seqs [Bol; Group 1 (Star Dot); Chr "\"; Star (Chr "s"); Eol].

(** [^ ( .* ; ) \s* $] *)
Definition _multilines_done_re : regex :=
  seqs [Bol; Group 1 (seqs [Star Dot; Chr ";"]); Star Spc; Eol].

(** [^ ( \s* ) / \* .* $] *)
Definition _comment_start_re : regex :=
  seqs [Bol; Group 1 (Star Spc); Chr "/"; Chr "*"; Star Dot; Eol].

(** [.* \* / \s* $] *)
Definition _comment_end_re : regex :=
  seqs [Star Dot; Chr "*"; Chr "/"; Star Spc; Eol].

(** [^ \s* $] *)
Definition _empty_line_re : regex := seqs [Bol; Star Spc; Eol].

(* ================================================================== *)
(** ** [libertyParser]: the line loop *)

(** [getLastOpenedGroupNum] *)
Definition getLastOpenedGroupNum (openedGroupNumList : list Z) : Z :=
  match openedGroupNumList with
  | [] => (-1)%Z
  | _ => List.last openedGroupNumList (-1)%Z
  end.

(** The branch of the [if/elif] chain a line takes, tried in the source's
    order, with what the branch reads from the match. *)
Inductive kind : Type :=
| KComplex (key valueList : string)
| KSimple (key value : string)
| KGroup (groupDepth : nat) (groupType groupName : string)
| KGroupDone
| KCommentStart (ended : bool)
| KEmpty
| KSpecialComplex (key valueList : string)
| KSpecialSimple (key value : string)
| KUnrecognizable.

Definition classify (line : string) : kind :=
  match re_match _complex_attr_re line with
  | Some m => KComplex (group 2 m) (group 3 m)
  | None =>
  match re_match _simple_attr_re line with
  | Some m => KSimple (group 2 m) (group 3 m)
  | None =>
  match re_match _group_re line with
  | Some m => KGroup (String.length (group 1 m)) (group 2 m) (group 3 m)
  | None =>
  if matches _group_done_re line then KGroupDone
  else if matches _comment_start_re line then KCommentStart (matches _comment_end_re line)
  else if matches _empty_line_re line then KEmpty
  else
  match re_match _special_complex_attr_re line with
  | Some m => KSpecialComplex (group 2 m) (group 3 m)
  | None =>
  match re_match _special_simple_attr_re line with
  | Some m => KSpecialSimple (group 2 m) (group 3 m)
  | None => KUnrecognizable
  end end end end end.

(** The body of the complex-attribute branches: a first value is stored
    as it is, a second one turns the entry into a list, later ones are
    appended. *)
Definition add_complex (key valueList : string) (d : pydict) : pydict :=
  match dict_get key d with
  | Some (VList l) => dict_set key (VList (l ++ [VStr valueList])) d
  | Some old => dict_set key (VList [old; VStr valueList]) d
  | None => dict_set key (VStr valueList) d
  end.

(** The body of the simple-attribute branches: plain assignment. *)
Definition add_simple (key value : string) (d : pydict) : pydict :=
  dict_set key (VStr value) d.

(** [groupList[i]] is read and its dictionary updated in place. *)
Definition update_group (groupList : list pydict) (i : Z)
           (f : pydict -> pydict) : result (list pydict) :=
  match py_norm (length groupList) i with
  | Some n =>
      match nth_error groupList n with
      | Some d => Ok (firstn n groupList ++ f d :: skipn (S n) groupList)
      | None => Raise IndexError
      end
  | None => Raise IndexError
  end.

Record pstate : Type := mkP {
  multiLinesString : string;
  commentMark : bool;
  groupList : list pydict;
  groupListNum : Z;
  openedGroupNumList : list Z;
  lastOpenedGroupNum : Z;
  libFileLine : nat;
  stderr : list diag
}.

Definition initial_pstate : pstate :=
  mkP "" false [] 0%Z [] (-1)%Z 0 [].

Definition nonempty (s : string) : bool :=
  match s with EmptyString => false | _ => true end.

Definition with_groups (st : pstate) (gl : list pydict) : pstate :=
  mkP (multiLinesString st) (commentMark st) gl (groupListNum st)
      (openedGroupNumList st) (lastOpenedGroupNum st) (libFileLine st) (stderr st).

Definition with_stderr (st : pstate) (d : diag) : pstate :=
  mkP (multiLinesString st) (commentMark st) (groupList st) (groupListNum st)
      (openedGroupNumList st) (lastOpenedGroupNum st) (libFileLine st)
      (stderr st ++ [d]).

Definition with_multi (st : pstate) (m : string) : pstate :=
  mkP m (commentMark st) (groupList st) (groupListNum st)
      (openedGroupNumList st) (lastOpenedGroupNum st) (libFileLine st) (stderr st).

Definition with_comment (st : pstate) (b : bool) : pstate :=
  mkP (multiLinesString st) b (groupList st) (groupListNum st)
      (openedGroupNumList st) (lastOpenedGroupNum st) (libFileLine st) (stderr st).

(** The end of the loop body: [if multiLinesString: multiLinesString = ''] *)
Definition end_of_body (st : pstate) : pstate := with_multi st "".

(** The [if/elif] chain on the (possibly joined) line. *)
Definition dispatch (st : pstate) (line : string) : result pstate :=
  let n := libFileLine st in
  match classify line with
  | KComplex key valueList =>
      let* gl := update_group (groupList st) (lastOpenedGroupNum st) (add_complex key valueList) in
      Ok (with_groups st gl)
  | KSimple key value =>
      let* gl := update_group (groupList st) (lastOpenedGroupNum st) (add_simple key value) in
      Ok (with_groups st gl)
  | KGroup groupDepth groupType groupName =>
      let father := getLastOpenedGroupNum (openedGroupNumList st) in
      let currentGroupDic : pydict :=
        [("fatherGroupNum", VInt father);
         ("depth", VInt (Z.of_nat groupDepth));
         ("type", VStr groupType);
         ("name", VStr groupName)] in
      let opened := openedGroupNumList st ++ [groupListNum st] in
      Ok (mkP (multiLinesString st) (commentMark st)
              (groupList st ++ [currentGroupDic])
              (groupListNum st + 1)%Z opened
              (getLastOpenedGroupNum opened) n (stderr st))
  | KGroupDone =>
      match openedGroupNumList st with
      | [] => Raise IndexError       (* pop from empty list *)
      | _ =>
          let opened := removelast (openedGroupNumList st) in
          Ok (mkP (multiLinesString st) (commentMark st) (groupList st)
                  (groupListNum st) opened (getLastOpenedGroupNum opened)
                  n (stderr st))
      end
  | KCommentStart ended =>
      Ok (if ended then st else with_comment st true)
  | KEmpty => Ok st
  | KSpecialComplex key valueList =>
      let st1 := with_stderr st (WarnIrregularLiberty n (strip line)) in
      let* gl := update_group (groupList st1) (lastOpenedGroupNum st1) (add_complex key valueList) in
      Ok (with_groups st1 gl)
  | KSpecialSimple key value =>
      let st1 := with_stderr st (WarnIrregular n (strip line)) in
      let* gl := update_group (groupList st1) (lastOpenedGroupNum st1) (add_simple key value) in
      Ok (with_groups st1 gl)
  | KUnrecognizable =>
      Ok (with_stderr st (ErrUnrecognizable n (strip line)))
  end.

(** [libFileLine += n] *)
Definition advance (n : nat) (st : pstate) : pstate :=
  mkP (multiLinesString st) (commentMark st) (groupList st) (groupListNum st)
      (openedGroupNumList st) (lastOpenedGroupNum st) (n + libFileLine st)
      (stderr st).

(** One iteration of [for line in LF]. *)
Definition step (st0 : pstate) (line : string) : result pstate :=
  let st := advance 1 st0 in
  if commentMark st then
    Ok (if matches _comment_end_re line then with_comment st false else st)
  else
    match re_match _multilines_re line with
    | Some m => Ok (with_multi st (multiLinesString st +:+ group 1 m))
    | None =>
        if nonempty (multiLinesString st) then
          match re_match _multilines_done_re line with
          | Some m =>
              let* st' := dispatch st (multiLinesString st +:+ group 1 m) in
              Ok (end_of_body st')
          | None =>
              Ok (with_multi
                    (with_stderr st (ErrMultiLines (libFileLine st) (strip line))) "")
          end
        else
          let* st' := dispatch st line in
          Ok (end_of_body st')
    end.

Fixpoint run (st : pstate) (lines : list string) : result pstate :=
  match lines with
  | [] => Ok st
  | line :: rest => let* st' := step st line in run st' rest
  end.

(** [libertyParser(libFile)] on the content of the file: the flat group
    list, together with what was printed on [sys.stderr]. *)
Definition libertyParser (content : string) : result (list pydict * list diag) :=
  let* st := run initial_pstate (readlines content) in
  Ok (groupList st, stderr st).

(** What the [if/elif] chain prints for a statement.  The warning of an
    irregular attribute line is printed before the statement that indexes
    [groupList], so it is on [sys.stderr] also when that statement
    raises. *)
Definition dispatch_prints (st : pstate) (line : string) : list diag :=
  let n := libFileLine st in
  match classify line with
  | KSpecialComplex _ _ => [WarnIrregularLiberty n (strip line)]
  | KSpecialSimple _ _ => [WarnIrregular n (strip line)]
  | KUnrecognizable => [ErrUnrecognizable n (strip line)]
  | _ => []
  end.

(** What one iteration of [for line in LF] prints, whether it ends
    normally or in an exception. *)
Definition step_prints (st0 : pstate) (line : string) : list diag :=
  let st := advance 1 st0 in
  if commentMark st then []
  else
    match re_match _multilines_re line with
    | Some _ => []
    | None =>
        if nonempty (multiLinesString st) then
          match re_match _multilines_done_re line with
          | Some m => dispatch_prints st (multiLinesString st +:+ group 1 m)
          | None => [ErrMultiLines (libFileLine st) (strip line)]
          end
        else dispatch_prints st line
    end.

(** What the line loop prints from [st] on, up to the end of the file or
    to the iteration that raises, that one included. *)
Fixpoint run_prints (st : pstate) (lines : list string) : list diag :=
  match lines with
  | [] => []
  | line :: rest =>
      step_prints st line ++
      match step st line with
      | Ok st' => run_prints st' rest
      | _ => []
      end
  end.

(* ================================================================== *)
(** ** [organizeData]: from the flat list to the tree

    The loop mutates the dictionaries of [groupList] in place and stores
    in a father's ['group'] list the child dictionary itself.  Here the
    list is the store of these objects and the child list holds [VRef i]. *)

(** [groupList[i] = d], for an index that exists. *)
Definition store_set (store : list pydict) (i : nat) (d : pydict) : list pydict :=
  firstn i store ++ d :: skipn (S i) store.

(** The body of the loop for index [i]. *)
Definition attach (store : list pydict) (i : nat) : result (list pydict) :=
  match nth_error store i with
  | None => Raise IndexError
  | Some groupDic =>
      match dict_get "fatherGroupNum" groupDic with
      | None => Raise KeyError
      | Some (VInt fatherGroupNum) =>
          if (fatherGroupNum =? -1)%Z then Ok store
          else
            match py_norm (length store) fatherGroupNum with
            | None => Raise IndexError
            | Some p =>
                match nth_error store p with
                | None => Raise IndexError
                | Some father =>
                    (* setdefault('group', []) *)
                    let father1 :=
                      if dict_has "group" father then father
                      else dict_set "group" (VList []) father in
                    (* ['group'].insert(0, groupDic) *)
                    match dict_get "group" father1 with
                    | Some (VList l) =>
                        Ok (store_set store p
                              (dict_set "group" (VList (VRef i :: l)) father1))
                    | _ => Raise AttributeError
                    end
                end
            end
      | Some _ => Raise TypeError   (* a str or a list used as a list index *)
      end
  end.

(** [for i in range(len(groupList)-1, 0, -1)], entered at [i] *)
Fixpoint organize_loop (i : nat) (store : list pydict) : result (list pydict) :=
  match i with
  | O => Ok store
  | S i' => let* store' := attach store i in organize_loop i' store'
  end.

(** A parser instance: the store of group dictionaries; [self.libDic] is
    the object at position 0. *)
Record instance : Type := mkInstance { heap : list pydict }.

Definition libDic (self : instance) : pydict :=
  nth 0 (heap self) [].

Definition organizeData (groupList : list pydict) : result instance :=
  let* store := organize_loop (length groupList - 1) groupList in
  match store with
  | [] => Raise IndexError          (* groupList[0] *)
  | _ => Ok (mkInstance store)
  end.

(* ================================================================== *)
(** ** [genCellLibFile]: the cell subsetter *)

(** The file system, by path, and the messages on [sys.stderr]. *)
Record world : Type := mkWorld {
  files : gmap string string;
  errors : list diag
}.

(** [^ \s* cell \s* \( ( .*? ) \) \s* { \s* $] *)
Definition cell_re : regex :=
  seqs [Bol; Star Spc; Chr "c"; Chr "e"; Chr "l"; Chr "l"; Star Spc; Chr "(";
        Group 1 (LazyStar Dot); Chr ")"; Star Spc; Chr "{"; Star Spc; Eol].

(** [^ \s* / \*] *)
Definition comment_start_re : regex := seqs [Bol; Star Spc; Chr "/"; Chr "*"].

(** [\* / \s* $] *)
Definition comment_end_re : regex := seqs [Chr "*"; Chr "/"; Star Spc; Eol].

Definition startswith_dquote (s : string) : bool :=
  match chars s with c :: _ => Ascii.eqb c dquote | [] => false end.

Definition endswith_dquote (s : string) : bool :=
  match rev (chars s) with c :: _ => Ascii.eqb c dquote | [] => false end.

(** [s[1:-1]] *)
Definition drop_ends (s : string) : string :=
  str (removelast (tl (chars s))).

(** The body of the first loop, on line [i] (counted from 1). *)
Definition scan_line (st : bool * dict nat) (i : nat) (line : string)
  : bool * dict nat :=
  let '(in_comment, cell_locations) := st in
  if in_comment then
    (if re_search comment_end_re line then (false, cell_locations) else st)
  else if matches comment_start_re line then
    (if negb (re_search comment_end_re line) then (true, cell_locations) else st)
  else
    match re_match cell_re line with
    | Some m =>
        let cell_name := strip (group 1 m) in
        let cell_name :=
          if startswith_dquote cell_name && endswith_dquote cell_name
          then drop_ends cell_name else cell_name in
        (in_comment, dict_set cell_name i cell_locations)
    | None => st
    end.

Fixpoint scan_from (st : bool * dict nat) (i : nat) (lines : list string)
  : bool * dict nat :=
  match lines with
  | [] => st
  | line :: rest => scan_from (scan_line st i line) (S i) rest
  end.

(** [cell_locations] after the first loop. *)
Definition scan_cells (content : string) : dict nat :=
  snd (scan_from (false, []) 1 (readlines content)).

(** [l.index(x)] for an [x] that is in [l] *)
Fixpoint index_of (x : string) (l : list string) : nat :=
  match l with
  | [] => 0
  | y :: l' => if String.eqb x y then 0 else S (index_of x l')
  end.

Definition str_in (x : string) (l : list string) : bool :=
  existsb (String.eqb x) l.

(** The lines written for one requested cell. *)
Definition cell_part (all_lines : list string) (cell_locations : dict nat)
           (cell : string) : result (list string) :=
  let all_cells_in_file := dict_keys cell_locations in
  match dict_get cell cell_locations with
  | None => Raise KeyError
  | Some cell_start_line =>
      let cell_index := index_of cell all_cells_in_file in
      if cell_index =? length all_cells_in_file - 1 then
        let cell_end_line := length all_lines in
        Ok (py_slice all_lines (cell_start_line - 1) cell_end_line)
      else
        match nth_error all_cells_in_file (cell_index + 1) with
        | None => Raise IndexError
        | Some next_cell =>
            match dict_get next_cell cell_locations with
            | None => Raise KeyError
            | Some cell_end_line =>
                Ok (py_slice all_lines (cell_start_line - 1) (cell_end_line - 1))
            end
        end
  end.

Fixpoint cell_parts (all_lines : list string) (cell_locations : dict nat)
         (cellList : list string) : result (list string) :=
  match cellList with
  | [] => Ok []
  | cell :: rest =>
      let* part := cell_part all_lines cell_locations cell in
      let* parts := cell_parts all_lines cell_locations rest in
      Ok (part ++ parts)
  end.

(** The name of the reduced file. *)
Definition cellLibFile_of (libFile : string) (cellList : list string) : string :=
  libFile +:+ "." +:+ join "_" cellList.

(** [genCellLibFile(libFile, cellList)].  The reduced file is opened for
    writing only after the check for missing cells; an exception while it
    is being written leaves what was written so far. *)
Definition genCellLibFile (w : world) (libFile : string) (cellList : list string)
  : world * result string :=
  let cellLibFile := cellLibFile_of libFile cellList in
  match files w !! libFile with
  | None => (w, Raise FileNotFoundError)
  | Some content =>
      let cell_locations := scan_cells content in
      let all_cells_in_file := dict_keys cell_locations in
      let missing_cells :=
        List.filter (fun cell => negb (str_in cell all_cells_in_file)) cellList in
      match missing_cells with
      | _ :: _ =>
          (mkWorld (files w)
                   (errors w ++ map (fun cell => ErrCellMissing cell libFile) missing_cells),
           SysExit 1)
      | [] =>
          let all_lines := readlines content in
          match all_cells_in_file with
          | [] => (mkWorld (<[cellLibFile := ""]> (files w)) (errors w), Raise IndexError)
          | first_cell :: _ =>
              match dict_get first_cell cell_locations with
              | None => (mkWorld (<[cellLibFile := ""]> (files w)) (errors w), Raise KeyError)
              | Some first_cell_line_num =>
                  let header := py_slice all_lines 0 (first_cell_line_num - 1) in
                  match cell_parts all_lines cell_locations cellList with
                  | Ok parts =>
                      (mkWorld (<[cellLibFile :=
                                    concat_str (header ++ parts) +:+ "}" +:+ String nl ""]>
                                  (files w))
                               (errors w),
                       Ok cellLibFile)
                  | Raise e =>
                      (mkWorld (<[cellLibFile := concat_str header]> (files w)) (errors w),
                       Raise e)
                  | SysExit n =>
                      (mkWorld (<[cellLibFile := concat_str header]> (files w)) (errors w),
                       SysExit n)
                  end
              end
          end
      end
  end.

(* ================================================================== *)
(** ** [__init__] *)

(** Parsing and re-organising the file at [libFile].  What the line loop
    printed before an exception stays printed. *)
Definition parse_file (w : world) (libFile : string) : world * result instance :=
  match files w !! libFile with
  | None => (w, Raise FileNotFoundError)
  | Some content =>
      match libertyParser content with
      | Ok (groupList, printed) =>
          (mkWorld (files w) (errors w ++ printed), organizeData groupList)
      | Raise e =>
          (mkWorld (files w)
                   (errors w ++ run_prints initial_pstate (readlines content)),
           Raise e)
      | SysExit n =>
          (mkWorld (files w)
                   (errors w ++ run_prints initial_pstate (readlines content)),
           SysExit n)
      end
  end.

(** [libertyParser(libFile, cellList)]: the constructor of the class. *)
Definition init (w : world) (libFile : string) (cellList : list string)
  : world * result instance :=
  match files w !! libFile with
  | None => (mkWorld (files w) (errors w ++ [ErrNoSuchFile libFile]), SysExit 1)
  | Some _ =>
      match cellList with
      | [] => parse_file w libFile
      | _ :: _ =>
          match genCellLibFile w libFile cellList with
          | (w', Ok cellLibFile) => parse_file w' cellLibFile
          | (w', Raise e) => (w', Raise e)
          | (w', SysExit n) => (w', SysExit n)
          end
      end
  end.

(* ================================================================== *)
(** ** Application functions: the extractors *)

Fixpoint foldM {A B} (f : A -> B -> result A) (acc : A) (l : list B) : result A :=
  match l with
  | [] => Ok acc
  | x :: l' => let* acc' := f acc x in foldM f acc' l'
  end.

(** What [for g in d['group']] runs over, guarded by ['group' in d]: a
    list gives its elements, a string its characters. *)
Definition group_elems (d : pydict) : result (list pyval) :=
  match dict_get "group" d with
  | None => Ok []
  | Some (VList l) => Ok l
  | Some (VStr s) => Ok (map (fun c => VStr (String c "")) (chars s))
  | Some _ => Raise TypeError
  end.

(** The dictionary an element of a child list refers to; an element that
    is a string raises [bad] at its first use as a dictionary. *)
Definition as_dict (store : list pydict) (bad : exn) (v : pyval) : result pydict :=
  match v with
  | VRef j => match nth_error store j with
              | Some d => Ok d
              | None => Raise IndexError
              end
  | _ => Raise bad
  end.

(** [d.get('type') == t] *)
Definition type_is (t : string) (d : pydict) : bool :=
  match dict_get "type" d with
  | Some (VStr t') => String.eqb t' t
  | _ => false
  end.

(** [d[k]] *)
Definition getitem (k : string) (d : pydict) : result pyval :=
  match dict_get k d with
  | Some v => Ok v
  | None => Raise KeyError
  end.

(** [name in names] for a name read from a dictionary. *)
Definition val_in (v : pyval) (names : list string) : bool :=
  match v with
  | VStr s => str_in s names
  | _ => false
  end.

(** A value used as a dictionary key: a list is unhashable. *)
Definition as_key (v : pyval) : result string :=
  match v with
  | VStr s => Ok s
  | _ => Raise TypeError
  end.

Definition is_nil {A} (l : list A) : bool :=
  match l with [] => true | _ => false end.

(** The body of the loop of [getCellList]. *)
Definition collect_cell (store : list pydict) (cellList : list pyval) (v : pyval)
  : result (list pyval) :=
  let* libGroupDic := as_dict store AttributeError v in
  if type_is "cell" libGroupDic then
    let* name := getitem "name" libGroupDic in
    Ok (cellList ++ [name])
  else Ok cellList.

(** [getCellList()] *)
Definition getCellList (self : instance) : result (list pyval) :=
  let* elems := group_elems (libDic self) in
  foldM (collect_cell (heap self)) [] elems.

(** [getCellArea(cellList)] *)
Definition getCellArea (self : instance) (cellList : list string) : result pydict :=
  let* elems := group_elems (libDic self) in
  let* cellAreaDic :=
    foldM (fun cellAreaDic v =>
             let* groupDic := as_dict (heap self) AttributeError v in
             if type_is "cell" groupDic then
               let* cellName := getitem "name" groupDic in
               if is_nil cellList || val_in cellName cellList then
                 let* key := as_key cellName in
                 Ok (dict_set key
                       (match dict_get "area" groupDic with
                        | Some a => a
                        | None => VStr ""
                        end) cellAreaDic)
               else Ok cellAreaDic
             else Ok cellAreaDic)
          [] elems in
  Ok (fold_left (fun acc cellName =>
                   if dict_has cellName acc then acc
                   else dict_set cellName (VStr "") acc)
                cellList cellAreaDic).

(** [for key in keys: if key in src: dst[key] = src[key]] *)
Definition copy_keys (keys : list string) (src dst : pydict) : pydict :=
  fold_left (fun acc key =>
               match dict_get key src with
               | Some v => dict_set key v acc
               | None => acc
               end) keys dst.

(** Truth value of [d.get(k)] *)
Definition truthy_get (k : string) (d : pydict) : bool :=
  match dict_get k d with
  | None => false
  | Some (VStr s) => nonempty s
  | Some (VList l) => negb (is_nil l)
  | Some (VInt z) => negb (z =? 0)%Z
  | Some (VDict x) => negb (is_nil x)
  | Some (VRef _) => true
  end.

(** The ['table_type'] entry built from the child groups. *)
Definition table_types (store : list pydict) (with_template : bool)
           (keys : list string) (elems : list pyval) : result pydict :=
  foldM (fun tables v =>
           let* levelGroupDic := as_dict store TypeError v in
           let* t := getitem "type" levelGroupDic in
           let* levelGroupType := as_key t in
           let entry0 : pydict :=
             if with_template && truthy_get "name" levelGroupDic then
               match dict_get "name" levelGroupDic with
               | Some n => [("template_name", n)]
               | None => []
               end
             else [] in
           Ok (dict_set levelGroupType
                 (VDict (copy_keys keys levelGroupDic entry0)) tables))
        [] elems.

(** [_getTimingGroupInfo(groupDic)] *)
Definition _getTimingGroupInfo (store : list pydict) (groupDic : pydict) : result pydict :=
  if negb (type_is "timing" groupDic) then Ok []
  else
    let timingDic :=
      copy_keys ["related_pin"; "related_pg_pin"; "timing_sense"; "timing_type"; "when"]
                groupDic [] in
    if dict_has "group" groupDic then
      let* elems := group_elems groupDic in
      let* tables := table_types store true
                       ["sigma_type"; "index_1"; "index_2"; "values"] elems in
      Ok (dict_set "table_type" (VDict tables) timingDic)
    else Ok timingDic.

(** [_getInternalPowerGroupInfo(groupDic)] *)
Definition _getInternalPowerGroupInfo (store : list pydict) (groupDic : pydict)
  : result pydict :=
  if negb (type_is "internal_power" groupDic) then Ok []
  else
    let internalPowerDic :=
      copy_keys ["related_pin"; "related_pg_pin"; "when"] groupDic [] in
    if dict_has "group" groupDic then
      let* elems := group_elems groupDic in
      let* tables := table_types store false ["index_1"; "index_2"; "values"] elems in
      Ok (dict_set "table_type" (VDict tables) internalPowerDic)
    else Ok internalPowerDic.

(** [d.setdefault(k, []).append(x)] *)
Definition append_to (k : string) (x : pyval) (d : pydict) : pydict :=
  match dict_get k d with
  | Some (VList l) => dict_set k (VList (l ++ [x])) d
  | _ => dict_set k (VList [x]) d
  end.

(** The [timing] / [internal_power] branches shared by the pin, bundle
    and bus functions. *)
Definition add_timing_or_power (store : list pydict) (t : pyval)
           (sub : pydict) (acc : pydict) : result pydict :=
  match t with
  | VStr "timing" =>
      let* timingDic := _getTimingGroupInfo store sub in
      Ok (append_to "timing" (VDict timingDic) acc)
  | VStr "internal_power" =>
      let* internalPowerDic := _getInternalPowerGroupInfo store sub in
      Ok (append_to "internal_power" (VDict internalPowerDic) acc)
  | _ => Ok acc
  end.

(** [_getPinInfo(groupDic)] *)
Definition _getPinInfo (store : list pydict) (groupDic : pydict) : result pydict :=
  if type_is "pin" groupDic && dict_has "group" groupDic then
    let* elems := group_elems groupDic in
    foldM (fun pinDic v =>
             let* pinGroupDic := as_dict store TypeError v in
             let* pinGroupType := getitem "type" pinGroupDic in
             add_timing_or_power store pinGroupType pinGroupDic pinDic)
          [] elems
  else Ok [].

(** [d.setdefault(k, OrderedDict())], read back *)
Definition sub_dict (k : string) (d : pydict) : pydict :=
  match dict_get k d with
  | Some (VDict x) => x
  | _ => []
  end.

Definition setdefault_dict (k : string) (d : pydict) : pydict :=
  if dict_has k d then d else dict_set k (VDict []) d.

(** The loop over the sub-groups of a bundle or a bus. *)
Definition pins_of (store : list pydict) (pinList : list string)
           (elems : list pyval) (acc0 : pydict) : result pydict :=
  foldM (fun acc v =>
           let* subGroupDic := as_dict store TypeError v in
           let* groupType := getitem "type" subGroupDic in
           match groupType with
           | VStr "pin" =>
               let* pinName := getitem "name" subGroupDic in
               if negb (is_nil pinList) && negb (val_in pinName pinList) then Ok acc
               else
                 let acc1 := setdefault_dict "pin" acc in
                 let* pinDic := _getPinInfo store subGroupDic in
                 if is_nil pinDic then Ok acc1
                 else
                   let* key := as_key pinName in
                   Ok (dict_set "pin"
                         (VDict (dict_set key (VDict pinDic) (sub_dict "pin" acc1))) acc1)
           | _ => add_timing_or_power store groupType subGroupDic acc
           end)
        acc0 elems.

(** [s.split(',')] *)
Fixpoint split_comma (cur : list ascii) (l : list ascii) : list string :=
  match l with
  | [] => [str (rev cur)]
  | c :: l' =>
      if Ascii.eqb c "," then str (rev cur) :: split_comma [] l'
      else split_comma (c :: cur) l'
  end.

(** [re.sub] with the character class of the opening parenthesis, the
    double quote, the closing parenthesis and [\s], replaced by nothing. *)
Definition drop_members_punct (s : string) : string :=
  str (List.filter (fun c => negb (Ascii.eqb c "(" || Ascii.eqb c dquote
                              || Ascii.eqb c ")" || is_space c)) (chars s)).

(** [_getBundleInfo(groupDic, pinList)] *)
Definition _getBundleInfo (store : list pydict) (groupDic : pydict)
           (pinList : list string) : result pydict :=
  let* bundleDic :=
    match dict_get "members" groupDic with
    | None => Ok []
    | Some (VStr members) =>
        let pins := split_comma [] (chars (drop_members_punct members)) in
        Ok [("pin",
             VDict (fold_left (fun acc pinName =>
                                 setdefault_dict (strip pinName) acc) pins []))]
    | Some _ => Raise TypeError
    end in
  let* elems := group_elems groupDic in
  pins_of store pinList elems bundleDic.

(** [_getBusInfo(groupDic, pinList)] *)
Definition _getBusInfo (store : list pydict) (groupDic : pydict)
           (pinList : list string) : result pydict :=
  let* elems := group_elems groupDic in
  pins_of store pinList elems [].

(** [libPinDic.setdefault('cell', ..).setdefault(cellName, ..)
      .setdefault(section, ..)[name] = v] *)
Definition set_cell_entry (cellName section name : string) (v : pyval)
           (libPinDic : pydict) : pydict :=
  let cells := sub_dict "cell" libPinDic in
  let cell := sub_dict cellName cells in
  let sect := sub_dict section cell in
  dict_set "cell"
    (VDict (dict_set cellName
              (VDict (dict_set section (VDict (dict_set name v sect)) cell))
              cells))
    libPinDic.

(** [getLibPinInfo(cellList, bundleList, busList, pinList)] *)
Definition getLibPinInfo (self : instance)
           (cellList bundleList busList pinList : list string) : result pydict :=
  let store := heap self in
  let* libElems := group_elems (libDic self) in
  foldM (fun libPinDic v =>
     let* libGroupDic := as_dict store AttributeError v in
     if negb (type_is "cell" libGroupDic) then Ok libPinDic
     else
       let* cellName := getitem "name" libGroupDic in
       if negb (is_nil cellList) && negb (val_in cellName cellList) then Ok libPinDic
       else
         let* cellElems := group_elems libGroupDic in
         foldM (fun libPinDic v' =>
            let* cellGroupDic := as_dict store TypeError v' in
            let* cellGroupType := getitem "type" cellGroupDic in
            let entry (names : list string)
                      (info : result pydict) (section : string) : result pydict :=
              let* name := getitem "name" cellGroupDic in
              if negb (is_nil names) && negb (val_in name names) then Ok libPinDic
              else
                let* d := info in
                if is_nil d then Ok libPinDic
                else
                  let* ck := as_key cellName in
                  let* nk := as_key name in
                  Ok (set_cell_entry ck section nk (VDict d) libPinDic) in
            match cellGroupType with
            | VStr "pin" =>
                entry pinList (_getPinInfo store cellGroupDic) "pin"
            | VStr "bundle" =>
                entry bundleList (_getBundleInfo store cellGroupDic pinList) "bundle"
            | VStr "bus" =>
                entry busList (_getBusInfo store cellGroupDic pinList) "bus"
            | _ => Ok libPinDic
            end)
          libPinDic cellElems)
    [] libElems.

(* ================================================================== *)
(** ** Verification functions: [restoreLib] *)

(** [re.sub(pattern, repl, s)] for a pattern whose matches are not empty. *)
Fixpoint sub_from (fuel : nat) (r : regex) (repl : list ascii)
         (whole s : list ascii) : list ascii :=
  match fuel with
  | O => s
  | S fuel' =>
      match s with
      | [] => []
      | c :: s' =>
          match rx r whole s [] (fun t g => Some (t, g)) with
          | Some (t, _) =>
              if length t <? length s
              then repl ++ sub_from fuel' r repl whole t
              else c :: sub_from fuel' r repl whole s'
          | None => c :: sub_from fuel' r repl whole s'
          end
      end
  end.

Definition re_sub (r : regex) (repl : string) (s : string) : string :=
  str (sub_from (S (String.length s)) r (chars repl) (chars s) (chars s)).

(** [re.split(c, s)] and [s.split(c)] for a one-character separator. *)
Fixpoint split_char (sep : ascii) (cur : list ascii) (l : list ascii) : list string :=
  match l with
  | [] => [str (rev cur)]
  | c :: l' =>
      if Ascii.eqb c sep then str (rev cur) :: split_char sep [] l'
      else split_char sep (c :: cur) l'
  end.

(** [\( | \)] *)
Definition paren_re : regex := Alt (Chr "(") (Chr ")").

(** the double quote, [\s*], a comma, [\s*], the double quote *)
Definition row_sep_re : regex :=
  seqs [Chr dquote; Star Spc; Chr ","; Star Spc; Chr dquote].

(** [\( .+ \)] *)
Definition parenthesised_re : regex := seqs [Chr "("; Plus Dot; Chr ")"].

Definition hex_digit (n : nat) : ascii :=
  nth n (chars "0123456789abcdef") "0"%char.

(** [repr(s)]: a character that is not printable (a control character,
    the no-break space, the soft hyphen) is written as an escape. *)
Definition repr_str (s : string) : string :=
  let cs := chars s in
  let has c := existsb (Ascii.eqb c) cs in
  let q : ascii := if has "'"%char && negb (has dquote) then dquote else "'"%char in
  let esc (c : ascii) : list ascii :=
    let n := nat_of_ascii c in
    if Ascii.eqb c "\" then ["\"; "\"]%char
    else if Ascii.eqb c q then ["\"%char; c]
    else if Ascii.eqb c nl then ["\"; "n"]%char
    else if Ascii.eqb c "013" then ["\"; "r"]%char
    else if Ascii.eqb c "009" then ["\"; "t"]%char
    else if (n <? 32) || ((127 <=? n) && (n <=? 160)) || (n =? 173)
         then ["\"%char; "x"%char; hex_digit (n / 16); hex_digit (n mod 16)]
    else [c] in
  str (q :: flat_map esc cs ++ [q]).

(** [repr(v)]; a reference is never formatted: it only occurs in a child
    list, which [_restoreLib] walks instead of printing. *)
Fixpoint py_repr (v : pyval) : string :=
  match v with
  | VStr s => repr_str s
  | VInt z => pretty z
  | VList l => "[" +:+ join ", " (map py_repr l) +:+ "]"
  | VRef _ => "{...}"
  | VDict _ => "{...}"
  end.

(** A value inside an f-string. *)
Definition fmt (v : pyval) : string :=
  match v with
  | VStr s => s
  | _ => py_repr v
  end.

(** [unit * n] *)
Fixpoint times (unit : string) (n : nat) : string :=
  match n with
  | O => ""
  | S n' => unit +:+ times unit n'
  end.

Definition spaces (unit : string) (groupDepth : Z) : string :=
  times unit (Z.to_nat groupDepth).

(** What has been written to the file, and the exception that stopped the
    writing, if any. *)
Definition written : Type := (string * option exn)%type.

Definition wr (s : string) : written := (s, None).
Definition stop (e : exn) : written := ("", Some e).

Definition wthen (a b : written) : written :=
  match a with
  | (o, Some e) => (o, Some e)
  | (o, None) => let '(o', e') := b in (o +:+ o', e')
  end.

Fixpoint wall {A} (f : A -> written) (l : list A) : written :=
  match l with
  | [] => wr ""
  | x :: l' => wthen (f x) (wall f l')
  end.

Definition bs_n : string := "\n".   (* a backslash and the letter n *)
Definition newline : string := String nl "".
Definition dq : string := String dquote "".

(** The ['values'] branch. *)
Definition restore_values (groupDepth : Z) (key : string) (value : pyval) : written :=
  wthen (wr (spaces "  " groupDepth +:+ "  " +:+ key +:+ " ( " +:+ bs_n))
  match value with
  | VStr v =>
      let valueString := re_sub paren_re "" v in
      let valueString := re_sub row_sep_re (dq +:+ "#" +:+ dq) valueString in
      let valuesList := split_char "#" [] (chars valueString) in
      let n := length valuesList in
      wthen
        (wall (fun '(i, item) =>
                 let item := strip item in
                 if i =? n - 1
                 then wr (spaces "    " groupDepth +:+ "    " +:+ item +:+ " " +:+ bs_n)
                 else wr (spaces "    " groupDepth +:+ "    " +:+ item +:+ ", " +:+ bs_n))
              (combine (seq 0 n) valuesList))
        (wr (spaces "  " groupDepth +:+ "  );" +:+ newline))
  | _ => stop TypeError
  end.

(** The ['table'] branch. *)
Definition restore_table (groupDepth : Z) (key : string) (value : pyval) : written :=
  match value with
  | VStr v =>
      let valueString := str (List.filter (fun c => negb (Ascii.eqb c dquote)) (chars v)) in
      let valueList := map strip (split_char "," [] (chars valueString)) in
      let n := length valueList in
      wthen
        (wr (spaces "  " groupDepth +:+ "  " +:+ key +:+ " : " +:+ dq
               +:+ nth 0 valueList "" +:+ ", " +:+ bs_n))
        (wall (fun '(i, item) =>
                 if i =? n - 1 then wr (item +:+ dq +:+ ";" +:+ newline)
                 else wr (item +:+ ", " +:+ bs_n))
              (combine (seq 1 (n - 1)) (tl valueList)))
  | _ => stop AttributeError
  end.

(** One attribute whose value is a list: a line per item. *)
Definition restore_list (groupDepth : Z) (key : string) (l : list pyval) : written :=
  wall (fun item =>
          match item with
          | VStr i =>
              if matches parenthesised_re i then
                if String.eqb key "define"
                then wr (spaces "  " groupDepth +:+ "  " +:+ key +:+ i +:+ ";" +:+ newline)
                else wr (spaces "  " groupDepth +:+ "  " +:+ key +:+ " " +:+ i +:+ ";" +:+ newline)
              else wr (spaces "  " groupDepth +:+ "  " +:+ key +:+ " : " +:+ i +:+ ";" +:+ newline)
          | _ => stop TypeError
          end) l.

(** One attribute with a single value. *)
Definition restore_scalar (groupDepth : Z) (key : string) (value : pyval) : written :=
  if matches parenthesised_re (fmt value)
  then wr (spaces "  " groupDepth +:+ "  " +:+ key +:+ " " +:+ fmt value +:+ ";" +:+ newline)
  else wr (spaces "  " groupDepth +:+ "  " +:+ key +:+ " : " +:+ fmt value +:+ ";" +:+ newline).

(** [_restoreLib(f, groupDic)].  The recursion follows the child
    references; [fuel] bounds its depth, and the number of groups is
    always enough for a tree built by [organizeData]. *)
Fixpoint _restoreLib (fuel : nat) (store : list pydict) (groupDic : pydict) : written :=
  match fuel with
  | O => stop RecursionError
  | S fuel' =>
      match dict_get "depth" groupDic, dict_get "type" groupDic,
            dict_get "name" groupDic with
      | None, _, _ | _, None, _ | _, _, None => stop KeyError
      | Some (VInt groupDepth), Some groupType, Some groupName =>
          wthen (wr (spaces " " groupDepth +:+ fmt groupType +:+ " ("
                       +:+ fmt groupName +:+ ") {" +:+ newline))
         (wthen
            (wall (fun '(key, value) =>
               if str_in key ["fatherGroupNum"; "depth"; "type"; "name"] then wr ""
               else if String.eqb key "group" then
                 match group_elems groupDic with
                 | Ok subGroupList =>
                     wall (fun subGroup =>
                             match as_dict store TypeError subGroup with
                             | Ok d => _restoreLib fuel' store d
                             | Raise e => stop e
                             | SysExit _ => stop TypeError
                             end) subGroupList
                 | Raise e => stop e
                 | SysExit _ => stop TypeError
                 end
               else if String.eqb key "values" then restore_values groupDepth key value
               else if String.eqb key "table" then restore_table groupDepth key value
               else match value with
                    | VList l => restore_list groupDepth key l
                    | _ => restore_scalar groupDepth key value
                    end)
               groupDic)
            (wr (spaces " " groupDepth +:+ "}" +:+ newline)))
      | Some _, Some _, Some _ => stop TypeError
      end
  end.

(** [restoreLib(libFile)]: the file is created, and holds what was written
    when an exception stops the writing. *)
Definition restoreLib (w : world) (self : instance) (libFile : string)
  : world * result unit :=
  let '(out, e) := _restoreLib (S (length (heap self))) (heap self) (libDic self) in
  (mkWorld (<[libFile := out]> (files w)) (errors w),
   match e with
   | None => Ok tt
   | Some e => Raise e
   end).

(* ================================================================== *)
(** ** Sample inputs for the properties below *)

(** A file given line by line, every line ended by a newline. *)
Definition text (l : list string) : string :=
  concat_str (map (fun s => s +:+ newline) l).

(** [library (L) { cell (INV) { area : 1; pin (A) { } } }], one statement
    per line, indented by two blanks per level. *)
Definition minimal_library : string :=
  text ["library (L) {";
        "  cell (INV) {";
        "    area : 1;";
        "    pin (A) {";
        "    }";
        "  }";
        "}"].

(** The same library with no indentation at all. *)
Definition minimal_library_flat : string :=
  text ["library (L) {"; "cell (INV) {"; "area : 1;"; "pin (A) {"; "}"; "}"; "}"].

(** A world with one file. *)
Definition one_file (path content : string) : world :=
  mkWorld {[ path := content ]} [].

(** Parse, serialise to [out.lib], parse the serialisation; the entity
    list and the areas before and after. *)
Definition roundtrip (content : string)
  : option (result (list pyval) * result pydict * result (list pyval) * result pydict) :=
  match init (one_file "in.lib" content) "in.lib" [] with
  | (w1, Ok self) =>
      match restoreLib w1 self "out.lib" with
      | (w2, Ok _) =>
          match init w2 "out.lib" [] with
          | (_, Ok self') =>
              Some (getCellList self, getCellArea self ["INV"],
                    getCellList self', getCellArea self' ["INV"])
          | _ => None
          end
      | _ => None
      end
  | _ => None
  end.

(** A file with a comment and a blank line only. *)
Definition only_comments : string := text ["/* no group here */"; ""].


(** An attribute line after the only group has been closed. *)
Definition attribute_after_close : string :=
  text ["library (L) {"; "}"; "foo : 1;"].

(** An attribute line before any group. *)
Definition attribute_before_group : string :=
  text ["foo : 1;"; "library (L) {"; "}"].

(** One closing brace too many. *)
Definition stray_close : string :=
  text ["library (L) {"; "}"; "}"].

(** Two groups never closed. *)
Definition never_closed : string :=
  text ["library (L) {"; "  cell (A) {"; "    area : 1;"].

(** A library with two cells that have pins and timing groups. *)
Definition two_cells : string :=
  text ["library (L) {";
        "  cell (A) {";
        "    pin (X) {";
        "      timing () {";
        "        related_pin : Y;";
        "      }";
        "    }";
        "  }";
        "  cell (B) {";
        "    pin (Y) {";
        "      timing () {";
        "      }";
        "    }";
        "  }";
        "}"].

(** A comment that opens after an attribute on the same line. *)
Definition comment_after_attribute : string :=
  text ["library (L) {";
        "  date : today; /* the cell below is disabled";
        "  cell (FAKE) {";
        "  }";
        "  */";
        "  cell (REAL) {";
        "  }";
        "}"].

(** The name [A] is declared twice. *)
Definition cell_declared_twice : string :=
  text ["library (L) {";
        "  cell (A) {";
        "  }";
        "  cell (B) {";
        "  }";
        "  cell (A) {";
        "  }";
        "}"].

(** A file of 100 lines with cells declared at lines 10, 40 and 70. *)
Definition hundred_lines : string :=
  text (["library (L) {"] ++ repeat "  time_unit : 1ns;" 8
        ++ ["  cell (A) {"] ++ repeat "    area : 1;" 28 ++ ["  }"]
        ++ ["  cell (B) {"] ++ repeat "    area : 2;" 28 ++ ["  }"]
        ++ ["  cell (C) {"] ++ repeat "    area : 3;" 28 ++ ["  }"; "}"]).

(** A library with four cells. *)
Definition four_cells : string :=
  text ["library (L) {";
        "  cell (C1) {"; "    pin (A) {"; "    }"; "  }";
        "  cell (C2) {"; "  }";
        "  operating_conditions (typ) {"; "  }";
        "  cell (C3) {"; "  }";
        "  cell (C4) {"; "  }";
        "}"].

(** The instance built from a file named [in.lib], an empty one when the
    construction fails. *)
Definition parsed (content : string) : instance :=
  match snd (init (one_file "in.lib" content) "in.lib" []) with
  | Ok self => self
  | _ => mkInstance []
  end.


(** The state of the line loop after the lines of [content]. *)
Definition state_after (content : string) : pstate :=
  match run initial_pstate (readlines content) with
  | Ok st => st
  | _ => initial_pstate
  end.

(* ================================================================== *)
(** ** Application functions: [getUnit] and [getCellLeakagePower] *)

Fixpoint starts_with (p l : list ascii) : bool :=
  match p, l with
  | [], _ => true
  | c :: p', d :: l' => Ascii.eqb c d && starts_with p' l'
  | _ :: _, [] => false
  end.

(** [s.endswith(suffix)] *)
Definition endswith (s suffix : string) : bool :=
  starts_with (rev (chars suffix)) (rev (chars s)).

(** [getUnit()] *)
Definition getUnit (self : instance) : pydict :=
  fold_left (fun unitDic '(key, value) =>
               if endswith key "_unit" then dict_set key value unitDic
               else unitDic)
            (libDic self) [].

(** [getCellLeakagePower(cellList)] *)
Definition getCellLeakagePower (self : instance) (cellList : list string)
  : result pydict :=
  let store := heap self in
  let* elems := group_elems (libDic self) in
  foldM (fun cellLeakagePowerDic v =>
     let* groupDic := as_dict store AttributeError v in
     if type_is "cell" groupDic then
       let* cellName := getitem "name" groupDic in
       if is_nil cellList || val_in cellName cellList then
         let* cellElems := group_elems groupDic in
         foldM (fun cellLeakagePowerDic v' =>
            let* cellGroupDic := as_dict store AttributeError v' in
            if type_is "leakage_power" cellGroupDic then
              let leakagePowerDic :=
                List.filter (fun '(key, _) =>
                               str_in key ["value"; "when"; "related_pg_pin"])
                            cellGroupDic in
              let* key := as_key cellName in
              Ok (append_to key (VDict leakagePowerDic) cellLeakagePowerDic)
            else Ok cellLeakagePowerDic)
          cellLeakagePowerDic cellElems
       else Ok cellLeakagePowerDic
     else Ok cellLeakagePowerDic)
    [] elems.

(* ================================================================== *)
(** ** Predicates used by the statements *)

(** A configuration of the matcher: the rest of the input and the
    captures made so far. *)
Definition cfg : Type := (list ascii * captures)%type.

(** [den r whole a b]: the pattern [r] can take the matcher from the
    configuration [a] to the configuration [b]. *)
Fixpoint den (r : regex) (whole : list ascii) (a b : cfg) : Prop :=
  match r with
  | Bol => b = a /\ length (fst a) = length whole
  | Eol => b = a /\ (fst a = [] \/ fst a = [nl])
  | Chr c => fst a = c :: fst b /\ snd b = snd a
  | Dot => exists c, fst a = c :: fst b /\ c <> nl /\ snd b = snd a
  | Spc => exists c, fst a = c :: fst b /\ is_space c = true /\ snd b = snd a
  | NonSpc => exists c, fst a = c :: fst b /\ is_space c = false /\ snd b = snd a
  | Seq r1 r2 => exists m, den r1 whole a m /\ den r2 whole m b
  | Alt r1 r2 => den r1 whole a b \/ den r2 whole a b
  | Star r1 => rtc (den r1 whole) a b
  | LazyStar r1 => rtc (den r1 whole) a b
  | Group n r1 =>
      exists g1, den r1 whole a (fst b, g1) /\
        snd b = (n, str (firstn (length (fst a) - length (fst b)) (fst a))) :: g1
  end.

(** A matcher in continuation-passing style that only succeeds through
    its continuation, called at a configuration related by [R]. *)
Definition sound_matcher (R : cfg -> cfg -> Prop)
  (m : list ascii -> captures -> (list ascii -> captures -> mres) -> mres) : Prop :=
  forall s g k res, m s g k = Some res ->
    exists s' g', R (s, g) (s', g') /\ k s' g' = Some res.

(** Patterns without a capturing group leave the captures alone. *)
Fixpoint groupless (r : regex) : bool :=
  match r with
  | Seq r1 r2 | Alt r1 r2 => groupless r1 && groupless r2
  | Star r1 | LazyStar r1 => groupless r1
  | Group _ _ => false
  | _ => true
  end.

(** No group has been created yet. *)
Definition blank (st : pstate) : Prop :=
  groupList st = [] /\ openedGroupNumList st = [].

(** The outcome of the loop while no group exists. *)
Definition raises_or_blank (r : result pstate) : Prop :=
  r = Raise IndexError \/ exists st', r = Ok st' /\ blank st'.

(** The loop is neither inside a comment nor inside a continuation. *)
Definition normal (st : pstate) : Prop :=
  commentMark st = false /\ multiLinesString st = "".

(** A line that is not a continuation line. *)
Definition plain (line : string) : Prop := re_match _multilines_re line = None.

(** A line that takes the group-close branch. *)
Definition close_line (line : string) : Prop :=
  plain line /\ classify line = KGroupDone.

(** The attribute a line carries: complex or not, key, value. *)
Definition attr_of (k : kind) : option (bool * string * string) :=
  match k with
  | KComplex key v | KSpecialComplex key v => Some (true, key, v)
  | KSimple key v | KSpecialSimple key v => Some (false, key, v)
  | _ => None
  end.

Definition apply_attr (d : pydict) (a : bool * string * string) : pydict :=
  let '(complex, key, v) := a in
  if complex then add_complex key v d else add_simple key v d.

(** The father index a group dictionary records. *)
Definition father_of (d : pydict) : option Z :=
  match dict_get "fatherGroupNum" d with
  | Some (VInt f) => Some f
  | _ => None
  end.

(** A flat list as the line loop builds it: at least one record; every
    record names as father an earlier record or -1, has a name, and has no
    child list yet. *)
Definition flat_ok (groupList : list pydict) : bool :=
  negb (is_nil groupList) &&
  forallb (fun '(i, d) =>
             match father_of d with
             | Some f => ((-1 <=? f)%Z && (f <? Z.of_nat i)%Z)
                         && negb (dict_has "group" d) && dict_has "name" d
             | None => false
             end)
          (combine (seq 0 (length groupList)) groupList).

(** Record [i] was declared inside record [p]. *)
Definition is_child (groupList : list pydict) (p i : nat) : bool :=
  match nth_error groupList i with
  | Some d => match father_of d with
              | Some f => (f =? Z.of_nat p)%Z
              | None => false
              end
  | None => false
  end.

(** The children of [p] with an index from [lo] on, in declaration order:
    the flat list is appended to at every group declaration, so that the
    order of the indices is the order of the declarations in the source. *)
Definition children_from (groupList : list pydict) (p lo : nat) : list nat :=
  List.filter (is_child groupList p) (seq lo (length groupList - lo)).

Definition children_of (groupList : list pydict) (p : nat) : list nat :=
  children_from groupList p 0.

(** A record with its child list. *)
Definition with_children (d : pydict) (l : list nat) : pydict :=
  match l with
  | [] => d
  | _ => dict_set "group" (VList (map VRef l)) d
  end.


(** The state of the store when the loop is about to handle index [lo-1]:
    every record has the children declared from [lo] on. *)
Definition organized (gl : list pydict) (lo : nat) (store : list pydict) : Prop :=
  length store = length gl /\
  forall p d, nth_error gl p = Some d ->
    nth_error store p = Some (with_children d (children_from gl p lo)).

(** The recorded lines increase in recording order. *)
Fixpoint increasing (l : list nat) : bool :=
  match l with
  | a :: (b :: _) as l' => (a <? b) && increasing l'
  | _ => true
  end.

(** The least element of a list of numbers. *)
Fixpoint least (l : list nat) : option nat :=
  match l with
  | [] => None
  | a :: l' => match least l' with
               | Some m => Some (Nat.min a m)
               | None => Some a
               end
  end.

(** From the specification: the line of the next strictly later recorded
    entity. *)
Definition next_later (cell_locations : dict nat) (line : nat) : option nat :=
  least (List.filter (fun l => line <? l) (map snd cell_locations)).

(** The lines numbered [a] to [b], counted from 1, both included. *)
Definition lines_from_to (all_lines : list string) (a b : nat) : list string :=
  firstn (S b - a) (skipn (a - 1) all_lines).

(** From the specification: the range of a requested entity starts at its
    recorded line and ends just before the next strictly later recorded
    line, or at the end of the file. *)
Definition spec_range (all_lines : list string) (cell_locations : dict nat)
           (cell : string) : list string :=
  match dict_get cell cell_locations with
  | None => []
  | Some start =>
      match next_later cell_locations start with
      | Some next => lines_from_to all_lines start (next - 1)
      | None => lines_from_to all_lines start (length all_lines)
      end
  end.

(** From the specification: the header is what precedes the first
    recorded entity of the file. *)
Definition spec_header (all_lines : list string) (cell_locations : dict nat)
  : list string :=
  match least (map snd cell_locations) with
  | Some first => lines_from_to all_lines 1 (first - 1)
  | None => all_lines
  end.

(** From the specification: the reduced file. *)
Definition spec_reduced (all_lines : list string) (cell_locations : dict nat)
           (cellList : list string) : string :=
  concat_str (spec_header all_lines cell_locations
              ++ flat_map (spec_range all_lines cell_locations) cellList)
  +:+ "}" +:+ newline.

(** What the scan keeps true of [cell_locations]: no key twice, and line
    numbers counted from 1. *)
Definition locations_ok (lo : nat) (d : dict nat) : Prop :=
  List.NoDup (dict_keys d) /\ Forall (fun l => 1 <= l) (map snd d).

(** The keys of a group record that [organizeData] relies on. *)
Definition reserved (key : string) : bool :=
  String.eqb key "fatherGroupNum" || String.eqb key "group".

(** A line that is no continuation line and whose attribute, if it
    carries one, does not reuse a reserved key. *)
Definition safe_line (line : string) : Prop :=
  plain line /\
  match attr_of (classify line) with
  | Some (_, key, _) => reserved key = false
  | None => True
  end.

(** What [flat_ok] asks of the record at index [i]. *)
Definition record_ok (i : nat) (d : pydict) : Prop :=
  exists f, father_of d = Some f /\ (-1 <= f < Z.of_nat i)%Z /\
            dict_get "group" d = None /\ dict_has "name" d = true.

(** The invariant of the line loop on lines that are [safe_line]. *)
Definition built (st : pstate) : Prop :=
  multiLinesString st = "" /\
  groupListNum st = Z.of_nat (length (groupList st)) /\
  Forall (fun z => (0 <= z < Z.of_nat (length (groupList st)))%Z)
         (openedGroupNumList st) /\
  lastOpenedGroupNum st = getLastOpenedGroupNum (openedGroupNumList st) /\
  (forall i d, nth_error (groupList st) i = Some d -> record_ok i d).

(** The line number a message of the line loop carries. *)
Definition diag_line (d : diag) : nat :=
  match d with
  | ErrMultiLines n _ | WarnIrregularLiberty n _
  | WarnIrregular n _ | ErrUnrecognizable n _ => n
  | ErrNoSuchFile _ | ErrCellMissing _ _ => 0
  end.

(** What one iteration of the line loop may do to the group list and to
    the stack of open groups: store an attribute in the record
    [groupList[lastOpenedGroupNum]], append a record and push its index,
    pop the stack, or none of these. *)
Definition change (st st' : pstate) : Prop :=
  (exists a,
     update_group (groupList st) (lastOpenedGroupNum st)
                  (fun d => apply_attr d a) = Ok (groupList st') /\
     groupListNum st' = groupListNum st /\
     openedGroupNumList st' = openedGroupNumList st /\
     lastOpenedGroupNum st' = lastOpenedGroupNum st) \/
  (exists depth t n,
     groupList st' =
       groupList st ++
         [[("fatherGroupNum", VInt (getLastOpenedGroupNum (openedGroupNumList st)));
           ("depth", VInt depth); ("type", VStr t); ("name", VStr n)]] /\
     groupListNum st' = (groupListNum st + 1)%Z /\
     openedGroupNumList st' = openedGroupNumList st ++ [groupListNum st] /\
     lastOpenedGroupNum st' = getLastOpenedGroupNum (openedGroupNumList st')) \/
  (openedGroupNumList st <> [] /\
   groupList st' = groupList st /\
   groupListNum st' = groupListNum st /\
   openedGroupNumList st' = removelast (openedGroupNumList st) /\
   lastOpenedGroupNum st' = getLastOpenedGroupNum (openedGroupNumList st')) \/
  (groupList st' = groupList st /\
   groupListNum st' = groupListNum st /\
   openedGroupNumList st' = openedGroupNumList st /\
   lastOpenedGroupNum st' = lastOpenedGroupNum st).

(** The invariant of the line loop on the stack of open groups. *)
Definition stack_ok (st : pstate) : Prop :=
  groupListNum st = Z.of_nat (length (groupList st)) /\
  StronglySorted Z.lt (openedGroupNumList st) /\
  Forall (fun z => (0 <= z < Z.of_nat (length (groupList st)))%Z)
         (openedGroupNumList st) /\
  lastOpenedGroupNum st = getLastOpenedGroupNum (openedGroupNumList st).

(** What a continuation line adds to [multiLinesString]. *)
Definition cont_part (line : string) : string :=
  match re_match _multilines_re line with
  | Some m => group 1 m
  | None => ""
  end.

(** What the line that ends a continuation adds. *)
Definition done_part (line : string) : string :=
  match re_match _multilines_done_re line with
  | Some m => group 1 m
  | None => ""
  end.

(** The number of blanks a line starts with. *)
Fixpoint leading_blanks (l : list ascii) : nat :=
  match l with
  | c :: l' => if is_space c then S (leading_blanks l') else 0
  | [] => 0
  end.

(** A statement that starts a comment which does not end on it. *)
Definition opens_comment (statement : string) : bool :=
  match classify statement with
  | KCommentStart false => true
  | _ => false
  end.

(** The statements of a file: what the [if/elif] chain is run on, in
    order.  Lines inside a comment are skipped, the lines of a
    continuation are joined into one statement, and a continuation that
    is not finished by a semicolon is dropped. *)
Fixpoint statements (commentMark : bool) (multiLinesString : string)
         (lines : list string) : list string :=
  match lines with
  | [] => []
  | line :: rest =>
      if commentMark then
        statements (negb (matches _comment_end_re line)) multiLinesString rest
      else
        match re_match _multilines_re line with
        | Some m => statements false (multiLinesString +:+ group 1 m) rest
        | None =>
            if nonempty multiLinesString then
              match re_match _multilines_done_re line with
              | Some m =>
                  let statement := multiLinesString +:+ group 1 m in
                  statement :: statements (opens_comment statement) "" rest
              | None => statements false "" rest
              end
            else line :: statements (opens_comment line) "" rest
        end
  end.

(** The record of a group when it is opened. *)
Definition group_record (father : Z) (depth : nat) (type name : string) : pydict :=
  [("fatherGroupNum", VInt father); ("depth", VInt (Z.of_nat depth));
   ("type", VStr type); ("name", VStr name)].

(** The father of a group opened while the groups [opened] are open. *)
Definition father (opened : list nat) : Z :=
  match opened with
  | [] => (-1)%Z
  | _ => Z.of_nat (List.last opened 0)
  end.


(** The records of the groups a sequence of statements declares, in the
    order of their declarations. *)
Fixpoint declared (count : nat) (opened : list nat) (ks : list kind) : list pydict :=
  match ks with
  | [] => []
  | KGroup depth type name :: rest =>
      group_record (father opened) depth type name
        :: declared (S count) (opened ++ [count]) rest
  | KGroupDone :: rest => declared count (removelast opened) rest
  | _ :: rest => declared count opened rest
  end.








(** What a statement of kind [k] does to the group list and to the stack
    of open groups. *)
Definition effect (k : kind) (st st' : pstate) : Prop :=
  match k with
  | KGroup depth type name =>
      groupList st' =
        groupList st ++
          [group_record (getLastOpenedGroupNum (openedGroupNumList st))
                        depth type name] /\
      groupListNum st' = (groupListNum st + 1)%Z /\
      openedGroupNumList st' = openedGroupNumList st ++ [groupListNum st] /\
      lastOpenedGroupNum st' = getLastOpenedGroupNum (openedGroupNumList st')
  | KGroupDone =>
      openedGroupNumList st <> [] /\
      groupList st' = groupList st /\
      groupListNum st' = groupListNum st /\
      openedGroupNumList st' = removelast (openedGroupNumList st) /\
      lastOpenedGroupNum st' = getLastOpenedGroupNum (openedGroupNumList st')
  | _ =>
      match attr_of k with
      | Some a =>
          update_group (groupList st) (lastOpenedGroupNum st)
                       (fun d => apply_attr d a) = Ok (groupList st') /\
          groupListNum st' = groupListNum st /\
          openedGroupNumList st' = openedGroupNumList st /\
          lastOpenedGroupNum st' = lastOpenedGroupNum st
      | None =>
          groupList st' = groupList st /\
          groupListNum st' = groupListNum st /\
          openedGroupNumList st' = openedGroupNumList st /\
          lastOpenedGroupNum st' = lastOpenedGroupNum st
      end
  end.



(** A statement that opens a group. *)
Definition opens_group (statement : string) : bool :=
  match classify statement with
  | KGroup _ _ _ => true
  | _ => false
  end.

(** A file whose only group declaration is inside a comment. *)
Definition commented_out_group : string :=
  text ["/* the library is switched off";
        "library (L) {";
        "}";
        "*/";
        ""].

(** The name the first loop of [genCellLibFile] records for a line that
    [cell_re] takes: the first group, stripped, and without its double
    quotes when it starts and ends with one. *)
Definition cell_name_of (line : string) : option string :=
  match re_match cell_re line with
  | Some m =>
      let cell_name := strip (group 1 m) in
      Some (if startswith_dquote cell_name && endswith_dquote cell_name
            then drop_ends cell_name else cell_name)
  | None => None
  end.

(** What a text file gives when it is read: its content with every line
    end turned into a newline. *)
Definition read_text (content : string) : string :=
  str (universal_newlines (chars content)).

(** The names a filter of [getLibPinInfo] lets through: all of them when
    the list is empty. *)
Definition passes (names : list string) (name : string) : Prop :=
  names <> [] -> In name names.

(** [t == s] for a value read from a dictionary. *)
Definition val_is (s : string) (t : pyval) : bool :=
  match t with VStr s' => String.eqb s' s | _ => false end.

(** Every entry of a dictionary satisfies [P]. *)
Definition all_in (P : string -> pyval -> Prop) (d : pydict) : Prop :=
  forall k v, In (k, v) d -> P k v.

(** The filter of [getLibPinInfo] that applies to a section. *)
Definition section_names (pinList bundleList busList : list string)
           (section : string) : list string :=
  if String.eqb section "pin" then pinList
  else if String.eqb section "bundle" then bundleList
  else busList.

(** The shape of the result of [getLibPinInfo], level by level. *)
Definition section_ok (pinList bundleList busList : list string)
           (section : string) (v : pyval) : Prop :=
  In section ["pin"; "bundle"; "bus"] /\
  exists entries, v = VDict entries /\
    forall n, In n (dict_keys entries) ->
              passes (section_names pinList bundleList busList section) n.

Definition cell_ok (cellList pinList bundleList busList : list string)
           (cell : string) (v : pyval) : Prop :=
  passes cellList cell /\
  exists sections, v = VDict sections /\
    all_in (section_ok pinList bundleList busList) sections.

Definition top_ok (cellList pinList bundleList busList : list string)
           (k : string) (v : pyval) : Prop :=
  k = "cell" /\
  exists cells, v = VDict cells /\
    all_in (cell_ok cellList pinList bundleList busList) cells.

(** What is found under a key to which the dictionaries [l] were added
    in order, each by [setdefault(k, []).append(..)]: their list, and
    nothing when there is none. *)
Definition listed (l : list pydict) : option pyval :=
  match l with
  | [] => None
  | _ => Some (VList (map VDict l))
  end.

(** A library with units, a leakage table and a cell without one. *)
Definition with_units : string :=
  text ["library (L) {";
        "  time_unit : 1ns;";
        "  capacitive_load_unit (1,pf);";
        "  date : today;";
        "  cell (A) {";
        "    area : 2;";
        "    leakage_power () {";
        "      value : 0.5;";
        "      when : !X;";
        "      note : none;";
        "    }";
        "    leakage_power () {";
        "      value : 0.7;";
        "    }";
        "  }";
        "  cell (B) {";
        "  }";
        "  voltage_unit : 1V;";
        "}"].

(** No key occurs twice: what tells a dictionary from a list of pairs. *)
Definition is_dict (d : pydict) : Prop := List.NoDup (dict_keys d).

(** The record a reference of a child list refers to. *)
Definition referred (store : list pydict) (v : pyval) : list pydict :=
  match v with
  | VRef j => match nth_error store j with
              | Some d => [d]
              | None => []
              end
  | _ => []
  end.

(** The sub-groups of a group: the records its child list refers to, in
    the order of the list. *)
Definition sub_groups (store : list pydict) (g : pydict) : list pydict :=
  match group_elems g with
  | Ok elems => flat_map (referred store) elems
  | _ => []
  end.

(** What [getCellLeakagePower] keeps of a [leakage_power] group. *)
Definition leakage_info (sub : pydict) : pydict :=
  List.filter (fun '(key, _) => str_in key ["value"; "when"; "related_pg_pin"]) sub.

(** The entries a cell contributes: one for each of its [leakage_power]
    sub-groups, in order. *)
Definition leaks (store : list pydict) (c : pydict) : list pydict :=
  map leakage_info (List.filter (type_is "leakage_power") (sub_groups store c)).

(** A cell with the name [k], taken by [getCellLeakagePower(cellList)]:
    [cellList] is empty or holds the name. *)
Definition cell_named (cellList : list string) (k : string) (c : pydict) : bool :=
  type_is "cell" c &&
  match dict_get "name" c with
  | Some (VStr s) => String.eqb s k && (is_nil cellList || str_in s cellList)
  | _ => false
  end.

(** What the line loop keeps true of every record, whatever attributes
    the file stores in it: it has a name, and while its [fatherGroupNum]
    is an integer, it is -1 or the index of an earlier record. *)
Definition fathered (groupList : list pydict) : Prop :=
  forall i d, nth_error groupList i = Some d ->
    dict_has "name" d = true /\
    forall f, dict_get "fatherGroupNum" d = Some (VInt f) ->
              (-1 <= f < Z.of_nat i)%Z.

(** A library whose only attribute is continued over two lines. *)
Definition continued_area : string :=
  text ["library (L) {"; "  cell (A) {"; "    area \"; "      : 2;"; "  }"; "}"].

(* ================================================================== *)
(** * Properties *)

(** ** Round trip of the minimal library *)

(** C9. Parsing the minimal library, serialising the tree with
    [restoreLib] and parsing the serialisation again gives the same entity
    list, [INV] alone, and the same area, the string 1, for both
    layouts. *)
Theorem C9_roundtrip_minimal_library :
  Forall (fun content =>
            roundtrip content =
              Some (Ok [VStr "INV"], Ok [("INV", VStr "1")],
                    Ok [VStr "INV"], Ok [("INV", VStr "1")]))
         [minimal_library; minimal_library_flat].
Proof.
  repeat (apply List.Forall_cons; [vm_compute; reflexivity|]). apply List.Forall_nil.
Qed.

(** ** Dictionaries *)

Lemma dict_get_set_eq {V} (k : string) (v : V) (d : dict V) :
  dict_get k (dict_set k v d) = Some v.
Proof.
  induction d as [|[k' v'] d IH]; simpl.
  - now rewrite String.eqb_refl.
  - destruct (String.eqb k k') eqn:E; simpl; rewrite E; auto.
Qed.

Lemma dict_get_set_ne {V} (k k' : string) (v : V) (d : dict V) :
  k <> k' -> dict_get k' (dict_set k v d) = dict_get k' d.
Proof.
  intros Hne. induction d as [|[k0 v0] d IH]; simpl.
  - destruct (String.eqb k' k) eqn:E; auto.
    apply String.eqb_eq in E. congruence.
  - destruct (String.eqb k k0) eqn:E; simpl.
    + apply String.eqb_eq in E. subst k0.
      destruct (String.eqb k' k) eqn:E'; auto.
      apply String.eqb_eq in E'. congruence.
    + now rewrite IH.
Qed.

Lemma dict_set_set {V} (k : string) (v1 v2 : V) (d : dict V) :
  dict_set k v2 (dict_set k v1 d) = dict_set k v2 d.
Proof.
  induction d as [|[k' v'] d IH]; simpl.
  - now rewrite String.eqb_refl.
  - destruct (String.eqb k k') eqn:E; simpl; rewrite E; auto.
    now rewrite IH.
Qed.

(** ** What a successful match says about the line *)

Lemma star_loop_sound R m k fuel s g res :
  sound_matcher R m ->
  star_loop m k fuel s g = Some res ->
  exists s' g', rtc R (s, g) (s', g') /\ k s' g' = Some res.
Proof.
  intros Hm. revert s g. induction fuel as [|fuel IH]; intros s g H; simpl in H.
  - exists s, g. split; [apply rtc_refl | exact H].
  - destruct (m s g _) as [res'|] eqn:E.
    + injection H as ->.
      apply Hm in E. destruct E as (s1 & g1 & HR & Hk).
      destruct (length s1 <? length s); [|discriminate].
      apply IH in Hk. destruct Hk as (s' & g' & Hrtc & Hk).
      exists s', g'. split; [eapply rtc_l; eauto | exact Hk].
    + exists s, g. split; [apply rtc_refl | exact H].
Qed.

Lemma lazy_loop_sound R m k fuel s g res :
  sound_matcher R m ->
  lazy_loop m k fuel s g = Some res ->
  exists s' g', rtc R (s, g) (s', g') /\ k s' g' = Some res.
Proof.
  intros Hm. revert s g. induction fuel as [|fuel IH]; intros s g H; simpl in H.
  - destruct (k s g) eqn:E; [|discriminate].
    exists s, g. split; [apply rtc_refl | congruence].
  - destruct (k s g) eqn:E.
    + exists s, g. split; [apply rtc_refl | congruence].
    + apply Hm in H. destruct H as (s1 & g1 & HR & Hk).
      destruct (length s1 <? length s); [|discriminate].
      apply IH in Hk. destruct Hk as (s' & g' & Hrtc & Hk).
      exists s', g'. split; [eapply rtc_l; eauto | exact Hk].
Qed.

Lemma rx_sound r whole : sound_matcher (den r whole) (rx r whole).
Proof.
  induction r; intros s g k res H; simpl in H.
  - destruct (length s =? length whole) eqn:E; [|discriminate].
    apply Nat.eqb_eq in E. exists s, g. simpl. auto.
  - destruct s as [|c [|c' s]]; try discriminate.
    + exists [], g. simpl. auto.
    + destruct (Ascii.eqb c nl) eqn:E; [|discriminate].
      apply Ascii.eqb_eq in E. subst. exists [nl], g. simpl. auto.
  - destruct s as [|c' s]; [discriminate|].
    destruct (Ascii.eqb c c') eqn:E; [|discriminate].
    apply Ascii.eqb_eq in E. subst. exists s, g. simpl. auto.
  - destruct s as [|c' s]; [discriminate|].
    destruct (Ascii.eqb c' nl) eqn:E; [discriminate|].
    apply Ascii.eqb_neq in E. exists s, g. simpl. eauto.
  - destruct s as [|c' s]; [discriminate|].
    destruct (is_space c') eqn:E; [|discriminate].
    exists s, g. simpl. eauto.
  - destruct s as [|c' s]; [discriminate|].
    destruct (is_space c') eqn:E; [discriminate|].
    exists s, g. simpl. eauto.
  - apply IHr1 in H. destruct H as (s1 & g1 & H1 & H).
    apply IHr2 in H. destruct H as (s2 & g2 & H2 & H).
    exists s2, g2. simpl. eauto.
  - destruct (rx r1 whole s g k) eqn:E.
    + injection H as ->. apply IHr1 in E. destruct E as (s' & g' & H1 & H).
      exists s', g'. simpl. auto.
    + apply IHr2 in H. destruct H as (s' & g' & H1 & H).
      exists s', g'. simpl. auto.
  - eapply star_loop_sound in H; eauto.
  - eapply lazy_loop_sound in H; eauto.
  - apply IHr in H. destruct H as (s' & g' & H1 & H).
    exists s', ((n, str (firstn (length s - length s') s)) :: g'). simpl. eauto.
Qed.

Lemma re_match_sound r line m :
  re_match r line = Some m ->
  exists s', den r (chars line) (chars line, []) (s', m).
Proof.
  unfold re_match. intros H.
  destruct (rx r (chars line) (chars line) [] _) as [[s' g']|] eqn:E; [|discriminate].
  injection H as ->.
  apply rx_sound in E. destruct E as (s1 & g1 & Hd & Hk).
  injection Hk as -> ->. eauto.
Qed.

(** The matcher only moves forward: what is left is a suffix. *)
Lemma den_suffix r whole a b :
  den r whole a b -> exists p, fst a = p ++ fst b.
Proof.
  revert a b. induction r; intros a b H; simpl in H.
  - destruct H as [-> _]. now exists [].
  - destruct H as [-> _]. now exists [].
  - destruct H as [H _]. exists [c]. now rewrite H.
  - destruct H as (c & H & _). exists [c]. now rewrite H.
  - destruct H as (c & H & _). exists [c]. now rewrite H.
  - destruct H as (c & H & _). exists [c]. now rewrite H.
  - destruct H as (m & H1 & H2).
    apply IHr1 in H1. apply IHr2 in H2.
    destruct H1 as [p1 H1], H2 as [p2 H2].
    exists (p1 ++ p2). rewrite H1, H2. now rewrite app_assoc.
  - destruct H as [H|H]; eauto.
  - induction H as [x|x y z Hxy _ IH]; [now exists []|].
    apply IHr in Hxy. destruct Hxy as [p1 H1], IH as [p2 H2].
    exists (p1 ++ p2). rewrite H1, H2. now rewrite app_assoc.
  - induction H as [x|x y z Hxy _ IH]; [now exists []|].
    apply IHr in Hxy. destruct Hxy as [p1 H1], IH as [p2 H2].
    exists (p1 ++ p2). rewrite H1, H2. now rewrite app_assoc.
  - destruct H as (g1 & H & _). apply IHr in H. exact H.
Qed.

Lemma chars_str l : chars (str l) = l.
Proof. apply list_ascii_of_string_of_list_ascii. Qed.

Lemma str_chars s : str (chars s) = s.
Proof. apply string_of_list_ascii_of_string. Qed.

Lemma chars_app a b : chars (a +:+ b) = chars a ++ chars b.
Proof. induction a; simpl; [reflexivity | now f_equal]. Qed.

Lemma den_groupless r whole a b :
  groupless r = true -> den r whole a b -> snd b = snd a.
Proof.
  revert a b. induction r; intros a b Hg H; simpl in H, Hg;
    try (apply andb_true_iff in Hg; destruct Hg as [Hg1 Hg2]).
  - now destruct H as [-> _].
  - now destruct H as [-> _].
  - now destruct H.
  - now destruct H as (c & _ & _ & H).
  - now destruct H as (c & _ & _ & H).
  - now destruct H as (c & _ & _ & H).
  - destruct H as (m & H1 & H2).
    rewrite (IHr2 _ _ Hg2 H2). now apply IHr1.
  - destruct H as [H|H]; auto.
  - induction H as [x|x y z Hxy _ IH]; [reflexivity|].
    rewrite IH. now apply IHr.
  - induction H as [x|x y z Hxy _ IH]; [reflexivity|].
    rewrite IH. now apply IHr.
  - discriminate.
Qed.

(** What [\s*] consumes is made of blanks. *)
Lemma star_spc_shape whole a b :
  rtc (den Spc whole) a b ->
  exists sp, fst a = sp ++ fst b /\ forallb is_space sp = true.
Proof.
  induction 1 as [x|x y z Hxy _ IH].
  - now exists [].
  - destruct Hxy as (c & H1 & H2 & _). destruct IH as (sp & H3 & H4).
    exists (c :: sp). rewrite H1, H3. simpl. now rewrite H2, H4.
Qed.

(** A line taken by [_multilines_done_re] has a first group that ends
    with a semicolon. *)
Lemma multilines_done_group1 line m :
  re_match _multilines_done_re line = Some m ->
  exists p, group 1 m = str (p ++ [";"%char]).
Proof.
  intros H. apply re_match_sound in H. destruct H as [s' H].
  cbn [_multilines_done_re seqs den] in H.
  destruct H as (m1 & [Hb _] & m2 & Hg & m3 & Hsp & [He _]).
  subst m1 m3.
  destruct Hg as (g1 & (x & Hdot & Hsemi & _) & Hcap).
  apply (den_groupless (Star Spc) (chars line)) in Hsp; [|reflexivity].
  apply (den_suffix (Star Dot) (chars line)) in Hdot. destruct Hdot as [p Hp].
  cbn [fst snd] in *. rewrite Hsemi in Hp.
  exists p. rewrite Hsp, Hcap. cbn [group Nat.eqb].
  f_equal. rewrite Hp. rewrite length_app. cbn [length].
  replace (length p + S (length (fst m2)) - length (fst m2)) with (length (p ++ [";"%char]))
    by (rewrite length_app; simpl; lia).
  replace (p ++ ";"%char :: fst m2) with ((p ++ [";"%char]) ++ fst m2)
    by (now rewrite <- app_assoc).
  rewrite firstn_app, firstn_all, Nat.sub_diag. simpl. now rewrite app_nil_r.
Qed.

(** A line taken by [_group_re] ends with an opening brace, blanks, and
    possibly the line end. *)
Lemma group_re_shape line m :
  re_match _group_re line = Some m ->
  exists q sp e, chars line = q ++ "{"%char :: sp ++ e /\
                 forallb is_space sp = true /\ (e = [] \/ e = [nl]).
Proof.
  intros H. apply re_match_sound in H. destruct H as [s' H].
  cbn [_group_re seqs] in H.
  repeat match type of H with
  | den (Seq _ (Seq _ (Seq _ _))) _ _ _ =>
      let m := fresh "m" in let H1 := fresh "H" in let p := fresh "p" in
      destruct H as (m & H1 & H); apply den_suffix in H1; destruct H1 as [p H1]
  end.
  cbn [den] in H. destruct H as (m8 & Hb & m9 & Hsp & He).
  destruct Hb as [Hb _]. apply (star_spc_shape (chars line)) in Hsp. destruct Hsp as (sp & Hsp & Hall).
  destruct He as [Heq He]. subst m9.
  cbn [fst] in *.
  exists (p ++ p0 ++ p1 ++ p2 ++ p3 ++ p4 ++ p5 ++ p6), sp, s'.
  split; [|split; auto].
  rewrite H0, H1, H2, H3, H4, H5, H6, H7, Hb, Hsp.
  now rewrite <- !app_assoc.
Qed.

Lemma is_space_semicolon : is_space ";"%char = false.
Proof. reflexivity. Qed.

(** A continuation joined up to its semicolon is never a group
    declaration. *)
Lemma joined_line_not_group multi line m :
  re_match _multilines_done_re line = Some m ->
  re_match _group_re (multi +:+ group 1 m) = None.
Proof.
  intros H. apply multilines_done_group1 in H. destruct H as [p Hp].
  destruct (re_match _group_re (multi +:+ group 1 m)) as [m'|] eqn:E; [|reflexivity].
  exfalso. apply group_re_shape in E. destruct E as (q & sp & e & Heq & Hsp & He).
  rewrite Hp, chars_app, chars_str in Heq.
  apply (f_equal (@rev ascii)) in Heq.
  rewrite !rev_app_distr in Heq. simpl in Heq.
  rewrite !rev_app_distr in Heq.
  destruct He as [-> | ->]; simpl in Heq.
  - destruct (rev sp) as [|c l] eqn:Er; simpl in Heq.
    + discriminate.
    + injection Heq as Hc _. 
      assert (Hin : In c sp) by (apply in_rev; rewrite Er; now left).
      rewrite forallb_forall in Hsp. apply Hsp in Hin.
      subst c. discriminate.
  - discriminate.
Qed.

(** ** The empty group list *)

Lemma py_norm_nil i : py_norm 0 i = None.
Proof.
  unfold py_norm. change (Z.of_nat 0) with 0%Z. change (- 0)%Z with 0%Z.
  destruct (Z.leb_spec 0 i), (Z.ltb_spec i 0); simpl; try reflexivity; lia.
Qed.

Lemma update_group_nil i f : update_group [] i f = Raise IndexError.
Proof. unfold update_group. simpl. now rewrite py_norm_nil. Qed.

Lemma length_removelast {A} (l : list A) : length (removelast l) = length l - 1.
Proof.
  rewrite removelast_firstn_len, length_firstn. lia.
Qed.

Lemma run_app l1 : forall st l2,
  run st (l1 ++ l2) = (let* st' := run st l1 in run st' l2).
Proof.
  induction l1 as [|x l1 IH]; intros st l2; simpl; [reflexivity|].
  destruct (step st x); simpl; auto.
Qed.

Lemma step_normal st line :
  normal st -> plain line ->
  step st line = (let* st' := dispatch (advance 1 st) line in Ok (end_of_body st')).
Proof.
  intros [Hc Hm] Hp. unfold step. 
  destruct st as [ms cm gl gn og lo ln se]; simpl in *; subst. unfold plain in Hp. now rewrite Hp.
Qed.

(** *** Group-close lines *)

Lemma step_close st line :
  normal st -> close_line line ->
  step st line =
    match openedGroupNumList st with
    | [] => Raise IndexError
    | _ => Ok (mkP "" false (groupList st) (groupListNum st)
                   (removelast (openedGroupNumList st))
                   (getLastOpenedGroupNum (removelast (openedGroupNumList st)))
                   (1 + libFileLine st) (stderr st))
    end.
Proof.
  intros Hn [Hp Hk]. rewrite (step_normal _ _ Hn Hp).
  unfold dispatch. rewrite Hk. destruct Hn as [Hc Hm].
  destruct st as [ms cm gl gn og lo ln se]; simpl in *; subst.
  destruct og; reflexivity.
Qed.

Lemma run_closes closes : forall st,
  normal st -> Forall close_line closes ->
  length closes <= length (openedGroupNumList st) ->
  exists st', run st closes = Ok st' /\ normal st' /\
    groupList st' = groupList st /\ stderr st' = stderr st /\
    length (openedGroupNumList st') = length (openedGroupNumList st) - length closes.
Proof.
  induction closes as [|c closes IH]; intros st Hn Hall Hlen; simpl.
  - exists st. repeat split; try apply Hn. lia.
  - inversion Hall as [|? ? Hc Hrest]; subst.
    rewrite (step_close st c Hn Hc).
    destruct (openedGroupNumList st) as [|z l] eqn:Eo; [simpl in Hlen; lia|].
    cbn [bind].
    set (st1 := mkP _ _ _ _ _ _ _ _).
    assert (Hl1 : length (openedGroupNumList st1) = length l).
    { unfold st1. cbn [openedGroupNumList]. rewrite length_removelast. simpl. lia. }
    destruct (IH st1) as (st' & Hr & Hn' & Hg & He & Hl); auto.
    { split; reflexivity. }
    { rewrite Hl1. simpl in Hlen. lia. }
    exists st'. repeat split; try apply Hn'; auto.
    rewrite Hl, Hl1. simpl. lia.
Qed.

Lemma run_too_many_closes closes : forall st,
  normal st -> Forall close_line closes ->
  length (openedGroupNumList st) < length closes ->
  run st closes = Raise IndexError.
Proof.
  induction closes as [|c closes IH]; intros st Hn Hall Hlen; simpl in *; [lia|].
  inversion Hall as [|? ? Hc Hrest]; subst.
  rewrite (step_close st c Hn Hc).
  destruct (openedGroupNumList st) as [|z l] eqn:Eo; [reflexivity|].
  cbn [bind]. apply IH; auto.
  - split; reflexivity.
  - cbn [openedGroupNumList]. rewrite length_removelast. simpl in *. lia.
Qed.

(** C4, as the code has it.  Unbalanced braces are not detected as such.
    Let the lines read so far leave the loop outside comments and
    continuations with some groups open, and let closing lines follow.
    If there are no more closing lines than open groups, so that the file
    is balanced or ends with groups still open, the parse returns
    normally with the group list and the diagnostics it had before the
    closing lines: a group left open at the end of the file is accepted
    silently.  If there is one closing line too many, the pop on the empty
    list of open groups raises an uncaught [IndexError]. *)
Theorem C4_unbalanced_braces_not_detected
        (lines closes : list string) (st : pstate) :
  run initial_pstate lines = Ok st ->
  normal st ->
  Forall close_line closes ->
  (length closes <= length (openedGroupNumList st) ->
     exists st', run initial_pstate (lines ++ closes) = Ok st' /\
                 groupList st' = groupList st /\ stderr st' = stderr st) /\
  (length (openedGroupNumList st) < length closes ->
     run initial_pstate (lines ++ closes) = Raise IndexError).
Proof.
  intros Hrun Hn Hall. rewrite run_app, Hrun. simpl bind. split; intros Hlen.
  - destruct (run_closes closes st Hn Hall Hlen) as (st' & Hr & _ & Hg & He & _).
    exists st'. auto.
  - now apply run_too_many_closes.
Qed.

(** *** Comment blocks *)

Lemma advance_advance n m st : advance n (advance m st) = advance (n + m) st.
Proof. unfold advance. simpl. f_equal. lia. Qed.

Lemma run_in_comment body : forall st,
  commentMark st = true ->
  Forall (fun l => matches _comment_end_re l = false) body ->
  run st body = Ok (advance (length body) st).
Proof.
  induction body as [|l body IH]; intros st Hc Hall; simpl.
  - destruct st as [ms cm gl gn og lo ln se]; reflexivity.
  - inversion Hall as [|? ? Hl Hrest]; subst.
    unfold step. cbn [advance commentMark]. rewrite Hc, Hl. simpl bind.
    rewrite IH; auto. rewrite advance_advance. now rewrite Nat.add_1_r.
Qed.

Lemma run_comment_block st start body end_ :
  normal st -> plain start -> classify start = KCommentStart false ->
  Forall (fun l => matches _comment_end_re l = false) body ->
  matches _comment_end_re end_ = true ->
  run st (start :: body ++ [end_]) = Ok (advance (2 + length body) st).
Proof.
  intros Hn Hp Hk Hbody Hend. simpl run.
  rewrite (step_normal _ _ Hn Hp). unfold dispatch. rewrite Hk. simpl bind.
  rewrite run_app. rewrite run_in_comment; auto. simpl bind. simpl run.
  unfold step. destruct Hn as [Hc Hm]. destruct st as [ms cm gl gn og lo ln se]; simpl in *. subst.
  rewrite Hend. simpl. unfold advance, with_comment. simpl.
  now rewrite Nat.add_succ_r.
Qed.

Lemma scan_in_comment body : forall locs i,
  Forall (fun l => re_search comment_end_re l = false) body ->
  scan_from (true, locs) i body = (true, locs).
Proof.
  induction body as [|l body IH]; intros locs i Hall; simpl; [reflexivity|].
  inversion Hall as [|? ? Hl Hrest]; subst. rewrite Hl. now apply IH.
Qed.

Lemma scan_from_app l1 : forall st i l2,
  scan_from st i (l1 ++ l2) = scan_from (scan_from st i l1) (i + length l1) l2.
Proof.
  induction l1 as [|x l1 IH]; intros st i l2; simpl.
  - now rewrite Nat.add_0_r.
  - rewrite IH. f_equal. lia.
Qed.

Lemma scan_comment_block locs i start body end_ :
  matches comment_start_re start = true ->
  re_search comment_end_re start = false ->
  Forall (fun l => re_search comment_end_re l = false) body ->
  re_search comment_end_re end_ = true ->
  scan_from (false, locs) i (start :: body ++ [end_]) = (false, locs).
Proof.
  intros Hs Hns Hbody Hend. simpl. rewrite Hs, Hns. simpl.
  rewrite scan_from_app, scan_in_comment by assumption. simpl. now rewrite Hend.
Qed.

(** C8, as the code has it.  A block comment is skipped when the line that
    opens it is taken as a comment start by both scans (the comment marker
    leads the line, no earlier pattern takes the line, the loop is in no
    continuation) and does not close it: every line up to and including
    the first line that ends with the closing marker leaves the state of
    the line loop unchanged but for the line counter, and leaves the cell
    locations of the pre-scan unchanged, whatever the lines in between
    look like. *)
Theorem C8_recognised_comment_block_is_skipped
        (st : pstate) (locs : dict nat) (i : nat)
        (start : string) (body : list string) (end_ : string) :
  normal st ->
  plain start -> classify start = KCommentStart false ->
  matches comment_start_re start = true ->
  re_search comment_end_re start = false ->
  Forall (fun l => matches _comment_end_re l = false /\
                   re_search comment_end_re l = false) body ->
  matches _comment_end_re end_ = true ->
  re_search comment_end_re end_ = true ->
  run st (start :: body ++ [end_]) = Ok (advance (2 + length body) st) /\
  scan_from (false, locs) i (start :: body ++ [end_]) = (false, locs).
Proof.
  intros Hn Hp Hk Hs Hns Hbody He1 He2. split.
  - apply run_comment_block; auto.
    eapply Forall_impl; [exact Hbody|]. now intros l [H _].
  - apply scan_comment_block; auto.
    eapply Forall_impl; [exact Hbody|]. now intros l [_ H].
Qed.

(** *** Updates of the group list *)

Lemma store_set_eq (store : list pydict) n d x :
  nth_error store n = Some x ->
  nth_error (store_set store n d) n = Some d.
Proof.
  intros H. unfold store_set.
  assert (n < length store) by (apply nth_error_Some; congruence).
  rewrite nth_error_app2; rewrite length_firstn; [|lia].
  replace (n - n `min` length store) with 0 by lia. reflexivity.
Qed.

Lemma store_set_length (store : list pydict) n d :
  n < length store -> length (store_set store n d) = length store.
Proof.
  intros H. unfold store_set. rewrite length_app, length_firstn. simpl.
  rewrite length_skipn. lia.
Qed.

Lemma update_group_ok gl i n d f :
  py_norm (length gl) i = Some n -> nth_error gl n = Some d ->
  update_group gl i f = Ok (store_set gl n (f d)).
Proof. intros H1 H2. unfold update_group. now rewrite H1, H2. Qed.

Lemma store_set_ne (store : list pydict) n m d :
  n <> m -> n < length store ->
  nth_error (store_set store n d) m = nth_error store m.
Proof.
  intros Hne Hlt. unfold store_set.
  destruct (Nat.lt_ge_cases m n) as [H|H].
  - rewrite nth_error_app1 by (rewrite length_firstn; lia).
    now rewrite nth_error_firstn, (proj2 (Nat.ltb_lt m n) H).
  - rewrite nth_error_app2 by (rewrite length_firstn; lia).
    rewrite length_firstn. replace (n `min` length store) with n by lia.
    destruct (m - n) as [|k] eqn:E; [lia|]. simpl.
    rewrite nth_error_skipn. f_equal. lia.
Qed.

Lemma in_enumerate {A} (l : list A) : forall lo i x,
  nth_error l i = Some x -> In (lo + i, x) (combine (seq lo (length l)) l).
Proof.
  induction l as [|y l IH]; intros lo i x H; [now destruct i|].
  destruct i as [|i]; simpl in *.
  - injection H as ->. left. f_equal. lia.
  - right. replace (lo + S i) with (S lo + i) by lia. now apply IH.
Qed.

Lemma flat_ok_nth gl i d :
  flat_ok gl = true -> nth_error gl i = Some d ->
  exists f, father_of d = Some f /\ (-1 <= f < Z.of_nat i)%Z /\
            dict_get "group" d = None /\ dict_has "name" d = true.
Proof.
  unfold flat_ok. intros H Hd. apply andb_true_iff in H. destruct H as [_ H].
  rewrite forallb_forall in H.
  assert (Hin : In (i, d) (combine (seq 0 (length gl)) gl)).
  { apply (in_enumerate gl 0 i d Hd). }
  apply H in Hin. destruct (father_of d) as [f|]; [|discriminate].
  apply andb_true_iff in Hin. destruct Hin as [Hin Hn].
  apply andb_true_iff in Hin. destruct Hin as [Hin Hg].
  apply andb_true_iff in Hin. destruct Hin as [H1 H2].
  exists f. repeat split; try lia; auto.
  unfold dict_has in Hg. now destruct (dict_get "group" d).
Qed.

Lemma children_from_step gl p i :
  i < length gl ->
  children_from gl p i =
    (if is_child gl p i then [i] else []) ++ children_from gl p (S i).
Proof.
  intros H. unfold children_from.
  replace (length gl - i) with (S (length gl - S i)) by lia.
  simpl. now destruct (is_child gl p i).
Qed.

Lemma children_from_end gl p : children_from gl p (length gl) = [].
Proof. unfold children_from. now rewrite Nat.sub_diag. Qed.

Lemma get_with_children k d l :
  k <> "group" -> dict_get k (with_children d l) = dict_get k d.
Proof.
  intros H. destruct l; [reflexivity|]. simpl.
  apply dict_get_set_ne. congruence.
Qed.

Lemma attach_organized gl store i :
  flat_ok gl = true -> i < length gl ->
  organized gl (S i) store ->
  exists store', attach store i = Ok store' /\ organized gl i store'.
Proof.
  intros Hok Hi [Hlen Hinv].
  destruct (nth_error gl i) as [d|] eqn:Ed; [|apply nth_error_None in Ed; lia].
  destruct (flat_ok_nth gl i d Hok Ed) as (f & Hf & Hrange & Hg & Hname).
  unfold attach. rewrite (Hinv i d Ed).
  rewrite get_with_children by discriminate.
  unfold father_of in Hf.
  destruct (dict_get "fatherGroupNum" d) as [[f'| | | |]|] eqn:Ef; try discriminate.
  injection Hf as ->.
  destruct (Z.eqb_spec f (-1)) as [Hm1|Hm1].
  - (* a top-level record is attached nowhere *)
    exists store. split; [reflexivity|]. split; [exact Hlen|].
    intros p dp Hp. rewrite (Hinv p dp Hp). f_equal. f_equal.
    rewrite (children_from_step gl p i Hi).
    unfold is_child. rewrite Ed. unfold father_of. rewrite Ef.
    destruct (Z.eqb_spec f (Z.of_nat p)); [lia | reflexivity].
  - set (p0 := Z.to_nat f).
    assert (Hp0 : p0 < i) by (unfold p0; lia).
    assert (Hnorm : py_norm (length store) f = Some p0).
    { unfold py_norm.
      destruct (Z.leb_spec 0 f); [|lia].
      destruct (Z.ltb_spec f (Z.of_nat (length store))); [reflexivity | lia]. }
    rewrite Hnorm.
    destruct (nth_error gl p0) as [d0|] eqn:Ed0; [|apply nth_error_None in Ed0; lia].
    rewrite (Hinv p0 d0 Ed0).
    destruct (flat_ok_nth gl p0 d0 Hok Ed0) as (_ & _ & _ & Hg0 & _).
    set (kids := children_from gl p0 (S i)).
    assert (Hchild : forall p, is_child gl p i = (p =? p0)).
    { intros p. unfold is_child. rewrite Ed. unfold father_of. rewrite Ef.
      destruct (Z.eqb_spec f (Z.of_nat p)), (Nat.eqb_spec p p0); auto; lia. }
    exists (store_set store p0 (with_children d0 (i :: kids))).
    split.
    + destruct kids as [|k kids'] eqn:Ek; cbn [with_children].
      * unfold dict_has. rewrite Hg0. rewrite dict_get_set_eq.
        now rewrite dict_set_set.
      * unfold dict_has. rewrite dict_get_set_eq. cbv iota.
        rewrite dict_get_set_eq. now rewrite (@dict_set_set pyval).
    + split.
      * rewrite store_set_length; lia.
      * intros p dp Hp.
        rewrite (children_from_step gl p i Hi), Hchild.
        destruct (Nat.eqb_spec p p0) as [->|Hne].
        -- rewrite Ed0 in Hp. injection Hp as <-.
           erewrite store_set_eq; [reflexivity|]. apply Hinv. exact Ed0.
        -- rewrite store_set_ne by lia. now apply Hinv.
Qed.

Lemma organize_loop_organized gl : forall i store,
  flat_ok gl = true -> i < length gl ->
  organized gl (S i) store ->
  exists store', organize_loop i store = Ok store' /\ organized gl 1 store'.
Proof.
  induction i as [|i IH]; intros store Hok Hi Hinv.
  - exists store. split; [reflexivity | exact Hinv].
  - simpl. destruct (attach_organized gl store (S i) Hok Hi Hinv) as (s1 & Ha & H1).
    rewrite Ha. simpl. apply IH; auto. lia.
Qed.

Lemma children_from_1 gl p :
  flat_ok gl = true -> children_from gl p 1 = children_of gl p.
Proof.
  intros Hok. unfold children_of.
  destruct gl as [|d0 gl'] eqn:E; [discriminate|].
  rewrite (children_from_step (d0 :: gl') p 0) by (simpl; lia).
  unfold is_child. simpl nth_error.
  destruct (flat_ok_nth (d0 :: gl') 0 d0 Hok eq_refl) as (f & Hf & Hr & _).
  rewrite Hf. destruct (Z.eqb_spec f (Z.of_nat p)); [lia | reflexivity].
Qed.




(** ** The line loop builds flat lists that [organizeData] accepts *)

Lemma getLast_range (l : list Z) (n : Z) :
  Forall (fun z => (0 <= z < n)%Z) l ->
  getLastOpenedGroupNum l = (-1)%Z \/ (0 <= getLastOpenedGroupNum l < n)%Z.
Proof.
  intros Hall. destruct l as [|z l]; [now left|]. right.
  unfold getLastOpenedGroupNum.
  assert (Hin : In (List.last (z :: l) (-1)%Z) (z :: l)).
  { destruct (@exists_last _ (z :: l)) as (l' & a & E); [discriminate|].
    rewrite E, last_last. apply in_or_app. right. now left. }
  rewrite List.Forall_forall in Hall. now apply Hall.
Qed.

Lemma In_removelast {A} (x : A) (l : list A) :
  In x (removelast l) -> In x l.
Proof.
  induction l as [|a l IH]; [contradiction|].
  destruct l as [|b l]; [contradiction|].
  intros [H|H]; [now left | right; now apply IH].
Qed.

Lemma record_ok_attr i d c key v :
  reserved key = false -> record_ok i d -> record_ok i (apply_attr d (c, key, v)).
Proof.
  unfold reserved. intros Hr (f & Hf & Hrange & Hg & Hn).
  apply orb_false_iff in Hr. destruct Hr as [H1 H2].
  apply String.eqb_neq in H1, H2.
  assert (Hget : forall k, k <> key ->
            dict_get k (apply_attr d (c, key, v)) = dict_get k d).
  { intros k Hk. simpl. destruct c.
    - unfold add_complex. destruct (dict_get key d) as [[]|];
        apply dict_get_set_ne; congruence.
    - apply dict_get_set_ne. congruence. }
  exists f. repeat split; try lia.
  - unfold father_of. rewrite Hget by congruence. exact Hf.
  - rewrite Hget by congruence. exact Hg.
  - unfold dict_has. destruct (String.eqb_spec "name" key) as [<-|Hne].
    + simpl. destruct c.
      * unfold add_complex. destruct (dict_get "name" d) as [[]|];
          now rewrite dict_get_set_eq.
      * unfold add_simple. now rewrite dict_get_set_eq.
    + rewrite Hget by assumption. exact Hn.
Qed.

Lemma update_group_built (st : pstate) c key v gl' :
  built st -> reserved key = false ->
  update_group (groupList st) (lastOpenedGroupNum st)
               (fun d => apply_attr d (c, key, v)) = Ok gl' ->
  length gl' = length (groupList st) /\
  (forall i d, nth_error gl' i = Some d -> record_ok i d).
Proof.
  intros (_ & _ & _ & _ & Hrec) Hr. unfold update_group.
  destruct (py_norm _ _) as [n|] eqn:En; [|discriminate].
  destruct (nth_error (groupList st) n) as [d0|] eqn:Ed; [|discriminate].
  intros H. injection H as <-.
  assert (Hn : n < length (groupList st)) by (apply nth_error_Some; congruence).
  split.
  - apply (store_set_length (groupList st) n _ Hn).
  - intros i d Hi. destruct (Nat.eq_dec n i) as [<-|Hne].
    + change (nth_error (store_set (groupList st) n (apply_attr d0 (c, key, v))) n = Some d) in Hi.
      rewrite (store_set_eq _ _ _ _ Ed) in Hi. injection Hi as <-.
      apply record_ok_attr; auto.
    + change (nth_error (store_set (groupList st) n (apply_attr d0 (c, key, v))) i = Some d) in Hi.
      rewrite store_set_ne in Hi by assumption. now apply Hrec.
Qed.

Lemma dispatch_built st line st' :
  built st -> multiLinesString st = "" ->
  match attr_of (classify line) with
  | Some (_, key, _) => reserved key = false
  | None => True
  end ->
  dispatch st line = Ok st' -> built st' .
Proof.
  intros Hb Hm Hs. unfold dispatch.
  assert (Hb' := Hb). destruct Hb' as (_ & Hnum & Hop & Hlast & Hrec).
  assert (Hattr : forall st1 c key v,
            groupList st1 = groupList st ->
            multiLinesString st1 = "" -> groupListNum st1 = groupListNum st ->
            openedGroupNumList st1 = openedGroupNumList st ->
            lastOpenedGroupNum st1 = lastOpenedGroupNum st ->
            reserved key = false ->
            (let* gl := update_group (groupList st1) (lastOpenedGroupNum st1)
                          (fun d => apply_attr d (c, key, v)) in
             Ok (with_groups st1 gl)) = Ok st' -> built st').
  { intros st1 c key v E1 E2 E3 E4 E5 Hr H.
    rewrite E1, E5 in H.
    destruct (update_group _ _ _) as [gl'| |] eqn:Eu; try discriminate.
    simpl in H. injection H as <-.
    destruct (update_group_built st c key v gl' Hb Hr Eu) as [Hlen Hrec'].
    unfold built. cbn [with_groups multiLinesString groupListNum groupList
                       openedGroupNumList lastOpenedGroupNum].
    rewrite Hlen, E2, E3, E4, E5. auto. }
  destruct (classify line) eqn:Ec; cbn [attr_of] in Hs; intros H.
  - apply (Hattr st true key valueList); auto.
  - apply (Hattr st false key value); auto.
  - injection H as <-. unfold built.
    cbn [multiLinesString groupListNum groupList openedGroupNumList lastOpenedGroupNum].
    rewrite length_app. simpl length.
    repeat split; auto.
    + lia.
    + apply List.Forall_app. split.
      * eapply Forall_impl; [exact Hop|]. intros z Hz. simpl in Hz. lia.
      * constructor; [lia | constructor].
    + intros i d Hi.
      destruct (Nat.lt_ge_cases i (length (groupList st))) as [Hlt|Hge].
      * rewrite nth_error_app1 in Hi by assumption. now apply Hrec.
      * rewrite nth_error_app2 in Hi by assumption.
        destruct (i - length (groupList st)) as [|k] eqn:Ek;
          [|destruct k; discriminate].
        simpl in Hi. injection Hi as <-.
        assert (i = length (groupList st)) by lia. subst i.
        exists (getLastOpenedGroupNum (openedGroupNumList st)).
        repeat split; try reflexivity;
          destruct (getLast_range _ _ Hop) as [E|E]; lia.
  - destruct (openedGroupNumList st) as [|z l] eqn:Eo; [discriminate|].
    injection H as <-. unfold built.
    cbn [multiLinesString groupListNum groupList openedGroupNumList lastOpenedGroupNum].
    repeat split; auto.
    rewrite List.Forall_forall in *.
    intros x Hx. apply Hop. now apply In_removelast.
  - injection H as <-. destruct ended; [exact Hb|].
    unfold built. cbn. repeat split; auto.
  - injection H as <-. exact Hb.
  - apply (Hattr (with_stderr st (WarnIrregularLiberty (libFileLine st) (strip line)))
                 true key valueList); auto.
  - apply (Hattr (with_stderr st (WarnIrregular (libFileLine st) (strip line)))
                 false key value); auto.
  - injection H as <-. unfold built. cbn. repeat split; auto.
Qed.

Lemma built_advance n st : built st -> built (advance n st).
Proof. intros H. exact H. Qed.

Lemma step_built st line st' :
  built st -> safe_line line -> step st line = Ok st' -> built st'.
Proof.
  intros Hb [Hp Hs] H. unfold step in H.
  assert (Hm : multiLinesString (advance 1 st) = "") by apply Hb.
  destruct (commentMark (advance 1 st)) eqn:Ec.
  - injection H as <-. destruct (matches _comment_end_re line); exact Hb.
  - unfold plain in Hp. rewrite Hp, Hm in H. cbn [nonempty] in H.
    destruct (dispatch (advance 1 st) line) as [st1| |] eqn:Ed; try discriminate.
    simpl in H. injection H as <-.
    apply (dispatch_built (advance 1 st) line st1 (built_advance 1 st Hb) Hm Hs) in Ed.
    destruct Ed as (E1 & E2 & E3 & E4 & E5).
    unfold built. cbn. auto.
Qed.

Lemma run_built lines : forall st st',
  built st -> Forall safe_line lines -> run st lines = Ok st' -> built st'.
Proof.
  induction lines as [|line lines IH]; intros st st' Hb Hall H; simpl in H.
  - now injection H as <-.
  - inversion Hall as [|? ? Hl Hrest]; subst.
    destruct (step st line) as [st1| |] eqn:Es; try discriminate.
    simpl in H. eapply IH; [|exact Hrest|exact H].
    eapply step_built; eauto.
Qed.

Lemma in_enumerate_inv {A} (l : list A) : forall lo i x,
  In (i, x) (combine (seq lo (length l)) l) ->
  lo <= i /\ nth_error l (i - lo) = Some x.
Proof.
  induction l as [|y l IH]; intros lo i x H; simpl in H; [contradiction|].
  destruct H as [H|H].
  - injection H as <- <-. rewrite Nat.sub_diag. auto.
  - apply IH in H. destruct H as [H1 H2]. split; [lia|].
    replace (i - lo) with (S (i - S lo)) by lia. exact H2.
Qed.

(** For a file with no continuation line and no attribute named
    [fatherGroupNum] or [group], the flat list of a parse that returns at
    least one group is one [organizeData] accepts. *)
Lemma line_loop_builds_flat_ok (lines : list string) (st : pstate) :
  Forall safe_line lines ->
  run initial_pstate lines = Ok st ->
  groupList st <> [] ->
  flat_ok (groupList st) = true.
Proof.
  intros Hall Hrun Hne.
  assert (Hb : built st).
  { eapply run_built; [|exact Hall|exact Hrun].
    unfold built. cbn. repeat split; auto.
    intros i d H. destruct i; discriminate. }
  destruct Hb as (_ & _ & _ & _ & Hrec).
  unfold flat_ok. apply andb_true_iff. split.
  - destruct (groupList st); [congruence | reflexivity].
  - apply forallb_forall. intros [i d] Hin.
    apply in_enumerate_inv in Hin. destruct Hin as [_ Hin].
    rewrite Nat.sub_0_r in Hin.
    destruct (Hrec i d Hin) as (f & Hf & Hr & Hg & Hn).
    rewrite Hf, Hn. unfold dict_has. rewrite Hg. simpl.
    apply andb_true_iff. split; [|reflexivity].
    apply andb_true_iff. split; [|reflexivity].
    apply andb_true_iff. split; [apply Z.leb_le | apply Z.ltb_lt]; lia.
Qed.

Lemma str_in_In x l : str_in x l = true <-> In x l.
Proof.
  unfold str_in. rewrite existsb_exists. split.
  - intros (y & Hy & E). apply String.eqb_eq in E. now subst.
  - intros H. exists x. split; [exact H | apply String.eqb_refl].
Qed.

(** *** Missing cells *)

(** C5. If a requested cell is not among the cells recorded by the
    pre-scan, [genCellLibFile] (and so the constructor) exits with status
    1, every requested name that is missing has its message on the error
    stream, and the file system is unchanged: no reduced file is
    written. *)
Theorem C5_missing_cells_fail_together
        (w : world) (libFile content : string) (cellList : list string)
        (cell : string) :
  files w !! libFile = Some content ->
  In cell cellList ->
  ~ In cell (dict_keys (scan_cells content)) ->
  exists w',
    genCellLibFile w libFile cellList = (w', SysExit 1) /\
    init w libFile cellList = (w', SysExit 1) /\
    files w' = files w /\
    (forall c, In c cellList -> ~ In c (dict_keys (scan_cells content)) ->
               In (ErrCellMissing c libFile) (errors w')).
Proof.
  intros Hfile Hin Hmiss.
  set (missing := List.filter
                    (fun c => negb (str_in c (dict_keys (scan_cells content)))) cellList).
  assert (Hmem : forall c, In c cellList ->
                   ~ In c (dict_keys (scan_cells content)) -> In c missing).
  { intros c Hc Hn. apply filter_In. split; [exact Hc|].
    apply negb_true_iff. destruct (str_in c _) eqn:E; [|reflexivity].
    apply str_in_In in E. contradiction. }
  assert (Hgen : genCellLibFile w libFile cellList =
                 (mkWorld (files w)
                          (errors w ++ map (fun c => ErrCellMissing c libFile) missing),
                  SysExit 1)).
  { unfold genCellLibFile. rewrite Hfile. fold missing.
    destruct missing as [|m ms] eqn:E; [|reflexivity].
    exfalso. apply (Hmem cell Hin Hmiss). }
  eexists. split; [exact Hgen|]. split; [|split].
  - unfold init. rewrite Hfile, Hgen.
    destruct cellList; [contradiction | reflexivity].
  - reflexivity.
  - intros c Hc Hn. cbn [errors]. apply in_or_app. right.
    apply in_map_iff. exists c. split; [reflexivity | now apply Hmem].
Qed.

(** *** The ranges of the requested cells *)

Lemma dict_keys_set {V} (k : string) (v : V) (d : dict V) :
  dict_keys (dict_set k v d) =
    if dict_has k d then dict_keys d else dict_keys d ++ [k].
Proof.
  unfold dict_has. induction d as [|[k' v'] d IH]; simpl; [reflexivity|].
  destruct (String.eqb k k') eqn:E; simpl; [reflexivity|].
  rewrite IH. now destruct (dict_get k d).
Qed.

Lemma dict_has_In {V} (k : string) (d : dict V) :
  dict_has k d = true <-> In k (dict_keys d).
Proof.
  unfold dict_has. induction d as [|[k' v'] d IH]; simpl.
  - split; [discriminate | contradiction].
  - destruct (String.eqb k k') eqn:E.
    + apply String.eqb_eq in E. subst. split; auto.
    + apply String.eqb_neq in E. rewrite IH. split; [auto | intros [H|H]; congruence].
Qed.

Lemma dict_set_snd {V} (k : string) (v : V) (d : dict V) (P : V -> Prop) :
  P v -> Forall P (map snd d) -> Forall P (map snd (dict_set k v d)).
Proof.
  intros Hv. induction d as [|[k' v'] d IH]; simpl; intros H.
  - repeat constructor. exact Hv.
  - inversion H; subst. destruct (String.eqb k k'); simpl; constructor; auto.
Qed.

Lemma nodup_snoc {A} (l : list A) (k : A) :
  List.NoDup l -> ~ In k l -> List.NoDup (l ++ [k]).
Proof.
  induction 1 as [|x l Hx Hl IH]; simpl; intros Hk.
  - constructor; [intros [] | constructor].
  - constructor.
    + intros Hin. apply in_app_or in Hin. destruct Hin as [Hin|[->|[]]]; auto.
    + apply IH. auto.
Qed.

Lemma dict_set_nodup {V} (k : string) (v : V) (d : dict V) :
  List.NoDup (dict_keys d) -> List.NoDup (dict_keys (dict_set k v d)).
Proof.
  intros H. rewrite dict_keys_set. destruct (dict_has k d) eqn:E; [exact H|].
  apply nodup_snoc; [exact H|].
  intros Hin. apply dict_has_In in Hin. congruence.
Qed.

Lemma scan_from_ok lines : forall st i,
  1 <= i -> locations_ok 1 (snd st) ->
  locations_ok 1 (snd (scan_from st i lines)).
Proof.
  induction lines as [|line lines IH]; intros [c d] i Hi Hok; simpl; [exact Hok|].
  apply IH; [lia|].
  destruct c.
  - destruct (re_search comment_end_re line); exact Hok.
  - destruct (matches comment_start_re line).
    + destruct (negb (re_search comment_end_re line)); exact Hok.
    + destruct (re_match cell_re line); [|exact Hok].
      destruct Hok as [H1 H2]. split; simpl.
      * now apply dict_set_nodup.
      * apply dict_set_snd; auto.
Qed.

Lemma scan_cells_ok content : locations_ok 1 (scan_cells content).
Proof.
  unfold scan_cells. apply scan_from_ok; [lia|].
  split; simpl; constructor.
Qed.

Lemma increasing_sorted l : increasing l = true -> StronglySorted lt l.
Proof.
  intros H. apply Sorted_StronglySorted; [intros x y z; lia|].
  induction l as [|a l IH]; [constructor|].
  destruct l as [|b l].
  - repeat constructor.
  - simpl in H. apply andb_true_iff in H. destruct H as [H1 H2].
    constructor; [now apply IH|]. constructor. now apply Nat.ltb_lt.
Qed.

Lemma sorted_split l1 s l2 :
  StronglySorted lt (l1 ++ s :: l2) ->
  Forall (fun x => x < s) l1 /\ Forall (fun x => s < x) l2 /\ StronglySorted lt l2.
Proof.
  induction l1 as [|a l1 IH]; simpl; intros H.
  - apply StronglySorted_inv in H. destruct H as [H1 H2]. auto.
  - apply StronglySorted_inv in H. destruct H as [H1 H2].
    destruct (IH H1) as (Ha & Hb & Hc). repeat split; auto.
    constructor; [|exact Ha].
    rewrite List.Forall_forall in H2. apply H2. apply in_or_app. right. now left.
Qed.

Lemma filter_later_none s l :
  Forall (fun x => x <= s) l -> List.filter (fun x => s <? x) l = [].
Proof.
  induction 1 as [|x l Hx _ IH]; simpl; [reflexivity|].
  destruct (Nat.ltb_spec s x); [lia | exact IH].
Qed.

Lemma filter_later_all s l :
  Forall (fun x => s < x) l -> List.filter (fun x => s <? x) l = l.
Proof.
  induction 1 as [|x l Hx _ IH]; simpl; [reflexivity|].
  destruct (Nat.ltb_spec s x); [now rewrite IH | lia].
Qed.

Lemma least_sorted e l : StronglySorted lt (e :: l) -> least (e :: l) = Some e.
Proof.
  revert e. induction l as [|b l IH]; intros e H; [reflexivity|].
  apply StronglySorted_inv in H. destruct H as [H1 H2].
  change (least (e :: b :: l)) with
    (match least (b :: l) with Some m => Some (Nat.min e m) | None => Some e end).
  rewrite (IH b H1). inversion H2; subst. f_equal. lia.
Qed.

Lemma next_later_split (l1 : dict nat) c s (l2 : dict nat) :
  StronglySorted lt (map snd (l1 ++ (c, s) :: l2)) ->
  next_later (l1 ++ (c, s) :: l2) s =
    match l2 with [] => None | (_, e) :: _ => Some e end.
Proof.
  intros H. unfold next_later. rewrite map_app in *. simpl in *.
  destruct (sorted_split _ _ _ H) as (Ha & Hb & Hc).
  rewrite List.filter_app. simpl. rewrite Nat.ltb_irrefl.
  rewrite filter_later_none
    by (eapply Forall_impl; [exact Ha | intros; simpl in *; lia]).
  rewrite filter_later_all by assumption. simpl.
  destruct l2 as [|[c' e] l2]; [reflexivity|]. now apply least_sorted.
Qed.

Lemma dict_split {V} (k : string) (d : dict V) :
  In k (dict_keys d) ->
  exists l1 v l2, d = l1 ++ (k, v) :: l2 /\ ~ In k (dict_keys l1).
Proof.
  induction d as [|[k' v'] d IH]; simpl; [contradiction|].
  intros H. destruct (String.eqb_spec k k') as [->|Hne].
  - exists [], v', d. auto.
  - destruct H as [H|H]; [congruence|].
    destruct (IH H) as (l1 & v & l2 & -> & Hn).
    exists ((k', v') :: l1), v, l2. split; [reflexivity|].
    simpl. intros [E|E]; [congruence | contradiction].
Qed.

Lemma dict_get_app_notin {V} (k : string) (l1 d : dict V) :
  ~ In k (dict_keys l1) -> dict_get k (l1 ++ d) = dict_get k d.
Proof.
  induction l1 as [|[k' v'] l1 IH]; simpl; intros H; [reflexivity|].
  destruct (String.eqb_spec k k') as [->|Hne]; [tauto|]. apply IH. tauto.
Qed.

Lemma index_of_app_notin k l1 l2 :
  ~ In k l1 -> index_of k (l1 ++ k :: l2) = length l1.
Proof.
  induction l1 as [|k' l1 IH]; simpl; intros H.
  - now rewrite String.eqb_refl.
  - destruct (String.eqb_spec k k') as [->|Hne]; [tauto|]. rewrite IH; tauto.
Qed.

Lemma py_slice_lines (all_lines : list string) s e :
  1 <= s -> 1 <= e ->
  py_slice all_lines (s - 1) (e - 1) = lines_from_to all_lines s (e - 1).
Proof.
  intros Hs He. unfold py_slice, lines_from_to.
  destruct (Nat.le_gt_cases (s - 1) (e - 1)) as [H|H].
  - replace (S (e - 1) - s) with (e - 1 - (s - 1)) by lia.
    rewrite skipn_firstn_comm.
    now replace (s - 1 + (e - 1 - (s - 1))) with (e - 1) by lia.
  - replace (S (e - 1) - s) with 0 by lia. simpl.
    apply skipn_all2. rewrite length_firstn. lia.
Qed.

Lemma py_slice_to_end (all_lines : list string) s :
  1 <= s ->
  py_slice all_lines (s - 1) (length all_lines)
  = lines_from_to all_lines s (length all_lines).
Proof.
  intros Hs. unfold py_slice, lines_from_to.
  rewrite firstn_all. symmetry. apply firstn_all2. rewrite length_skipn. lia.
Qed.

Lemma cell_part_spec (all_lines : list string) (locs : dict nat) cell :
  List.NoDup (dict_keys locs) -> Forall (fun l => 1 <= l) (map snd locs) ->
  increasing (map snd locs) = true ->
  In cell (dict_keys locs) ->
  cell_part all_lines locs cell = Ok (spec_range all_lines locs cell).
Proof.
  intros Hnd Hpos Hinc Hin.
  apply increasing_sorted in Hinc.
  destruct (dict_split cell locs Hin) as (l1 & s & l2 & -> & Hn1).
  unfold cell_part, spec_range.
  rewrite dict_get_app_notin by assumption. simpl. rewrite String.eqb_refl.
  rewrite next_later_split by assumption.
  unfold dict_keys in *. rewrite map_app in *. simpl in *.
  rewrite index_of_app_notin by assumption.
  rewrite length_app. simpl.
  assert (Hs : 1 <= s).
  { rewrite List.Forall_app in Hpos. destruct Hpos as [_ Hpos]. now inversion Hpos. }
  destruct l2 as [|[c' e] l2]; simpl.
  - replace (length (map fst l1) + 1 - 1) with (length (map fst l1)) by lia.
    rewrite Nat.eqb_refl. now rewrite py_slice_to_end.
  - destruct (Nat.eqb_spec (length (map fst l1)) (length (map fst l1) + S (S (length (map fst l2))) - 1));
      [lia|].
    rewrite nth_error_app2 by lia.
    replace (length (map fst l1) + 1 - length (map fst l1)) with 1 by lia. simpl.
    assert (Hc' : ~ In c' (map fst l1) /\ c' <> cell).
    { apply List.NoDup_remove in Hnd. destruct Hnd as [Hnd Hx].
      apply List.NoDup_app_remove_l in Hnd as Hnd2.
      split.
      - intros Hc. 
        assert (Hd : List.NoDup (map fst l1 ++ c' :: map fst l2)) by exact Hnd.
        apply List.NoDup_remove_2 in Hd. apply Hd. apply in_or_app. now left.
      - intros ->. apply Hx. apply in_or_app. right. now left. }
    destruct Hc' as [Hc1 Hc2].
    rewrite dict_get_app_notin by assumption. simpl.
    destruct (String.eqb_spec c' cell) as [|_]; [contradiction|].
    rewrite String.eqb_refl.
    assert (He : 1 <= e).
    { rewrite List.Forall_app in Hpos. destruct Hpos as [_ Hpos].
      inversion Hpos as [|? ? _ Hp2]; subst. now inversion Hp2. }
    now rewrite py_slice_lines.
Qed.

Lemma cell_parts_spec (all_lines : list string) (locs : dict nat) cellList :
  List.NoDup (dict_keys locs) -> Forall (fun l => 1 <= l) (map snd locs) ->
  increasing (map snd locs) = true ->
  Forall (fun cell => In cell (dict_keys locs)) cellList ->
  cell_parts all_lines locs cellList
  = Ok (flat_map (spec_range all_lines locs) cellList).
Proof.
  intros Hnd Hpos Hinc. induction 1 as [|cell rest Hc _ IH]; simpl; [reflexivity|].
  rewrite cell_part_spec by assumption. simpl. now rewrite IH.
Qed.

Lemma no_missing_cells keys cellList :
  Forall (fun cell => In cell keys) cellList ->
  List.filter (fun cell => negb (str_in cell keys)) cellList = [].
Proof.
  induction 1 as [|c l Hc _ IH]; simpl; [reflexivity|].
  apply str_in_In in Hc. now rewrite Hc.
Qed.

(** The reduced file is the header and the requested ranges. *)
Lemma genCellLibFile_ranges (w : world) (libFile content : string)
      (cellList : list string) :
  files w !! libFile = Some content ->
  increasing (map snd (scan_cells content)) = true ->
  cellList <> [] ->
  Forall (fun cell => In cell (dict_keys (scan_cells content))) cellList ->
  genCellLibFile w libFile cellList =
    (mkWorld (<[cellLibFile_of libFile cellList :=
                  spec_reduced (readlines content) (scan_cells content) cellList]>
                (files w))
             (errors w),
     Ok (cellLibFile_of libFile cellList)).
Proof.
  intros Hfile Hinc Hne Hall.
  destruct (scan_cells_ok content) as [Hnd Hpos].
  unfold genCellLibFile. rewrite Hfile.
  rewrite no_missing_cells by assumption.
  destruct (scan_cells content) as [|[first f] rest] eqn:Es.
  { destruct cellList as [|c l]; [congruence|]. inversion Hall; subst. contradiction. }
  cbn [dict_keys map fst dict_get]. rewrite String.eqb_refl.
  rewrite cell_parts_spec by assumption.
  unfold spec_reduced, spec_header.
  assert (Hl : least (map snd ((first, f) :: rest)) = Some f).
  { apply (least_sorted f (map snd rest)). now apply increasing_sorted. }
  rewrite Hl.
  replace (py_slice (readlines content) 0 (f - 1))
    with (lines_from_to (readlines content) 1 (f - 1)); [reflexivity|].
  unfold lines_from_to, py_slice.
  now replace (S (f - 1) - 1) with (f - 1) by lia.
Qed.

(** C6, as the code has it.  When the recorded lines increase in
    recording order (which a cell name declared twice breaks: the name
    keeps its first position and takes the later line), the reduced file
    is the header, that is the lines before the first recorded cell, then
    for every requested cell, in the requested order, the lines from its
    recorded line to just before the next later recorded line, or to the
    end of the file for the last one, then one closing brace.  With cells
    recorded at lines 10, 40 and 70, requesting the second gives lines 1
    to 9, lines 40 to 69 and the brace. *)
Theorem C6_requested_cell_ranges (w : world) (libFile content : string)
        (cellList : list string) :
  files w !! libFile = Some content ->
  increasing (map snd (scan_cells content)) = true ->
  cellList <> [] ->
  Forall (fun cell => In cell (dict_keys (scan_cells content))) cellList ->
  genCellLibFile w libFile cellList =
    (mkWorld (<[cellLibFile_of libFile cellList :=
                  spec_reduced (readlines content) (scan_cells content) cellList]>
                (files w))
             (errors w),
     Ok (cellLibFile_of libFile cellList)) /\
  (forall a b c,
     scan_cells content = [(a, 10); (b, 40); (c, 70)] -> cellList = [b] ->
     spec_reduced (readlines content) (scan_cells content) cellList =
       concat_str (lines_from_to (readlines content) 1 9
                   ++ lines_from_to (readlines content) 40 69)
       +:+ "}" +:+ newline).
Proof.
  intros Hfile Hinc Hne Hall. split.
  - now apply genCellLibFile_ranges.
  - intros a b c Hs ->.
    destruct (scan_cells_ok content) as [Hnd _]. rewrite Hs in *.
    unfold spec_reduced, spec_header, spec_range. cbn [flat_map map snd least].
    cbn [dict_get].
    assert (Hab : String.eqb b a = false).
    { apply String.eqb_neq. intros ->. simpl in Hnd. inversion Hnd as [|? ? Hx _]; subst.
      apply Hx. now left. }
    rewrite Hab, String.eqb_refl. simpl.
    now rewrite app_nil_r.
Qed.


(** C2. An attribute line met when no group is open is not a fatal
    error when a group exists: the index -1 selects the last record of the
    list, the attribute is stored in that closed group and the parse goes
    on without a message.  Only before the first group does the index
    raise [IndexError]. *)
Theorem C2_attribute_outside_group :
  libertyParser attribute_after_close =
    Ok ([[("fatherGroupNum", VInt (-1)); ("depth", VInt 0);
          ("type", VStr "library"); ("name", VStr "L"); ("foo", VStr "1")]],
        []) /\
  libertyParser attribute_before_group = Raise IndexError.
Proof. split; vm_compute; reflexivity. Qed.

(** C3. When the last cell of the file is requested, its range runs to
    the end of the file and takes the closing brace of the library with
    it; the added brace is then one too many, and the parse of the reduced
    file raises [IndexError], while the full file parses and
    [getLibPinInfo] returns the pins of both cells. *)
Theorem C3_last_cell_breaks_reduced_file :
  let w := one_file "in.lib" two_cells in
  snd (init w "in.lib" ["A"; "B"]) = Raise IndexError /\
  files (fst (init w "in.lib" ["A"; "B"])) !! "in.lib.A_B"
    = Some (two_cells +:+ "}" +:+ newline) /\
  snd (init w "in.lib" []) = Ok (parsed two_cells) /\
  getLibPinInfo (parsed two_cells) ["A"; "B"] [] [] [] =
    Ok [("cell",
         VDict [("A", VDict [("pin", VDict [("X", VDict [("timing",
                   VList [VDict [("related_pin", VStr "Y")]])])])]);
                ("B", VDict [("pin", VDict [("Y", VDict [("timing",
                   VList [VDict []])])])])])].
Proof. repeat split; vm_compute; reflexivity. Qed.

(** C4 fails both ways: a closing line too many raises [IndexError], and
    groups left open are accepted with no message. *)
Lemma C4_counterexample :
  libertyParser stray_close = Raise IndexError /\
  libertyParser never_closed =
    Ok ([[("fatherGroupNum", VInt (-1)); ("depth", VInt 0);
          ("type", VStr "library"); ("name", VStr "L")];
         [("fatherGroupNum", VInt 0); ("depth", VInt 2);
          ("type", VStr "cell"); ("name", VStr "A"); ("area", VStr "1")]],
        []).
Proof. split; vm_compute; reflexivity. Qed.

(** Two groups left open, then one and three closing lines. *)
Lemma C4_witness :
  let lines := readlines never_closed in
  let st := state_after never_closed in
  (exists st', run initial_pstate (lines ++ ["  }" +:+ newline]) = Ok st' /\
               groupList st' = groupList st /\ stderr st' = stderr st) /\
  run initial_pstate (lines ++ ["  }" +:+ newline; "}" +:+ newline; "}" +:+ newline]) = Raise IndexError.
Proof.
  intros lines st.
  assert (Hrun : run initial_pstate lines = Ok st) by (vm_compute; reflexivity).
  assert (Hn : normal st) by (split; vm_compute; reflexivity).
  split.
  - apply (C4_unbalanced_braces_not_detected lines (["  }" +:+ newline]) st Hrun Hn).
    + repeat (apply List.Forall_cons; [split; vm_compute; reflexivity|]). apply List.Forall_nil.
    + vm_compute. lia.
  - apply (C4_unbalanced_braces_not_detected lines
             (["  }" +:+ newline; "}" +:+ newline; "}" +:+ newline]) st Hrun Hn).
    + repeat (apply List.Forall_cons; [split; vm_compute; reflexivity|]). apply List.Forall_nil.
    + vm_compute. lia.
Defined.

(** Two of three requested cells are missing. *)
Lemma C5_witness :
  let w := one_file "in.lib" two_cells in
  exists w',
    genCellLibFile w "in.lib" ["C"; "A"; "D"] = (w', SysExit 1) /\
    init w "in.lib" ["C"; "A"; "D"] = (w', SysExit 1) /\
    files w' = files w /\
    In (ErrCellMissing "C" "in.lib") (errors w') /\
    In (ErrCellMissing "D" "in.lib") (errors w').
Proof.
  intros w.
  destruct (C5_missing_cells_fail_together w "in.lib" two_cells ["C"; "A"; "D"] "C")
    as (w' & H1 & H2 & H3 & H4).
  - vm_compute; reflexivity.
  - now left.
  - vm_compute. intros [H|[H|[]]]; discriminate.
  - exists w'. repeat split; try assumption.
    + apply H4; [now left|]. vm_compute. intros [H|[H|[]]]; discriminate.
    + apply H4; [right; right; now left|]. vm_compute. intros [H|[H|[]]]; discriminate.
Defined.

(** C6 fails when a cell name is declared twice: the range written for
    [A] is empty and the header runs to the second declaration of [A]. *)
Lemma C6_counterexample :
  let w := one_file "in.lib" cell_declared_twice in
  scan_cells cell_declared_twice = [("A", 6); ("B", 4)] /\
  snd (genCellLibFile w "in.lib" ["A"]) = Ok "in.lib.A" /\
  files (fst (genCellLibFile w "in.lib" ["A"])) !! "in.lib.A" =
    Some (text ["library (L) {"; "  cell (A) {"; "  }"; "  cell (B) {"; "  }"; "}"]) /\
  spec_reduced (readlines cell_declared_twice) (scan_cells cell_declared_twice) ["A"] =
    text ["library (L) {"; "  cell (A) {"; "  }"; "  cell (A) {"; "  }"; "}"; "}"] /\
  files (fst (genCellLibFile w "in.lib" ["A"])) !! "in.lib.A" <>
    Some (spec_reduced (readlines cell_declared_twice)
                       (scan_cells cell_declared_twice) ["A"]).
Proof.
  intros w. repeat split; try (vm_compute; reflexivity).
  vm_compute. discriminate.
Qed.

(** The file of 100 lines with cells at lines 10, 40 and 70. *)
Lemma C6_witness :
  let w := one_file "in.lib" hundred_lines in
  length (readlines hundred_lines) = 100 /\
  scan_cells hundred_lines = [("A", 10); ("B", 40); ("C", 70)] /\
  genCellLibFile w "in.lib" ["B"] =
    (mkWorld (<["in.lib.B" :=
                 text (["library (L) {"] ++ repeat "  time_unit : 1ns;" 8
                       ++ ["  cell (B) {"] ++ repeat "    area : 2;" 28 ++ ["  }"]
                       ++ ["}"])]> (files w)) [],
     Ok "in.lib.B").
Proof.
  intros w.
  split; [vm_compute; reflexivity|]. split; [vm_compute; reflexivity|].
  destruct (C6_requested_cell_ranges w "in.lib" hundred_lines ["B"]) as [H1 H2].
  - vm_compute; reflexivity.
  - vm_compute; reflexivity.
  - discriminate.
  - apply List.Forall_cons; [|apply List.Forall_nil]. vm_compute. right. now left.
  - rewrite H1. vm_compute. reflexivity.
Defined.


(** C8 fails for a comment that opens after an attribute on its line:
    the cell inside it is in the entity list and in the recorded cells. *)
Lemma C8_counterexample :
  snd (init (one_file "in.lib" comment_after_attribute) "in.lib" [])
    = Ok (parsed comment_after_attribute) /\
  getCellList (parsed comment_after_attribute) = Ok [VStr "FAKE"; VStr "REAL"] /\
  dict_keys (scan_cells comment_after_attribute) = ["FAKE"; "REAL"].
Proof. repeat split; vm_compute; reflexivity. Qed.

(** A comment block holding a cell declaration. *)
Lemma C8_witness :
  let st := state_after (text ["library (L) {"]) in
  let block := ["  /* disabled:" +:+ newline; "  cell (FAKE) {" +:+ newline;
                "  }" +:+ newline; "  */" +:+ newline] in
  run st block = Ok (advance 4 st) /\
  scan_from (false, []) 2 block = (false, []).
Proof.
  intros st block.
  apply (C8_recognised_comment_block_is_skipped st [] 2
           ("  /* disabled:" +:+ newline)
           ["  cell (FAKE) {" +:+ newline; "  }" +:+ newline]
           ("  */" +:+ newline)).
  - split; vm_compute; reflexivity.
  - vm_compute; reflexivity.
  - vm_compute; reflexivity.
  - vm_compute; reflexivity.
  - vm_compute; reflexivity.
  - repeat (apply List.Forall_cons; [split; vm_compute; reflexivity|]). apply List.Forall_nil.
  - vm_compute; reflexivity.
  - vm_compute; reflexivity.
Defined.

(* ================================================================== *)
(** * The line loop on every file *)

(** ** One iteration of the line loop *)

Lemma dispatch_inv st line st' :
  dispatch st line = Ok st' ->
  multiLinesString st' = multiLinesString st /\
  libFileLine st' = libFileLine st /\
  (stderr st' = stderr st \/
   exists d, stderr st' = stderr st ++ [d] /\ diag_line d = libFileLine st) /\
  change st st'.
Proof.
  unfold dispatch, change.
  destruct (classify line) eqn:Ec; intros H.
  - destruct (update_group _ _ _) as [gl| |] eqn:Eu; try discriminate.
    cbn [bind] in H. injection H as <-. cbn.
    repeat split; auto. left. exists (true, key, valueList). cbn. auto.
  - destruct (update_group _ _ _) as [gl| |] eqn:Eu; try discriminate.
    cbn [bind] in H. injection H as <-. cbn.
    repeat split; auto. left. exists (false, key, value). cbn. auto.
  - injection H as <-. cbn. repeat split; auto.
    right. left. exists (Z.of_nat groupDepth), groupType, groupName. auto.
  - destruct (openedGroupNumList st) as [|z l] eqn:Eo; [discriminate|].
    injection H as <-. cbn. repeat split; auto.
    right. right. left. repeat split; auto; discriminate.
  - injection H as <-. destruct ended; cbn; repeat split; auto;
      right; right; right; auto.
  - injection H as <-. repeat split; auto. right; right; right; auto.
  - cbn [with_stderr groupList lastOpenedGroupNum] in H.
    destruct (update_group _ _ _) as [gl| |] eqn:Eu; try discriminate.
    cbn [bind] in H. injection H as <-. cbn.
    repeat split; auto.
    + right. eexists. split; [reflexivity|]. reflexivity.
    + left. exists (true, key, valueList). cbn. auto.
  - cbn [with_stderr groupList lastOpenedGroupNum] in H.
    destruct (update_group _ _ _) as [gl| |] eqn:Eu; try discriminate.
    cbn [bind] in H. injection H as <-. cbn.
    repeat split; auto.
    + right. eexists. split; [reflexivity|]. reflexivity.
    + left. exists (false, key, value). cbn. auto.
  - injection H as <-. cbn. repeat split; auto.
    + right. eexists. split; [reflexivity|]. reflexivity.
    + right; right; right; auto.
Qed.

Lemma step_inv st line st' :
  step st line = Ok st' ->
  libFileLine st' = S (libFileLine st) /\
  (stderr st' = stderr st \/
   exists d, stderr st' = stderr st ++ [d] /\ diag_line d = S (libFileLine st)) /\
  change st st'.
Proof.
  destruct st as [ms cm gl gn og lo ln se].
  unfold step. cbn [advance commentMark multiLinesString groupList groupListNum
                    openedGroupNumList lastOpenedGroupNum libFileLine stderr].
  assert (Hsame : forall ms' cm',
            change (mkP ms cm gl gn og lo ln se) (mkP ms' cm' gl gn og lo (1 + ln) se)).
  { intros. right; right; right. cbn. auto. }
  assert (Hdisp : forall l,
    (let* st'0 := dispatch (mkP ms cm gl gn og lo (1 + ln) se) l in
     Ok (end_of_body st'0)) = Ok st' ->
    libFileLine st' = S ln /\
    (stderr st' = se \/ exists d, stderr st' = se ++ [d] /\ diag_line d = S ln) /\
    change (mkP ms cm gl gn og lo ln se) st').
  { intros l H.
    destruct (dispatch _ l) as [st1| |] eqn:Ed; try discriminate.
    cbn [bind] in H. injection H as <-.
    apply dispatch_inv in Ed. destruct Ed as (_ & Hl & Hs & Hc).
    cbn in Hl, Hs. split; [exact Hl|]. split; [exact Hs|].
    unfold change in *. cbn in *. exact Hc. }
  destruct cm.
  - intros H. injection H as <-.
    destruct (matches _comment_end_re line); cbn; repeat split; auto;
      right; right; right; auto.
  - destruct (re_match _multilines_re line) as [m|].
    + intros H. injection H as <-. cbn. repeat split; auto.
      right; right; right; auto.
    + destruct (nonempty ms).
      * destruct (re_match _multilines_done_re line) as [m|].
        -- apply Hdisp.
        -- intros H. injection H as <-. cbn. repeat split; auto.
           ++ right. eexists. split; reflexivity.
           ++ right; right; right; auto.
      * apply Hdisp.
Qed.

(** ** Line numbers of the messages *)

Lemma run_line_numbers lines : forall st st',
  run st lines = Ok st' ->
  libFileLine st' = libFileLine st + length lines /\
  exists printed,
    stderr st' = stderr st ++ printed /\
    StronglySorted lt (map diag_line printed) /\
    Forall (fun d => libFileLine st < diag_line d <= libFileLine st + length lines)
           printed.
Proof.
  induction lines as [|line rest IH]; intros st st' H.
  - injection H as <-. split; [simpl; lia|].
    exists []. rewrite app_nil_r. repeat split; constructor.
  - simpl in H. destruct (step st line) as [st1| |] eqn:Es; try discriminate.
    cbn [bind] in H.
    apply step_inv in Es. destruct Es as (Hl & Hs & _).
    apply IH in H. destruct H as (Hl' & printed & Hp & Hsorted & Hall).
    split; [simpl; lia|].
    assert (Hall' : Forall (fun d => libFileLine st < diag_line d
                                       <= libFileLine st + length (line :: rest))
                           printed).
    { eapply List.Forall_impl; [|exact Hall]. simpl. intros d Hd. lia. }
    destruct Hs as [Hs | (d & Hs & Hd)].
    + exists printed. rewrite Hp, Hs. auto.
    + exists (d :: printed). rewrite Hp, Hs, <- app_assoc. split; [reflexivity|].
      split.
      * simpl. constructor; [exact Hsorted|].
        rewrite List.Forall_map. eapply List.Forall_impl; [|exact Hall].
        simpl. intros x Hx. lia.
      * constructor; [simpl; lia | exact Hall'].
Qed.

(** X1.  After the line loop has read [lines], the line counter has
    advanced by their number, and what it printed in the meantime is a
    list of messages whose line numbers are strictly increasing and are
    numbers of lines just read: every message names the physical line on
    which it was printed, and no line prints two messages. *)
Theorem X1_messages_name_physical_lines (st st' : pstate) (lines : list string) :
  run st lines = Ok st' ->
  libFileLine st' = libFileLine st + length lines /\
  exists printed,
    stderr st' = stderr st ++ printed /\
    StronglySorted lt (map diag_line printed) /\
    Forall (fun d => libFileLine st < diag_line d <= libFileLine st + length lines)
           printed.
Proof. apply run_line_numbers. Qed.

Lemma X1_witness :
  let lines := ["library (L) {" +:+ newline; "  what is this" +:+ newline;
                "  area : 1" +:+ newline; "}" +:+ newline] in
  let st' := state_after (concat_str lines) in
  libFileLine st' = 4 /\
  exists printed,
    stderr st' = [] ++ printed /\
    StronglySorted lt (map diag_line printed) /\
    Forall (fun d => 0 < diag_line d <= 4) printed.
Proof.
  intros lines st'.
  apply (X1_messages_name_physical_lines initial_pstate st' lines).
  vm_compute; reflexivity.
Defined.

(** ** Records and attributes are only ever added *)

Lemma apply_attr_keys d a :
  exists more, dict_keys (apply_attr d a) = dict_keys d ++ more.
Proof.
  destruct a as [[c key] v]. cbn [apply_attr].
  assert (H : forall x, exists more,
             dict_keys (dict_set key x d) = dict_keys d ++ more).
  { intros x. rewrite dict_keys_set. destruct (dict_has key d).
    - exists []. now rewrite app_nil_r.
    - now exists [key]. }
  destruct c.
  - unfold add_complex. destruct (dict_get key d) as [[]|]; apply H.
  - apply H.
Qed.

Lemma change_keeps st st' :
  change st st' ->
  length (groupList st) <= length (groupList st') /\
  forall i d, nth_error (groupList st) i = Some d ->
    exists d' more, nth_error (groupList st') i = Some d' /\
                    dict_keys d' = dict_keys d ++ more.
Proof.
  assert (Hsame : forall gl gl' : list pydict, gl' = gl ->
            length gl <= length gl' /\
            forall i d, nth_error gl i = Some d ->
              exists d' more, nth_error gl' i = Some d' /\
                              dict_keys d' = dict_keys d ++ more).
  { intros gl gl' ->. split; [lia|]. intros i d Hi. exists d, [].
    now rewrite app_nil_r. }
  intros [(a & Hu & _) | [(depth & t & n & Hg & _) | [(_ & Hg & _) | (Hg & _)]]];
    try (now apply Hsame).
  - unfold update_group in Hu.
    destruct (py_norm _ _) as [k|]; [|discriminate].
    destruct (nth_error (groupList st) k) as [d0|] eqn:Ed; [|discriminate].
    injection Hu as Hu.
    assert (Hk : k < length (groupList st)) by (apply nth_error_Some; congruence).
    change (store_set (groupList st) k (apply_attr d0 a) = groupList st') in Hu.
    rewrite <- Hu. split; [rewrite store_set_length; auto|].
    intros i d Hi. destruct (Nat.eq_dec k i) as [<-|Hne].
    + rewrite (store_set_eq _ _ _ _ Ed).
      assert (d = d0) by congruence. subst d0.
      destruct (apply_attr_keys d a) as [more Hm]. eauto.
    + rewrite store_set_ne by assumption. exists d, []. now rewrite app_nil_r.
  - rewrite Hg. split; [rewrite length_app; lia|].
    intros i d Hi. exists d, []. rewrite app_nil_r. split; [|reflexivity].
    rewrite nth_error_app1; [exact Hi|]. apply nth_error_Some. congruence.
Qed.

Lemma run_keeps lines : forall st st',
  run st lines = Ok st' ->
  length (groupList st) <= length (groupList st') /\
  forall i d, nth_error (groupList st) i = Some d ->
    exists d' more, nth_error (groupList st') i = Some d' /\
                    dict_keys d' = dict_keys d ++ more.
Proof.
  induction lines as [|line rest IH]; intros st st' H.
  - injection H as <-. split; [lia|]. intros i d Hi. exists d, [].
    now rewrite app_nil_r.
  - simpl in H. destruct (step st line) as [st1| |] eqn:Es; try discriminate.
    cbn [bind] in H. apply step_inv in Es. destruct Es as (_ & _ & Hc).
    apply change_keeps in Hc. destruct Hc as [Hlen Hk].
    apply IH in H. destruct H as [Hlen' Hk'].
    split; [lia|]. intros i d Hi.
    destruct (Hk i d Hi) as (d1 & more1 & H1 & E1).
    destruct (Hk' i d1 H1) as (d2 & more2 & H2 & E2).
    exists d2, (more1 ++ more2). split; [exact H2|].
    now rewrite E2, E1, <- app_assoc.
Qed.

(** X2.  The line loop only ever adds: whatever lines it reads, a group
    record stays at its index in [groupList], and the keys it had stay
    where they were, in the order in which they were first stored; new
    keys go after them. *)
Theorem X2_records_and_keys_are_only_added (st st' : pstate) (lines : list string) :
  run st lines = Ok st' ->
  length (groupList st) <= length (groupList st') /\
  forall i d, nth_error (groupList st) i = Some d ->
    exists d' more, nth_error (groupList st') i = Some d' /\
                    dict_keys d' = dict_keys d ++ more.
Proof. apply run_keeps. Qed.

Lemma X2_witness :
  let st := state_after (text ["library (L) {"; "  a : 1;"]) in
  let lines := ["  b : 2;" +:+ newline; "  a : 3;" +:+ newline;
                "  cell (C) {" +:+ newline] in
  let st' := state_after (text ["library (L) {"; "  a : 1;"; "  b : 2;";
                                "  a : 3;"; "  cell (C) {"]) in
  length (groupList st) <= length (groupList st') /\
  forall i d, nth_error (groupList st) i = Some d ->
    exists d' more, nth_error (groupList st') i = Some d' /\
                    dict_keys d' = dict_keys d ++ more.
Proof.
  intros st lines st'.
  apply (X2_records_and_keys_are_only_added st st' lines).
  vm_compute; reflexivity.
Defined.

(** ** The stack of open groups *)

Lemma getLast_snoc (l : list Z) (z : Z) : getLastOpenedGroupNum (l ++ [z]) = z.
Proof.
  unfold getLastOpenedGroupNum. rewrite last_last.
  now destruct l.
Qed.

Lemma sorted_snoc_Z (l : list Z) (x : Z) :
  StronglySorted Z.lt l -> Forall (fun y => (y < x)%Z) l ->
  StronglySorted Z.lt (l ++ [x]).
Proof.
  induction l as [|a l IH]; intros Hs Hall.
  - repeat constructor.
  - apply StronglySorted_inv in Hs. destruct Hs as [Hs Ha].
    apply List.Forall_cons_iff in Hall. destruct Hall as [Hax Hall].
    simpl. constructor; [now apply IH|].
    apply List.Forall_app. split; [exact Ha|]. now constructor.
Qed.

Lemma sorted_removelast (l : list Z) :
  StronglySorted Z.lt l -> StronglySorted Z.lt (removelast l).
Proof.
  induction l as [|a l IH]; intros Hs; [constructor|].
  apply StronglySorted_inv in Hs. destruct Hs as [Hs Ha].
  destruct l as [|b l]; [constructor|].
  change (removelast (a :: b :: l)) with (a :: removelast (b :: l)).
  constructor; [now apply IH|].
  rewrite List.Forall_forall in *. intros x Hx. apply Ha.
  now apply In_removelast.
Qed.

Lemma change_stack_ok st st' : stack_ok st -> change st st' -> stack_ok st'.
Proof.
  intros (Hnum & Hsorted & Hrange & Hlast).
  intros [(a & Hu & E1 & E2 & E3) | [(depth & t & n & Hg & E1 & E2 & E3) |
           [(Hne & Hg & E1 & E2 & E3) | (Hg & E1 & E2 & E3)]]]; unfold stack_ok.
  - assert (Hlen : length (groupList st') = length (groupList st)).
    { unfold update_group in Hu.
      destruct (py_norm _ _) as [k|]; [|discriminate].
      destruct (nth_error (groupList st) k) as [d0|] eqn:Ed; [|discriminate].
      injection Hu as Hu. rewrite <- Hu.
      apply (store_set_length (groupList st) k).
      apply nth_error_Some. congruence. }
    rewrite E1, E2, E3, Hlen. auto.
  - rewrite E3, E2, E1, Hg, length_app. cbn [length].
    split; [lia|]. split; [|split; [|reflexivity]].
    + apply sorted_snoc_Z; [exact Hsorted|].
      eapply List.Forall_impl; [|exact Hrange]. simpl. intros z Hz. lia.
    + apply List.Forall_app. split.
      * eapply List.Forall_impl; [|exact Hrange]. simpl. intros z Hz. lia.
      * constructor; [lia|constructor].
  - rewrite E3, E2, E1, Hg. split; [exact Hnum|].
    split; [now apply sorted_removelast|]. split; [|reflexivity].
    rewrite List.Forall_forall in *. intros z Hz. apply Hrange.
    now apply In_removelast.
  - rewrite E3, E2, E1, Hg. auto.
Qed.

Lemma run_stack_ok lines : forall st st',
  stack_ok st -> run st lines = Ok st' -> stack_ok st'.
Proof.
  induction lines as [|line rest IH]; intros st st' Hok H.
  - now injection H as <-.
  - simpl in H. destruct (step st line) as [st1| |] eqn:Es; try discriminate.
    cbn [bind] in H. apply step_inv in Es. destruct Es as (_ & _ & Hc).
    eapply IH; [|exact H]. eapply change_stack_ok; eauto.
Qed.

(** X3.  Whatever the file holds, when the line loop gets through it the
    stack of open groups holds indices of existing records in strictly
    increasing order, [groupListNum] is the number of records, and
    [lastOpenedGroupNum] is the top of the stack, or -1 when no group is
    open: an attribute is stored in the innermost group still open. *)
Theorem X3_open_group_stack_invariant (lines : list string) (st : pstate) :
  run initial_pstate lines = Ok st ->
  groupListNum st = Z.of_nat (length (groupList st)) /\
  StronglySorted Z.lt (openedGroupNumList st) /\
  Forall (fun z => (0 <= z < Z.of_nat (length (groupList st)))%Z)
         (openedGroupNumList st) /\
  lastOpenedGroupNum st = getLastOpenedGroupNum (openedGroupNumList st).
Proof.
  intros H. apply (run_stack_ok lines initial_pstate st); [|exact H].
  repeat split; constructor.
Qed.

Lemma X3_witness :
  let st := state_after four_cells in
  groupListNum st = Z.of_nat (length (groupList st)) /\
  StronglySorted Z.lt (openedGroupNumList st) /\
  Forall (fun z => (0 <= z < Z.of_nat (length (groupList st)))%Z)
         (openedGroupNumList st) /\
  lastOpenedGroupNum st = getLastOpenedGroupNum (openedGroupNumList st).
Proof.
  intros st.
  apply (X3_open_group_stack_invariant (readlines four_cells) st).
  vm_compute; reflexivity.
Defined.

(** ** Continuation lines *)

Lemma append_assoc (a b c : string) : (a +:+ b) +:+ c = a +:+ (b +:+ c).
Proof.
  rewrite <- (str_chars ((a +:+ b) +:+ c)), <- (str_chars (a +:+ (b +:+ c))).
  now rewrite !chars_app, app_assoc.
Qed.

Lemma append_nil_r (a : string) : a +:+ "" = a.
Proof.
  rewrite <- (str_chars (a +:+ "")), chars_app. cbn [chars list_ascii_of_string].
  rewrite app_nil_r. apply str_chars.
Qed.

Lemma dispatch_with_multi st m line :
  dispatch (with_multi st m) line =
    (let* st' := dispatch st line in Ok (with_multi st' m)).
Proof.
  destruct st as [ms cm gl gn og lo ln se].
  unfold dispatch.
  cbn [with_multi with_stderr with_groups with_comment multiLinesString commentMark
       groupList groupListNum openedGroupNumList lastOpenedGroupNum libFileLine stderr].
  destruct (classify line); cbn [bind];
    try (destruct (update_group _ _ _); reflexivity); try reflexivity.
  - now destruct og.
  - now destruct ended.
Qed.

Lemma run_continuations conts : forall st,
  commentMark st = false ->
  Forall (fun l => re_match _multilines_re l <> None) conts ->
  run st conts =
    Ok (with_multi (advance (length conts) st)
          (multiLinesString st +:+ concat_str (map cont_part conts))).
Proof.
  induction conts as [|line rest IH]; intros st Hc Hall.
  - destruct st as [ms cm gl gn og lo ln se].
    unfold with_multi, advance.
    cbn [run map concat_str fold_right length multiLinesString commentMark groupList
         groupListNum openedGroupNumList lastOpenedGroupNum libFileLine stderr plus].
    now rewrite append_nil_r.
  - apply List.Forall_cons_iff in Hall. destruct Hall as [Hl Hall].
    cbn [run map concat_str fold_right length].
    unfold step. cbn [advance commentMark]. rewrite Hc.
    unfold cont_part at 1.
    destruct (re_match _multilines_re line) as [m|]; [|congruence].
    cbn [bind]. rewrite IH; [|destruct st; exact Hc|exact Hall].
    destruct st as [ms cm gl gn og lo ln se].
    unfold with_multi, advance.
    cbn [multiLinesString commentMark groupList groupListNum openedGroupNumList
         lastOpenedGroupNum libFileLine stderr].
    rewrite append_assoc. do 2 f_equal. lia.
Qed.

(** A line taken by [_group_done_re] is a closing brace between blanks. *)
Lemma group_done_shape line :
  matches _group_done_re line = true ->
  exists sp1 sp2 e, chars line = sp1 ++ "}"%char :: sp2 ++ e /\
                    forallb is_space sp2 = true /\ (e = [] \/ e = [nl]).
Proof.
  unfold matches. destruct (re_match _group_done_re line) as [m|] eqn:E; [|discriminate].
  intros _. apply re_match_sound in E. destruct E as [s' H].
  cbn [_group_done_re seqs den] in H.
  destruct H as (m1 & [Hb _] & m2 & Hsp1 & m3 & [Hc _] & m4 & Hsp2 & [He He']).
  subst m1 m4.
  apply (star_spc_shape (chars line)) in Hsp1.
  apply (star_spc_shape (chars line)) in Hsp2.
  destruct Hsp1 as (sp1 & H1 & _). destruct Hsp2 as (sp2 & H2 & Hall).
  cbn [fst] in *. exists sp1, sp2, s'. split; [|split; assumption].
  now rewrite H1, Hc, H2.
Qed.

Lemma joined_line_not_group_done multi line m :
  re_match _multilines_done_re line = Some m ->
  matches _group_done_re (multi +:+ group 1 m) = false.
Proof.
  intros H. apply multilines_done_group1 in H. destruct H as [p Hp].
  destruct (matches _group_done_re (multi +:+ group 1 m)) eqn:E; [|reflexivity].
  exfalso. apply group_done_shape in E. destruct E as (q & sp & e & Heq & Hsp & He).
  rewrite Hp, chars_app, chars_str in Heq.
  apply (f_equal (@rev ascii)) in Heq.
  rewrite !rev_app_distr in Heq. simpl in Heq.
  rewrite !rev_app_distr in Heq.
  destruct He as [-> | ->]; simpl in Heq.
  - destruct (rev sp) as [|c l] eqn:Er; simpl in Heq.
    + discriminate.
    + injection Heq as Hc _.
      assert (Hin : In c sp) by (apply in_rev; rewrite Er; now left).
      rewrite forallb_forall in Hsp. apply Hsp in Hin.
      subst c. discriminate.
  - discriminate.
Qed.

Lemma run_joined (st : pstate) (conts : list string) (last : string) :
  normal st ->
  Forall (fun l => re_match _multilines_re l <> None) conts ->
  plain last ->
  re_match _multilines_done_re last <> None ->
  nonempty (concat_str (map cont_part conts)) = true ->
  run st (conts ++ [last]) =
    (let* st' := dispatch (advance (S (length conts)) st)
                   (concat_str (map cont_part conts) +:+ done_part last) in
     Ok (end_of_body st')).
Proof.
  intros [Hc Hm] Hall Hp Hd Hne.
  rewrite run_app, (run_continuations conts st Hc Hall). cbn [bind run].
  rewrite Hm. change ("" +:+ ?x) with x.
  set (J := concat_str (map cont_part conts)) in *.
  unfold step. unfold plain in Hp. unfold done_part.
  destruct st as [ms cm gl gn og lo ln se]. cbn in Hc, Hm. subst cm ms.
  unfold advance, with_multi.
  cbn [commentMark multiLinesString groupList groupListNum
       openedGroupNumList lastOpenedGroupNum libFileLine stderr].
  rewrite Hp, Hne.
  destruct (re_match _multilines_done_re last) as [m|]; [|congruence].
  change (mkP J false gl gn og lo (1 + (length conts + ln)) se)
    with (with_multi (mkP "" false gl gn og lo (S (length conts) + ln) se) J).
  rewrite dispatch_with_multi.
  destruct (dispatch _ _) as [st'| |]; reflexivity.
Qed.

(** X4.  A statement continued over several lines is parsed as one line:
    when every line of [conts] ends with a backslash (as
    [_multilines_re] sees it) and [last] is a line that does not but ends
    with a semicolon, the loop takes the [if/elif] chain once, at the
    line number of [last], on the text before each backslash followed by
    [last] up to its final semicolon.  That joined line never opens and
    never closes a group. *)
Theorem X4_continued_statement_is_one_line
        (st : pstate) (conts : list string) (last : string) :
  normal st ->
  Forall (fun l => re_match _multilines_re l <> None) conts ->
  plain last ->
  re_match _multilines_done_re last <> None ->
  nonempty (concat_str (map cont_part conts)) = true ->
  run st (conts ++ [last]) =
    (let* st' := dispatch (advance (S (length conts)) st)
                   (concat_str (map cont_part conts) +:+ done_part last) in
     Ok (end_of_body st')) /\
  re_match _group_re (concat_str (map cont_part conts) +:+ done_part last) = None /\
  matches _group_done_re (concat_str (map cont_part conts) +:+ done_part last) = false.
Proof.
  intros Hn Hall Hp Hd Hne. split; [now apply run_joined|].
  unfold done_part.
  destruct (re_match _multilines_done_re last) as [m|] eqn:E; [|congruence].
  split.
  - now apply (joined_line_not_group _ last).
  - now apply (joined_line_not_group_done _ last).
Qed.

Lemma X4_witness :
  let st := state_after (text ["library (L) {"]) in
  let conts := ["  values ( \" +:+ newline; "    1, 2, \" +:+ newline] in
  let last := "    3, 4);  " +:+ newline in
  run st (conts ++ [last]) =
    (let* st' := dispatch (advance 3 st) "  values (     1, 2,     3, 4);" in
     Ok (end_of_body st')) /\
  re_match _group_re "  values (     1, 2,     3, 4);" = None /\
  matches _group_done_re "  values (     1, 2,     3, 4);" = false.
Proof.
  intros st conts last.
  assert (E : concat_str (map cont_part conts) +:+ done_part last
              = "  values (     1, 2,     3, 4);") by (vm_compute; reflexivity).
  rewrite <- E.
  apply (X4_continued_statement_is_one_line st conts last).
  - split; vm_compute; reflexivity.
  - repeat (apply List.Forall_cons; [vm_compute; discriminate|]). apply List.Forall_nil.
  - vm_compute; reflexivity.
  - vm_compute; discriminate.
  - vm_compute; reflexivity.
Defined.

(** ** What a group declaration stores *)

Lemma star_nonspc_shape whole a b :
  rtc (den NonSpc whole) a b ->
  exists ns, fst a = ns ++ fst b /\ forallb (fun c => negb (is_space c)) ns = true.
Proof.
  induction 1 as [x|x y z Hxy _ IH].
  - now exists [].
  - destruct Hxy as (c & H1 & H2 & _). destruct IH as (ns & H3 & H4).
    exists (c :: ns). rewrite H1, H3. simpl. now rewrite H2, H4.
Qed.

Lemma star_dot_shape whole a b :
  rtc (den Dot whole) a b ->
  exists p, fst a = p ++ fst b /\ forallb (fun c => negb (Ascii.eqb c nl)) p = true.
Proof.
  induction 1 as [x|x y z Hxy _ IH].
  - now exists [].
  - destruct Hxy as (c & H1 & H2 & _). destruct IH as (p & H3 & H4).
    exists (c :: p). rewrite H1, H3. simpl. rewrite H4.
    apply Ascii.eqb_neq in H2. now rewrite H2.
Qed.

Lemma firstn_consumed {A} (p s : list A) :
  firstn (length (p ++ s) - length s) (p ++ s) = p.
Proof.
  rewrite length_app, Nat.add_sub, firstn_app, firstn_all, Nat.sub_diag.
  simpl. apply app_nil_r.
Qed.

Lemma length_str l : String.length (str l) = length l.
Proof. induction l; simpl; [reflexivity | now f_equal]. Qed.

Lemma leading_blanks_app sp c rest :
  forallb is_space sp = true -> is_space c = false ->
  leading_blanks (sp ++ c :: rest) = length sp.
Proof.
  induction sp as [|a sp IH]; simpl; intros Hs Hc.
  - now rewrite Hc.
  - apply andb_true_iff in Hs. destruct Hs as [Ha Hs]. rewrite Ha.
    f_equal. now apply IH.
Qed.

(** What a match of [_group_re] captures. *)
Lemma group_re_captures line m :
  re_match _group_re line = Some m ->
  exists sp c ns rest name,
    chars line = sp ++ c :: ns ++ rest /\
    forallb is_space sp = true /\ is_space c = false /\
    forallb (fun c => negb (is_space c)) ns = true /\
    forallb (fun c => negb (Ascii.eqb c nl)) name = true /\
    group 1 m = str sp /\ group 2 m = str (c :: ns) /\ group 3 m = str name.
Proof.
  intros H. apply re_match_sound in H. destruct H as [s' H].
  cbn [_group_re seqs] in H.
  destruct H as (m1 & [Hb _] & m2 & Hg1 & m3 & Hg2 & m4 & Hsp & m5 & Hpar & m6 & Hg3 & Hrest).
  subst m1.
  destruct Hg1 as (g1 & Hs1 & Hc1).
  assert (Hgl1 := den_groupless (Star Spc) (chars line) _ _ eq_refl Hs1).
  apply (star_spc_shape (chars line)) in Hs1. destruct Hs1 as (sp & Esp & Hspc).
  destruct Hg2 as (g2 & (x & (c & Ec & Hcns & Hcg) & Hns) & Hc2).
  assert (Hgl2 := den_groupless (Star NonSpc) (chars line) _ _ eq_refl Hns).
  apply (star_nonspc_shape (chars line)) in Hns. destruct Hns as (ns & Ens & Hnsp).
  assert (Hgl3 := den_groupless (Star Spc) (chars line) _ _ eq_refl Hsp).
  destruct Hpar as [_ Hgl4].
  destruct Hg3 as (g3 & Hdot & Hc3).
  assert (Hgl5 := den_groupless (LazyStar Dot) (chars line) _ _ eq_refl Hdot).
  apply (star_dot_shape (chars line)) in Hdot. destruct Hdot as (name & Ename & Hname).
  apply (den_groupless
           (seqs [Chr ")"; Star Spc; Chr "{"; Star Spc; Eol]) (chars line)) in Hrest;
    [|reflexivity].
  cbn [fst snd] in *.
  exists sp, c, ns, (fst m3), name.
  rewrite Esp, Ec, Ens. split; [reflexivity|].
  repeat (split; [assumption|]).
  rewrite Hrest, Hc3, Hgl5, Hgl4, Hgl3, Hc2, Hgl2, Hcg, Hc1, Hgl1.
  cbn [group Nat.eqb].
  split; [|split].
  - now rewrite Esp, firstn_consumed.
  - replace (fst m2) with ((c :: ns) ++ fst m3) by (now rewrite Ec, Ens).
    now rewrite firstn_consumed.
  - now rewrite Ename, firstn_consumed.
Qed.

Lemma classify_group line d t n :
  classify line = KGroup d t n ->
  exists m, re_match _group_re line = Some m /\
            d = String.length (group 1 m) /\ t = group 2 m /\ n = group 3 m.
Proof.
  unfold classify.
  destruct (re_match _complex_attr_re line); [discriminate|].
  destruct (re_match _simple_attr_re line); [discriminate|].
  destruct (re_match _group_re line) as [m|].
  - intros H. injection H as <- <- <-. now exists m.
  - destruct (matches _group_done_re line); [discriminate|].
    destruct (matches _comment_start_re line); [discriminate|].
    destruct (matches _empty_line_re line); [discriminate|].
    destruct (re_match _special_complex_attr_re line); [discriminate|].
    destruct (re_match _special_simple_attr_re line); discriminate.
Qed.

(** X5.  When a line opens a group, the [depth] stored in the record is
    the number of blanks the line starts with (a tab counts for one), the
    [type] is the word that follows them and holds no blank, and the
    [name] holds no line end. *)
Theorem X5_depth_is_the_indentation (line : string) (d : nat) (t n : string) :
  classify line = KGroup d t n ->
  d = leading_blanks (chars line) /\
  (exists rest, chars line = firstn d (chars line) ++ chars t ++ rest) /\
  t <> "" /\
  forallb (fun c => negb (is_space c)) (chars t) = true /\
  forallb (fun c => negb (Ascii.eqb c nl)) (chars n) = true.
Proof.
  intros H. apply classify_group in H. destruct H as (m & Hm & -> & -> & ->).
  apply group_re_captures in Hm.
  destruct Hm as (sp & c & ns & rest & name & El & Hsp & Hc & Hns & Hname & E1 & E2 & E3).
  rewrite E1, E2, E3, length_str, !chars_str, El.
  split; [now rewrite leading_blanks_app|].
  split; [|split; [discriminate|split]].
  - exists rest. rewrite firstn_app, firstn_all, Nat.sub_diag. simpl.
    now rewrite app_nil_r.
  - simpl. now rewrite Hc, Hns.
  - exact Hname.
Qed.

Lemma X5_witness :
  let line := String "009" "  cell ( a b ) {" +:+ newline in
  3 = leading_blanks (chars line) /\
  (exists rest, chars line = firstn 3 (chars line) ++ chars "cell" ++ rest) /\
  "cell" <> "" /\
  forallb (fun c => negb (is_space c)) (chars "cell") = true /\
  forallb (fun c => negb (Ascii.eqb c nl)) (chars " a b ") = true.
Proof.
  intros line.
  apply (X5_depth_is_the_indentation line 3 "cell" " a b ").
  vm_compute; reflexivity.
Defined.

(** ** The statements of a file and the groups they belong to *)

Lemma dispatch_effect st s st' :
  dispatch st s = Ok st' ->
  multiLinesString st' = multiLinesString st /\
  commentMark st' = (commentMark st || opens_comment s) /\
  effect (classify s) st st'.
Proof.
  unfold dispatch, opens_comment, effect.
  destruct (classify s) eqn:Ec; intros H; cbn [attr_of].
  - destruct (update_group _ _ _) as [gl| |] eqn:Eu; try discriminate.
    cbn [bind] in H. injection H as <-. cbn. rewrite orb_false_r. auto 10.
  - destruct (update_group _ _ _) as [gl| |] eqn:Eu; try discriminate.
    cbn [bind] in H. injection H as <-. cbn. rewrite orb_false_r. auto 10.
  - injection H as <-. cbn. rewrite orb_false_r. auto 10.
  - destruct (openedGroupNumList st) as [|z l] eqn:Eo; [discriminate|].
    injection H as <-. cbn. rewrite orb_false_r. repeat split; auto; discriminate.
  - injection H as <-. destruct ended; cbn.
    + rewrite orb_false_r. auto 10.
    + rewrite orb_true_r. auto 10.
  - injection H as <-. rewrite orb_false_r. auto 10.
  - cbn [with_stderr groupList lastOpenedGroupNum] in H.
    destruct (update_group _ _ _) as [gl| |] eqn:Eu; try discriminate.
    cbn [bind] in H. injection H as <-. cbn. rewrite orb_false_r. auto 10.
  - cbn [with_stderr groupList lastOpenedGroupNum] in H.
    destruct (update_group _ _ _) as [gl| |] eqn:Eu; try discriminate.
    cbn [bind] in H. injection H as <-. cbn. rewrite orb_false_r. auto 10.
  - injection H as <-. cbn. rewrite orb_false_r. auto 10.
Qed.

(** One iteration either leaves the groups alone and gives no statement,
    or runs the chain on one statement. *)
Lemma step_statements st line st' rest :
  step st line = Ok st' ->
  (statements (commentMark st) (multiLinesString st) (line :: rest) =
     statements (commentMark st') (multiLinesString st') rest /\
   groupList st' = groupList st /\
   groupListNum st' = groupListNum st /\
   openedGroupNumList st' = openedGroupNumList st /\
   lastOpenedGroupNum st' = lastOpenedGroupNum st) \/
  (exists s,
     statements (commentMark st) (multiLinesString st) (line :: rest) =
       s :: statements (commentMark st') (multiLinesString st') rest /\
     effect (classify s) st st').
Proof.
  destruct st as [ms cm gl gn og lo ln se].
  unfold step. cbn [advance commentMark multiLinesString groupList groupListNum
                    openedGroupNumList lastOpenedGroupNum libFileLine stderr
                    statements].
  assert (Hdisp : forall s,
    (let* st'0 := dispatch (mkP ms false gl gn og lo (1 + ln) se) s in
     Ok (end_of_body st'0)) = Ok st' ->
    multiLinesString st' = "" /\ commentMark st' = opens_comment s /\
    effect (classify s) (mkP ms false gl gn og lo ln se) st').
  { intros s H.
    destruct (dispatch _ s) as [st1| |] eqn:Ed; try discriminate.
    cbn [bind] in H. injection H as <-.
    apply dispatch_effect in Ed. destruct Ed as (_ & Hc & He).
    cbn in Hc. split; [reflexivity|]. split; [exact Hc|].
    unfold effect in *. destruct (classify s); cbn in *; exact He. }
  destruct cm.
  - intros H. injection H as <-. left.
    destruct (matches _comment_end_re line); cbn; auto.
  - destruct (re_match _multilines_re line) as [m|].
    + intros H. injection H as <-. left. cbn. auto.
    + destruct (nonempty ms) eqn:En.
      * destruct (re_match _multilines_done_re line) as [m|].
        -- intros H. apply Hdisp in H. destruct H as (Hm & Hc & He).
           right. exists (ms +:+ group 1 m). rewrite Hm, Hc. auto.
        -- intros H. injection H as <-. left. cbn. auto.
      * intros H. apply Hdisp in H. destruct H as (Hm & Hc & He).
        right. exists line. rewrite Hm, Hc. auto.
Qed.











(** ** The value kept under a key *)






(** ** What the loop prints *)

Lemma dispatch_prints_ok st s st' :
  dispatch st s = Ok st' -> stderr st' = stderr st ++ dispatch_prints st s.
Proof.
  unfold dispatch, dispatch_prints. destruct (classify s); intros H.
  - destruct (update_group _ _ _); try discriminate. cbn [bind] in H.
    injection H as <-. cbn. now rewrite app_nil_r.
  - destruct (update_group _ _ _); try discriminate. cbn [bind] in H.
    injection H as <-. cbn. now rewrite app_nil_r.
  - injection H as <-. cbn. now rewrite app_nil_r.
  - destruct (openedGroupNumList st); [discriminate|].
    injection H as <-. cbn. now rewrite app_nil_r.
  - injection H as <-. destruct ended; cbn; now rewrite app_nil_r.
  - injection H as <-. now rewrite app_nil_r.
  - cbn [with_stderr groupList lastOpenedGroupNum] in H.
    destruct (update_group _ _ _); try discriminate. cbn [bind] in H.
    now injection H as <-.
  - cbn [with_stderr groupList lastOpenedGroupNum] in H.
    destruct (update_group _ _ _); try discriminate. cbn [bind] in H.
    now injection H as <-.
  - now injection H as <-.
Qed.

Lemma step_prints_ok st line st' :
  step st line = Ok st' -> stderr st' = stderr st ++ step_prints st line.
Proof.
  unfold step, step_prints.
  assert (Hd : forall s,
    (let* st'0 := dispatch (advance 1 st) s in Ok (end_of_body st'0)) = Ok st' ->
    stderr st' = stderr st ++ dispatch_prints (advance 1 st) s).
  { intros s H. destruct (dispatch _ s) as [st1| |] eqn:Ed; try discriminate.
    cbn [bind] in H. injection H as <-. now apply dispatch_prints_ok in Ed. }
  destruct (commentMark (advance 1 st)).
  - intros H. injection H as <-.
    destruct (matches _comment_end_re line); cbn; now rewrite app_nil_r.
  - destruct (re_match _multilines_re line).
    + intros H. injection H as <-. cbn. now rewrite app_nil_r.
    + destruct (nonempty (multiLinesString (advance 1 st))).
      * destruct (re_match _multilines_done_re line); [apply Hd|].
        intros H. now injection H as <-.
      * apply Hd.
Qed.

(** When the loop gets through the lines, what it has printed is what
    its iterations print. *)
Lemma run_prints_ok lines : forall st st',
  run st lines = Ok st' -> stderr st' = stderr st ++ run_prints st lines.
Proof.
  induction lines as [|line rest IH]; intros st st' H.
  - injection H as <-. cbn. now rewrite app_nil_r.
  - cbn [run run_prints] in *.
    destruct (step st line) as [st1| |] eqn:Es; try discriminate.
    cbn [bind] in H. apply IH in H. apply step_prints_ok in Es.
    now rewrite H, Es, app_assoc.
Qed.

(** ** A file on which the loop opens no group *)

Lemma update_group_outcome gl i f :
  (exists gl', update_group gl i f = Ok gl') \/ update_group gl i f = Raise IndexError.
Proof.
  unfold update_group. destruct (py_norm (length gl) i) as [n|]; [|now right].
  destruct (nth_error gl n); [left; eauto | now right].
Qed.

(** The [if/elif] chain raises nothing but [IndexError]. *)
Lemma dispatch_outcome st s :
  (exists st', dispatch st s = Ok st') \/ dispatch st s = Raise IndexError.
Proof.
  unfold dispatch. destruct (classify s); try (left; eauto; fail).
  - destruct (update_group_outcome (groupList st) (lastOpenedGroupNum st)
                (add_complex key valueList)) as [[gl ->] | ->];
      [left; cbn; eauto | now right].
  - destruct (update_group_outcome (groupList st) (lastOpenedGroupNum st)
                (add_simple key value)) as [[gl ->] | ->];
      [left; cbn; eauto | now right].
  - destruct (openedGroupNumList st); [now right | left; eauto].
  - cbn [with_stderr groupList lastOpenedGroupNum].
    destruct (update_group_outcome (groupList st) (lastOpenedGroupNum st)
                (add_complex key valueList)) as [[gl ->] | ->];
      [left; cbn; eauto | now right].
  - cbn [with_stderr groupList lastOpenedGroupNum].
    destruct (update_group_outcome (groupList st) (lastOpenedGroupNum st)
                (add_simple key value)) as [[gl ->] | ->];
      [left; cbn; eauto | now right].
Qed.

Lemma step_outcome st line :
  (exists st', step st line = Ok st') \/ step st line = Raise IndexError.
Proof.
  unfold step.
  assert (Hd : forall s,
    (exists st', (let* st'0 := dispatch (advance 1 st) s in
                  Ok (end_of_body st'0)) = Ok st') \/
    (let* st'0 := dispatch (advance 1 st) s in Ok (end_of_body st'0))
      = Raise IndexError).
  { intros s. destruct (dispatch_outcome (advance 1 st) s) as [[st' ->] | ->];
      [left; cbn; eauto | now right]. }
  destruct (commentMark (advance 1 st)); [left; eauto|].
  destruct (re_match _multilines_re line); [left; eauto|].
  destruct (nonempty (multiLinesString (advance 1 st))); [|apply Hd].
  destruct (re_match _multilines_done_re line); [apply Hd | left; eauto].
Qed.

(** A statement that opens no group leaves the loop without a group, if
    it does not raise. *)
Lemma effect_blank s st st' :
  blank st -> opens_group s = false -> effect (classify s) st st' -> blank st'.
Proof.
  intros [Hg Ho] Hs. unfold opens_group in Hs. unfold effect, blank.
  destruct (classify s); try discriminate; cbn [attr_of].
  - rewrite Hg, update_group_nil. now intros [? _].
  - rewrite Hg, update_group_nil. now intros [? _].
  - now intros [? _].
  - intros (-> & _ & -> & _). auto.
  - intros (-> & _ & -> & _). auto.
  - rewrite Hg, update_group_nil. now intros [? _].
  - rewrite Hg, update_group_nil. now intros [? _].
  - intros (-> & _ & -> & _). auto.
Qed.

Lemma run_no_group lines : forall st,
  blank st ->
  existsb opens_group
          (statements (commentMark st) (multiLinesString st) lines) = false ->
  raises_or_blank (run st lines).
Proof.
  induction lines as [|line rest IH]; intros st Hb Hno.
  - right. eauto.
  - cbn [run].
    destruct (step_outcome st line) as [[st1 Es] | Es]; rewrite Es; cbn [bind];
      [|now left].
    destruct (step_statements st line st1 rest Es)
      as [(Hs & Hg & _ & Ho & _) | (s & Hs & He)]; rewrite Hs in Hno.
    + apply IH; [|exact Hno]. destruct Hb. split; congruence.
    + cbn [existsb] in Hno. apply orb_false_iff in Hno. destruct Hno as [H1 H2].
      apply IH; [|exact H2]. now apply (effect_blank s st).
Qed.

Lemma not_group_line s :
  re_match _group_re s = None -> opens_group s = false.
Proof.
  intros H. unfold opens_group.
  destruct (classify s) eqn:E; try reflexivity.
  apply classify_group in E. destruct E as (m & Hm & _). congruence.
Qed.

(** A file none of whose lines has the form of a group declaration is a
    file on which no statement opens a group. *)
Lemma no_group_line_no_group lines : forall commentMark multiLinesString,
  Forall (fun line => re_match _group_re line = None) lines ->
  existsb opens_group (statements commentMark multiLinesString lines) = false.
Proof.
  induction lines as [|line rest IH]; intros cm ms Hall; [reflexivity|].
  inversion Hall as [|? ? Hl Hrest]; subst. cbn [statements].
  destruct cm; [now apply IH|].
  destruct (re_match _multilines_re line); [now apply IH|].
  destruct (nonempty ms).
  - destruct (re_match _multilines_done_re line) as [m|] eqn:Ed; [|now apply IH].
    cbn [existsb]. rewrite (not_group_line _ (joined_line_not_group ms line m Ed)).
    now apply IH.
  - cbn [existsb]. rewrite (not_group_line _ Hl). now apply IH.
Qed.

Lemma filter_all {A} (f : A -> bool) (l : list A) :
  (forall x, f x = true) -> List.filter f l = l.
Proof.
  intros H. induction l as [|x l IH]; [reflexivity|].
  cbn. now rewrite H, IH.
Qed.

(** C10, as the code has it.  When no statement of an existing file
    opens a group (lines inside a comment are no statements), the
    construction of a parser instance with the default, empty cell list
    ends in an uncaught [IndexError]: an attribute or closing statement
    indexes or pops the empty lists during the parse, or the parse returns
    the empty group list and [organizeData] evaluates [groupList[0]] on
    it.  With a cell list the constructor runs [genCellLibFile] first, and
    when that finds no cell in the file the construction prints one
    message for every requested cell and exits with status 1. *)
Theorem C10_no_group_open_raises_IndexError (w : world) (libFile content : string) :
  files w !! libFile = Some content ->
  (existsb opens_group (statements false "" (readlines content)) = false ->
   snd (init w libFile []) = Raise IndexError /\
   forall groupList printed,
     libertyParser content = Ok (groupList, printed) ->
     groupList = [] /\ organizeData groupList = Raise IndexError) /\
  (forall cellList,
     cellList <> [] -> scan_cells content = [] ->
     init w libFile cellList =
       (mkWorld (files w)
                (errors w ++ map (fun cell => ErrCellMissing cell libFile) cellList),
        SysExit 1)).
Proof.
  intros Hfile. split.
  - intros Hno.
    assert (Hrun := run_no_group (readlines content) initial_pstate
                      (conj eq_refl eq_refl) Hno).
    unfold init, parse_file. rewrite Hfile. unfold libertyParser.
    destruct Hrun as [E | (st' & E & [Hg Ho])]; rewrite E; cbn [bind].
    + split; [reflexivity | discriminate].
    + rewrite Hg. split; [reflexivity|].
      intros gl pr H. injection H as <- _. split; reflexivity.
  - intros cellList Hne Hscan. unfold init. rewrite Hfile.
    destruct cellList as [|c cl]; [congruence|].
    unfold genCellLibFile. rewrite Hfile, Hscan.
    cbn [dict_keys map].
    rewrite (filter_all (fun cell => negb (str_in cell [])) (c :: cl))
      by reflexivity.
    reflexivity.
Qed.

(** A file whose only group declaration is commented out: the default
    construction raises, the construction for a cell exits. *)
Lemma C10_witness :
  let w := one_file "in.lib" commented_out_group in
  (snd (init w "in.lib" []) = Raise IndexError /\
   libertyParser commented_out_group = Ok ([], []) /\
   organizeData [] = Raise IndexError) /\
  init w "in.lib" ["A"; "B"] =
    (mkWorld (files w) [ErrCellMissing "A" "in.lib"; ErrCellMissing "B" "in.lib"],
     SysExit 1).
Proof.
  intros w.
  destruct (C10_no_group_open_raises_IndexError w "in.lib" commented_out_group)
    as [Ha Hb].
  - vm_compute; reflexivity.
  - destruct Ha as [H1 H2]; [vm_compute; reflexivity|].
    split.
    + split; [exact H1|]. split; [vm_compute; reflexivity|].
      apply (H2 [] []). vm_compute; reflexivity.
    + apply (Hb ["A"; "B"]); [discriminate | vm_compute; reflexivity].
Defined.

(** C10 fails for a construction with a cell list: on the file that
    holds a comment and a blank line, where no statement opens a group,
    the construction for cell [A] prints its message and exits with
    status 1; it raises no [IndexError]. *)
Lemma C10_counterexample :
  existsb opens_group (statements false "" (readlines only_comments)) = false /\
  init (one_file "in.lib" only_comments) "in.lib" ["A"] =
    (mkWorld (files (one_file "in.lib" only_comments))
             [ErrCellMissing "A" "in.lib"],
     SysExit 1) /\
  snd (init (one_file "in.lib" only_comments) "in.lib" ["A"]) <> Raise IndexError.
Proof.
  split; [vm_compute; reflexivity|].
  split; [vm_compute; reflexivity | vm_compute; discriminate].
Qed.

(* ================================================================== *)
(** * Further properties of the code *)

(** ** [genCellLibFile] and the files *)

Lemma length_chars s : length (chars s) = String.length s.
Proof. induction s as [|c s IH]; simpl; [reflexivity | now rewrite IH]. Qed.

Lemma cellLibFile_of_differs libFile cellList :
  cellLibFile_of libFile cellList <> libFile.
Proof.
  unfold cellLibFile_of. intros H.
  apply (f_equal (fun s => length (chars s))) in H.
  rewrite !chars_app, !length_app in H. simpl in H. lia.
Qed.

Lemma genCellLibFile_files (w : world) (libFile : string) (cellList : list string) :
  (forall path, path <> cellLibFile_of libFile cellList ->
     files (fst (genCellLibFile w libFile cellList)) !! path = files w !! path) /\
  (forall path, snd (genCellLibFile w libFile cellList) = Ok path ->
     path = cellLibFile_of libFile cellList).
Proof.
  unfold genCellLibFile.
  destruct (files w !! libFile) as [content|]; [|split; [reflexivity|discriminate]].
  destruct (List.filter _ cellList); [|split; [reflexivity|discriminate]].
  destruct (dict_keys (scan_cells content)) as [|first_cell rest].
  { split; [|discriminate]. intros path Hp. cbn [fst files].
    now apply lookup_insert_ne. }
  destruct (dict_get first_cell (scan_cells content)).
  2:{ split; [|discriminate]. intros path Hp. cbn [fst files].
      now apply lookup_insert_ne. }
  destruct (cell_parts _ _ cellList); cbn [fst snd files];
    (split; [intros path Hp; now apply lookup_insert_ne|]);
    intros path Hp; congruence.
Qed.

(** X6.  [genCellLibFile] writes to one path only, the name of the
    library followed by a dot and the requested names joined by
    underscores: whatever it returns, every other file is as it was, the
    library file among them, and when it returns a path it is this one. *)
Theorem X6_only_the_reduced_file_is_written
        (w : world) (libFile : string) (cellList : list string) :
  (forall path, path <> cellLibFile_of libFile cellList ->
     files (fst (genCellLibFile w libFile cellList)) !! path = files w !! path) /\
  files (fst (genCellLibFile w libFile cellList)) !! libFile = files w !! libFile /\
  (forall path, snd (genCellLibFile w libFile cellList) = Ok path ->
     path = cellLibFile_of libFile cellList).
Proof.
  destruct (genCellLibFile_files w libFile cellList) as [H1 H2].
  split; [exact H1|]. split; [|exact H2].
  apply H1. intros E. symmetry in E. now apply cellLibFile_of_differs in E.
Qed.

(** ** What the first loop records *)

Lemma scan_from_points (all_lines : list string) lines : forall pre st,
  all_lines = pre ++ lines ->
  (forall name k, dict_get name (snd st) = Some k ->
     1 <= k <= length pre /\
     exists line, nth_error all_lines (k - 1) = Some line /\
                  cell_name_of line = Some name /\
                  matches comment_start_re line = false) ->
  forall name k, dict_get name (snd (scan_from st (S (length pre)) lines)) = Some k ->
     1 <= k <= length all_lines /\
     exists line, nth_error all_lines (k - 1) = Some line /\
                  cell_name_of line = Some name /\
                  matches comment_start_re line = false.
Proof.
  induction lines as [|line rest IH]; intros pre st Hall Hinv name k.
  - cbn [scan_from]. intros H. apply Hinv in H.
    rewrite app_nil_r in Hall. subst all_lines. exact H.
  - cbn [scan_from].
    replace (S (S (length pre))) with (S (length (pre ++ [line])))
      by (rewrite length_app; simpl; lia).
    apply IH; [now rewrite <- app_assoc|].
    clear name k. intros name k.
    assert (Hold : dict_get name (snd st) = Some k ->
              1 <= k <= length (pre ++ [line]) /\
              exists line0, nth_error all_lines (k - 1) = Some line0 /\
                            cell_name_of line0 = Some name /\
                            matches comment_start_re line0 = false).
    { intros H. apply Hinv in H. destruct H as [Hk H].
      split; [rewrite length_app; simpl; lia | exact H]. }
    destruct st as [c d]. unfold scan_line. cbn [snd] in *.
    destruct c.
    + destruct (re_search comment_end_re line); exact Hold.
    + destruct (matches comment_start_re line) eqn:Ecs.
      * destruct (negb (re_search comment_end_re line)); exact Hold.
      * destruct (re_match cell_re line) as [m|] eqn:Em; [|exact Hold].
        cbn [snd].
        set (cn := if startswith_dquote (strip (group 1 m))
                      && endswith_dquote (strip (group 1 m))
                   then drop_ends (strip (group 1 m)) else strip (group 1 m)).
        destruct (String.eqb_spec cn name) as [<-|Hne].
        -- rewrite dict_get_set_eq. intros H. injection H as <-.
           split; [rewrite length_app; simpl; lia|].
           exists line. split; [|split; [|exact Ecs]].
           ++ rewrite Hall. replace (S (length pre) - 1) with (length pre) by lia.
              rewrite nth_error_app2 by lia. now rewrite Nat.sub_diag.
           ++ unfold cell_name_of. now rewrite Em.
        -- rewrite dict_get_set_ne by assumption. exact Hold.
Qed.

(** X7.  Every location the first loop of [genCellLibFile] records is the
    number, counted from 1, of a line of the file that [cell_re] takes
    and that does not open a comment, and the key it is recorded under
    is the name read from that very line. *)
Theorem X7_recorded_locations_are_cell_lines
        (content name : string) (k : nat) :
  dict_get name (scan_cells content) = Some k ->
  1 <= k <= length (readlines content) /\
  exists line, nth_error (readlines content) (k - 1) = Some line /\
               cell_name_of line = Some name /\
               matches comment_start_re line = false.
Proof.
  unfold scan_cells.
  apply (scan_from_points (readlines content) (readlines content) [] (false, []));
    [reflexivity|].
  intros n j H. discriminate.
Qed.

Lemma X7_witness :
  1 <= 9 <= length (readlines two_cells) /\
  exists line, nth_error (readlines two_cells) (9 - 1) = Some line /\
               cell_name_of line = Some "B" /\
               matches comment_start_re line = false.
Proof.
  apply (X7_recorded_locations_are_cell_lines two_cells "B" 9).
  vm_compute; reflexivity.
Defined.

(** ** Requesting every cell *)

Lemma str_app a b : str (a ++ b) = str a +:+ str b.
Proof.
  rewrite <- (str_chars (str a +:+ str b)), chars_app, !chars_str. reflexivity.
Qed.

Lemma concat_split_lines l : forall cur,
  concat_str (split_lines cur l) = str (rev cur ++ l).
Proof.
  induction l as [|c l IH]; intros cur; cbn [split_lines].
  - destruct cur as [|x cur]; [reflexivity|].
    cbn [concat_str fold_right]. now rewrite append_nil_r, app_nil_r.
  - destruct (Ascii.eqb c nl).
    + cbn [concat_str fold_right]. fold (concat_str (split_lines [] l)).
      rewrite IH. cbn [rev app]. rewrite <- str_app.
      now rewrite <- app_assoc.
    + rewrite IH. cbn [rev]. now rewrite <- app_assoc.
Qed.

Lemma concat_readlines content : concat_str (readlines content) = read_text content.
Proof. unfold readlines, read_text. now rewrite concat_split_lines. Qed.

Lemma firstn_then_skipn {A} (l : list A) a b :
  a <= b -> firstn (b - a) (skipn a l) ++ skipn b l = skipn a l.
Proof.
  intros H. replace (skipn b l) with (skipn (b - a) (skipn a l)).
  - apply firstn_skipn.
  - rewrite skipn_skipn. f_equal. lia.
Qed.

Lemma ranges_of_suffix (all_lines : list string) l2 : forall l1 c s,
  List.NoDup (dict_keys (l1 ++ (c, s) :: l2)) ->
  Forall (fun l => 1 <= l) (map snd (l1 ++ (c, s) :: l2)) ->
  StronglySorted lt (map snd (l1 ++ (c, s) :: l2)) ->
  flat_map (spec_range all_lines (l1 ++ (c, s) :: l2)) (dict_keys ((c, s) :: l2))
  = skipn (s - 1) all_lines.
Proof.
  induction l2 as [|[c' e] l2 IH]; intros l1 c s Hnd Hpos Hsorted.
  - cbn [dict_keys map fst flat_map]. rewrite app_nil_r.
    unfold spec_range.
    assert (Hc : ~ In c (dict_keys l1)).
    { unfold dict_keys in Hnd. rewrite map_app in Hnd. cbn [map fst] in Hnd.
      apply List.NoDup_remove_2 in Hnd. rewrite app_nil_r in Hnd. exact Hnd. }
    rewrite (dict_get_app_notin c l1 _ Hc). cbn [dict_get]. rewrite String.eqb_refl.
    rewrite (next_later_split l1 c s [] Hsorted).
    unfold lines_from_to. apply firstn_all2.
    rewrite length_skipn. lia.
  - assert (Hc : ~ In c (dict_keys l1)).
    { unfold dict_keys in Hnd. rewrite map_app in Hnd. cbn [map fst] in Hnd.
      apply List.NoDup_remove_2 in Hnd. intros Hin. apply Hnd.
      apply in_or_app. now left. }
    assert (Hse : 1 <= s < e).
    { rewrite map_app in Hpos, Hsorted. cbn [map snd] in Hpos, Hsorted.
      apply List.Forall_app in Hpos. destruct Hpos as [_ Hpos].
      apply List.Forall_cons_iff in Hpos. destruct Hpos as [Hs _].
      apply sorted_split in Hsorted. destruct Hsorted as (_ & Hlater & _).
      apply List.Forall_cons_iff in Hlater. lia. }
    change (dict_keys ((c, s) :: (c', e) :: l2)) with (c :: dict_keys ((c', e) :: l2)).
    cbn [flat_map].
    replace (l1 ++ (c, s) :: (c', e) :: l2) with ((l1 ++ [(c, s)]) ++ (c', e) :: l2)
      in * by (now rewrite <- app_assoc).
    rewrite (IH (l1 ++ [(c, s)]) c' e Hnd Hpos Hsorted).
    replace ((l1 ++ [(c, s)]) ++ (c', e) :: l2) with (l1 ++ (c, s) :: (c', e) :: l2)
      in * by (now rewrite <- app_assoc).
    unfold spec_range.
    rewrite (dict_get_app_notin c l1 _ Hc). cbn [dict_get]. rewrite String.eqb_refl.
    rewrite (next_later_split l1 c s ((c', e) :: l2) Hsorted).
    unfold lines_from_to.
    replace (S (e - 1) - s) with ((e - 1) - (s - 1)) by lia.
    apply firstn_then_skipn. lia.
Qed.

Lemma all_ranges (all_lines : list string) (locs : dict nat) :
  List.NoDup (dict_keys locs) -> Forall (fun l => 1 <= l) (map snd locs) ->
  increasing (map snd locs) = true ->
  spec_header all_lines locs ++ flat_map (spec_range all_lines locs) (dict_keys locs)
  = all_lines.
Proof.
  intros Hnd Hpos Hinc. apply increasing_sorted in Hinc.
  destruct locs as [|[c s] l2]; [apply app_nil_r|].
  pose proof (ranges_of_suffix all_lines l2 [] c s Hnd Hpos Hinc) as R.
  cbn [app] in R. rewrite R.
  unfold spec_header. cbn [map snd] in *. rewrite (least_sorted s _ Hinc).
  unfold lines_from_to. change (1 - 1) with 0. cbn [skipn].
  replace (S (s - 1) - 1) with (s - 1) by lia.
  apply firstn_skipn.
Qed.

(** X8.  When the recorded cells lie at increasing lines and all of them
    are requested, in the order of the file, [genCellLibFile] writes the
    text of the library file, whole, followed by one more closing
    brace. *)
Theorem X8_requesting_every_cell_copies_the_file
        (w : world) (libFile content : string) :
  files w !! libFile = Some content ->
  increasing (map snd (scan_cells content)) = true ->
  scan_cells content <> [] ->
  genCellLibFile w libFile (dict_keys (scan_cells content)) =
    (mkWorld (<[cellLibFile_of libFile (dict_keys (scan_cells content)) :=
                  read_text content +:+ "}" +:+ newline]> (files w))
             (errors w),
     Ok (cellLibFile_of libFile (dict_keys (scan_cells content)))).
Proof.
  intros Hf Hinc Hne.
  rewrite (genCellLibFile_ranges w libFile content _ Hf Hinc).
  - unfold spec_reduced.
    destruct (scan_cells_ok content) as [Hnd Hpos].
    now rewrite (all_ranges _ _ Hnd Hpos Hinc), concat_readlines.
  - destruct (scan_cells content); [congruence | discriminate].
  - apply List.Forall_forall. auto.
Qed.

Lemma X8_witness :
  let w := one_file "in.lib" two_cells in
  genCellLibFile w "in.lib" ["A"; "B"] =
    (mkWorld (<["in.lib.A_B" := two_cells +:+ "}" +:+ newline]> (files w)) [],
     Ok "in.lib.A_B").
Proof.
  intros w.
  apply (X8_requesting_every_cell_copies_the_file w "in.lib" two_cells).
  - vm_compute; reflexivity.
  - vm_compute; reflexivity.
  - vm_compute; discriminate.
Defined.

(** ** Loops and dictionaries *)

Lemma foldM_inv {A B} (P : A -> Prop) (f : A -> B -> result A) (l : list B) :
  forall acc r,
  P acc ->
  (forall a x a', P a -> In x l -> f a x = Ok a' -> P a') ->
  foldM f acc l = Ok r -> P r.
Proof.
  induction l as [|x l IH]; intros acc r Hacc Hstep H.
  - now injection H as <-.
  - cbn [foldM] in H. destruct (f acc x) as [a'| |] eqn:E; try discriminate.
    cbn [bind] in H. apply (IH a' r); auto.
    + apply (Hstep acc x a'); auto. now left.
    + intros a y a'' Ha Hy. apply Hstep; auto. now right.
Qed.

Lemma keys_set_In {V} (k : string) (v : V) (d : dict V) (x : string) :
  In x (dict_keys (dict_set k v d)) <-> x = k \/ In x (dict_keys d).
Proof.
  rewrite dict_keys_set. destruct (dict_has k d) eqn:E.
  - apply dict_has_In in E. split; [now right|]. intros [->|H]; assumption.
  - rewrite in_app_iff. simpl. split.
    + intros [H|[H|[]]]; auto.
    + intros [->|H]; auto.
Qed.

Lemma dict_get_In {V} (k : string) (v : V) (d : dict V) :
  dict_get k d = Some v -> In (k, v) d.
Proof.
  induction d as [|[k' v'] d IH]; [discriminate|]. cbn [dict_get].
  destruct (String.eqb_spec k k') as [<-|Hne].
  - intros H. injection H as <-. now left.
  - intros H. right. now apply IH.
Qed.

Lemma dict_set_In {V} (k : string) (v : V) (d : dict V) k' v' :
  In (k', v') (dict_set k v d) -> (k' = k /\ v' = v) \/ In (k', v') d.
Proof.
  induction d as [|[k0 v0] d IH]; cbn [dict_set].
  - intros [H|[]]. injection H as <- <-. now left.
  - destruct (String.eqb_spec k k0) as [<-|Hne].
    + intros [H|H]; [injection H as <- <-; now left | right; now right].
    + intros [H|H]; [right; now left|].
      apply IH in H. destruct H as [H|H]; [now left | right; now right].
Qed.

Lemma keys_In {V} (k : string) (d : dict V) :
  In k (dict_keys d) <-> exists v, In (k, v) d.
Proof.
  unfold dict_keys. rewrite in_map_iff. split.
  - intros ([k' v] & <- & H). now exists v.
  - intros (v & H). now exists (k, v).
Qed.

(** ** [getCellArea] *)

Lemma fill_missing (cellList : list string) : forall acc : pydict,
  let filled := fold_left (fun acc cellName =>
                             if dict_has cellName acc then acc
                             else dict_set cellName (VStr "") acc) cellList acc in
  forall k, In k (dict_keys filled) <-> In k (dict_keys acc) \/ In k cellList.
Proof.
  induction cellList as [|c cl IH]; intros acc; cbn [fold_left].
  - intros k. simpl. tauto.
  - intros k. rewrite IH. destruct (dict_has c acc) eqn:E.
    + apply dict_has_In in E. simpl. split; [tauto|].
      intros [H|[<-|H]]; auto.
    + rewrite keys_set_In. simpl. split.
      * intros [[->|H]|H]; auto.
      * intros [H|[<-|H]]; auto.
Qed.

(** X9.  When [getCellArea] returns, its result has an entry for every
    requested name, whether the library has such a cell or not, and when
    names are requested it has no entry for any other name. *)
Theorem X9_getCellArea_entries_are_the_requested_names
        (self : instance) (cellList : list string) (d : pydict) :
  getCellArea self cellList = Ok d ->
  (forall c, In c cellList -> dict_has c d = true) /\
  (cellList <> [] -> forall k, In k (dict_keys d) -> In k cellList).
Proof.
  unfold getCellArea.
  destruct (group_elems (libDic self)) as [elems| |]; try discriminate.
  cbn [bind].
  match goal with
  | |- context [foldM ?f [] elems] =>
      destruct (foldM f [] elems) as [d0| |] eqn:Ef; try discriminate
  end.
  cbn [bind]. intros H. injection H as <-.
  split.
  - intros c Hc. apply dict_has_In. apply fill_missing. now right.
  - intros Hne k Hk. apply fill_missing in Hk. destruct Hk as [Hk|Hk]; [|exact Hk].
    revert k Hk.
    refine (foldM_inv (fun acc : pydict => forall k, In k (dict_keys acc) -> In k cellList)
              _ elems [] d0 _ _ Ef); [intros k []|].
    intros a v a' Ha _.
    destruct (as_dict (heap self) AttributeError v) as [g| |]; try discriminate.
    cbn [bind]. destruct (type_is "cell" g).
    2:{ intros H. now injection H as <-. }
    destruct (getitem "name" g) as [cellName| |]; try discriminate.
    cbn [bind].
    destruct cellList as [|c0 cl]; [congruence|]. cbn [is_nil orb].
    destruct (val_in cellName (c0 :: cl)) eqn:Ev.
    2:{ intros H. now injection H as <-. }
    destruct cellName as [|s| | |]; try discriminate.
    cbn [as_key bind]. intros H. injection H as <-.
    intros k Hk. apply keys_set_In in Hk. destruct Hk as [->|Hk]; [|now apply Ha].
    now apply str_in_In.
Qed.

Lemma X9_witness :
  let d := [("A", VStr ""); ("ZZ", VStr "")] in
  (forall c, In c ["ZZ"; "A"] -> dict_has c d = true) /\
  (["ZZ"; "A"] <> [] -> forall k, In k (dict_keys d) -> In k ["ZZ"; "A"]).
Proof.
  intros d.
  apply (X9_getCellArea_entries_are_the_requested_names (parsed two_cells) ["ZZ"; "A"] d).
  vm_compute; reflexivity.
Defined.

Lemma area_and_list (store : list pydict) (elems : list pyval) :
  forall (names : list pyval) (acc : pydict) names' d,
  (forall k, In k (dict_keys acc) <-> In (VStr k) names) ->
  foldM (collect_cell store) names elems = Ok names' ->
  foldM (fun cellAreaDic v =>
           let* groupDic := as_dict store AttributeError v in
           if type_is "cell" groupDic then
             let* cellName := getitem "name" groupDic in
             if is_nil (@nil string) || val_in cellName [] then
               let* key := as_key cellName in
               Ok (dict_set key
                     (match dict_get "area" groupDic with
                      | Some a => a
                      | None => VStr ""
                      end) cellAreaDic)
             else Ok cellAreaDic
           else Ok cellAreaDic) acc elems = Ok d ->
  forall k, In k (dict_keys d) <-> In (VStr k) names'.
Proof.
  induction elems as [|v elems IH]; intros names acc names' d Hinv H1 H2.
  - cbn [foldM] in H1, H2. injection H1 as <-. injection H2 as <-. exact Hinv.
  - cbn [foldM] in H1, H2. unfold collect_cell at 1 in H1.
    destruct (as_dict store AttributeError v) as [g| |]; try discriminate.
    cbn [bind] in H1, H2.
    destruct (type_is "cell" g).
    2:{ cbn [bind] in H1, H2. now apply (IH names acc names' d). }
    destruct (getitem "name" g) as [cellName| |]; try discriminate.
    cbn [bind is_nil orb] in H1, H2.
    destruct cellName as [|s| | |]; try discriminate.
    cbn [as_key bind] in H2.
    refine (IH _ _ names' d _ H1 H2).
    intros k. rewrite keys_set_In, in_app_iff, Hinv. simpl.
    split.
    + intros [->|H]; auto.
    + intros [H|[H|[]]]; auto. injection H as <-. now left.
Qed.

(** X10.  With no filter, [getCellArea] and [getCellList] agree on the
    cells of the library: when both return, the keys of the first are
    the names the second lists. *)
Theorem X10_getCellArea_lists_the_cells_of_getCellList
        (self : instance) (names : list pyval) (d : pydict) :
  getCellList self = Ok names ->
  getCellArea self [] = Ok d ->
  forall k, In k (dict_keys d) <-> In (VStr k) names.
Proof.
  unfold getCellList, getCellArea.
  destruct (group_elems (libDic self)) as [elems| |]; try discriminate.
  cbn [bind]. intros H1.
  match goal with
  | |- context [foldM ?f [] elems] =>
      destruct (foldM f [] elems) as [d0| |] eqn:Ef; try discriminate
  end.
  cbn [bind fold_left]. intros H. injection H as <-.
  apply (area_and_list (heap self) elems [] [] names d0); auto.
Qed.

Lemma X10_witness :
  getCellList (parsed four_cells) =
    Ok [VStr "C1"; VStr "C2"; VStr "C3"; VStr "C4"] /\
  getCellArea (parsed four_cells) [] =
    Ok [("C1", VStr ""); ("C2", VStr ""); ("C3", VStr ""); ("C4", VStr "")] /\
  forall k, In k ["C1"; "C2"; "C3"; "C4"] <->
            In (VStr k) [VStr "C1"; VStr "C2"; VStr "C3"; VStr "C4"].
Proof.
  split; [vm_compute; reflexivity|]. split; [vm_compute; reflexivity|].
  apply (X10_getCellArea_lists_the_cells_of_getCellList (parsed four_cells)
           [VStr "C1"; VStr "C2"; VStr "C3"; VStr "C4"]
           [("C1", VStr ""); ("C2", VStr ""); ("C3", VStr ""); ("C4", VStr "")]).
  - vm_compute; reflexivity.
  - vm_compute; reflexivity.
Defined.

(** ** Branches on a string literal *)

Ltac literal :=
  repeat (try reflexivity;
          match goal with
          | |- context [match ?x with EmptyString => _ | String _ _ => _ end] =>
              is_var x; destruct x; cbn
          | |- context [match ?x with Ascii _ _ _ _ _ _ _ _ => _ end] =>
              is_var x; destruct x; cbn
          | |- context [match ?x with true => _ | false => _ end] =>
              is_var x; destruct x; cbn
          end).

Lemma timing_dispatch {A} (t : pyval) (a b c : A) :
  match t with VStr "timing" => a | VStr "internal_power" => b | _ => c end =
  if val_is "timing" t then a else if val_is "internal_power" t then b else c.
Proof.
  destruct t as [z|s|l|i|x]; try reflexivity. unfold val_is. literal.
Qed.

Lemma section_dispatch {A} (t : pyval) (a b c d : A) :
  match t with VStr "pin" => a | VStr "bundle" => b | VStr "bus" => c | _ => d end =
  if val_is "pin" t then a else if val_is "bundle" t then b
  else if val_is "bus" t then c else d.
Proof.
  destruct t as [z|s|l|i|x]; try reflexivity. unfold val_is. literal.
Qed.

Lemma getitem_type_is (t : string) (g : pydict) (v : pyval) :
  getitem "type" g = Ok v -> val_is t v = true -> type_is t g = true.
Proof.
  unfold getitem, type_is, val_is.
  destruct (dict_get "type" g) as [x|]; [|discriminate].
  intros H. injection H as ->. now destruct v.
Qed.

(** ** The attributes the group extractors copy *)

Lemma copy_keys_get (keys : list string) (src : pydict) : forall (dst : pydict) k,
  dict_get k (copy_keys keys src dst) =
    if str_in k keys
    then match dict_get k src with
         | Some v => Some v
         | None => dict_get k dst
         end
    else dict_get k dst.
Proof.
  unfold copy_keys.
  induction keys as [|key keys IH]; intros dst k; [reflexivity|].
  cbn [fold_left]. rewrite IH. unfold str_in. cbn [existsb].
  fold (str_in k keys).
  destruct (String.eqb_spec k key) as [->|Hne]; cbn [orb].
  - destruct (dict_get key src) as [v|] eqn:E.
    + rewrite dict_get_set_eq. now destruct (str_in key keys).
    + now destruct (str_in key keys).
  - destruct (dict_get key src) as [v|] eqn:E; [|reflexivity].
    rewrite dict_get_set_ne by congruence. reflexivity.
Qed.

Lemma copy_keys_keys (keys : list string) (src dst : pydict) k :
  In k (dict_keys (copy_keys keys src dst)) -> In k keys \/ In k (dict_keys dst).
Proof.
  intros H. apply dict_has_In in H. unfold dict_has in H.
  rewrite copy_keys_get in H.
  destruct (str_in k keys) eqn:E.
  - left. now apply str_in_In.
  - right. apply dict_has_In. exact H.
Qed.

Lemma table_types_keys store wt keys elems tables :
  table_types store wt keys elems = Ok tables ->
  all_in (fun _ v => exists x, v = VDict x /\
            forall k, In k (dict_keys x) ->
                      (wt = true /\ k = "template_name") \/ In k keys) tables.
Proof.
  unfold table_types. intros H.
  refine (foldM_inv (all_in _) _ elems [] tables _ _ H); [intros k v []|].
  clear H. intros a v a' Ha _.
  destruct (as_dict store TypeError v) as [lvl| |]; try discriminate. cbn [bind].
  destruct (getitem "type" lvl) as [t| |]; try discriminate. cbn [bind].
  destruct (as_key t) as [ty| |]; try discriminate. cbn [bind].
  intros H. injection H as <-.
  intros k x Hin. apply dict_set_In in Hin.
  destruct Hin as [[-> ->]|Hin]; [|exact (Ha k x Hin)].
  eexists. split; [reflexivity|].
  intros k Hk. apply copy_keys_keys in Hk. destruct Hk as [Hk|Hk]; [now right|].
  left. destruct wt; cbn [andb] in Hk; [|destruct Hk].
  destruct (truthy_get "name" lvl); [|destruct Hk].
  destruct (dict_get "name" lvl); [|destruct Hk].
  destruct Hk as [<-|[]]. auto.
Qed.

Lemma sub_dict_all_in (P : string -> pyval -> Prop) (Q : pydict -> Prop)
      (k : string) (d : pydict) :
  all_in P d -> Q [] -> (forall x, P k (VDict x) -> Q x) -> Q (sub_dict k d).
Proof.
  intros Hall Hnil Hq. unfold sub_dict.
  destruct (dict_get k d) as [[]|] eqn:E; try exact Hnil.
  apply Hq. apply Hall. now apply dict_get_In.
Qed.

Lemma group_info_keys store (g : pydict) wt (own keys : list string) d :
  ~ In "table_type" own ->
  (if dict_has "group" g
   then let* elems := group_elems g in
        let* tables := table_types store wt keys elems in
        Ok (dict_set "table_type" (VDict tables) (copy_keys own g []))
   else Ok (copy_keys own g [])) = Ok d ->
  (forall k, In k own -> dict_get k d = dict_get k g) /\
  (forall k, In k (dict_keys d) -> In k (own ++ ["table_type"])) /\
  (forall t k, In k (dict_keys (sub_dict t (sub_dict "table_type" d))) ->
               (wt = true /\ k = "template_name") \/ In k keys).
Proof.
  intros Hown H.
  assert (Hcopy : forall k, In k own -> dict_get k (copy_keys own g []) = dict_get k g).
  { intros k Hk. rewrite copy_keys_get.
    apply str_in_In in Hk. rewrite Hk. now destruct (dict_get k g). }
  assert (Hkeys : forall k, In k (dict_keys (copy_keys own g [])) -> In k own).
  { intros k Hk. apply copy_keys_keys in Hk. now destruct Hk. }
  assert (Hnone : dict_get "table_type" (copy_keys own g []) = None).
  { rewrite copy_keys_get. destruct (str_in "table_type" own) eqn:E; [|reflexivity].
    apply str_in_In in E. contradiction. }
  destruct (dict_has "group" g).
  - destruct (group_elems g) as [elems| |]; try discriminate. cbn [bind] in H.
    destruct (table_types store wt keys elems) as [tables| |] eqn:Et; try discriminate.
    cbn [bind] in H. injection H as <-.
    apply table_types_keys in Et.
    split; [|split].
    + intros k Hk. rewrite dict_get_set_ne; [now apply Hcopy|].
      intros <-. contradiction.
    + intros k Hk. apply keys_set_In in Hk. apply in_or_app.
      destruct Hk as [->|Hk]; [right; now left | left; now apply Hkeys].
    + intros t. unfold sub_dict at 2. rewrite dict_get_set_eq.
      apply (sub_dict_all_in _ (fun x => forall k, In k (dict_keys x) -> _) t tables Et).
      * intros k [].
      * intros x (x' & E & Hx). injection E as <-. exact Hx.
  - injection H as <-. split; [exact Hcopy|]. split.
    + intros k Hk. apply in_or_app. left. now apply Hkeys.
    + intros t k. unfold sub_dict at 2. rewrite Hnone. intros [].
Qed.

(** X11.  [_getTimingGroupInfo] gives an empty dictionary for a group
    that is no [timing] group.  For a [timing] group it copies the five
    attributes [related_pin], [related_pg_pin], [timing_sense],
    [timing_type] and [when] as they are, present or absent; the only
    other key it may add is [table_type], and a table under it holds no
    key but [template_name], [sigma_type], [index_1], [index_2] and
    [values]. *)
Theorem X11_timing_info_copies_listed_attributes_only
        (store : list pydict) (g d : pydict) :
  _getTimingGroupInfo store g = Ok d ->
  (type_is "timing" g = false -> d = []) /\
  (type_is "timing" g = true ->
     forall k, In k ["related_pin"; "related_pg_pin"; "timing_sense";
                     "timing_type"; "when"] ->
               dict_get k d = dict_get k g) /\
  (forall k, In k (dict_keys d) ->
             In k ["related_pin"; "related_pg_pin"; "timing_sense";
                   "timing_type"; "when"; "table_type"]) /\
  (forall t k, In k (dict_keys (sub_dict t (sub_dict "table_type" d))) ->
               In k ["template_name"; "sigma_type"; "index_1"; "index_2"; "values"]).
Proof.
  unfold _getTimingGroupInfo.
  destruct (type_is "timing" g); cbn [negb].
  - intros H. apply group_info_keys in H.
    + destruct H as (H1 & H2 & H3).
      split; [discriminate|]. split; [auto|]. split; [exact H2|].
      intros t k Hk. apply H3 in Hk. destruct Hk as [[_ ->]|Hk]; [now left | now right].
    + intros Hin. repeat (destruct Hin as [Hin|Hin]; [discriminate|]). destruct Hin.
  - intros H. injection H as <-.
    split; [reflexivity|]. split; [discriminate|].
    split; [intros k [] | intros t k []].
Qed.

Lemma X11_witness :
  let store := heap (parsed two_cells) in
  let g := nth 3 store [] in
  let d := [("related_pin", VStr "Y")] in
  (type_is "timing" g = false -> d = []) /\
  (type_is "timing" g = true ->
     forall k, In k ["related_pin"; "related_pg_pin"; "timing_sense";
                     "timing_type"; "when"] ->
               dict_get k d = dict_get k g) /\
  (forall k, In k (dict_keys d) ->
             In k ["related_pin"; "related_pg_pin"; "timing_sense";
                   "timing_type"; "when"; "table_type"]) /\
  (forall t k, In k (dict_keys (sub_dict t (sub_dict "table_type" d))) ->
               In k ["template_name"; "sigma_type"; "index_1"; "index_2"; "values"]).
Proof.
  intros store g d.
  apply (X11_timing_info_copies_listed_attributes_only store g d).
  vm_compute; reflexivity.
Defined.

(** X12.  [_getInternalPowerGroupInfo] gives an empty dictionary for a
    group that is no [internal_power] group.  For such a group it copies
    the three attributes [related_pin], [related_pg_pin] and [when] as
    they are; the only other key it may add is [table_type], and a table
    under it holds no key but [index_1], [index_2] and [values]: the
    name of the table template is not kept. *)
Theorem X12_power_info_copies_listed_attributes_only
        (store : list pydict) (g d : pydict) :
  _getInternalPowerGroupInfo store g = Ok d ->
  (type_is "internal_power" g = false -> d = []) /\
  (type_is "internal_power" g = true ->
     forall k, In k ["related_pin"; "related_pg_pin"; "when"] ->
               dict_get k d = dict_get k g) /\
  (forall k, In k (dict_keys d) ->
             In k ["related_pin"; "related_pg_pin"; "when"; "table_type"]) /\
  (forall t k, In k (dict_keys (sub_dict t (sub_dict "table_type" d))) ->
               In k ["index_1"; "index_2"; "values"]).
Proof.
  unfold _getInternalPowerGroupInfo.
  destruct (type_is "internal_power" g); cbn [negb].
  - intros H. apply group_info_keys in H.
    + destruct H as (H1 & H2 & H3).
      split; [discriminate|]. split; [auto|]. split; [exact H2|].
      intros t k Hk. apply H3 in Hk. destruct Hk as [[E _]|Hk]; [discriminate | exact Hk].
    + intros Hin. repeat (destruct Hin as [Hin|Hin]; [discriminate|]). destruct Hin.
  - intros H. injection H as <-.
    split; [reflexivity|]. split; [discriminate|].
    split; [intros k [] | intros t k []].
Qed.

Lemma X12_witness :
  let g := [("type", VStr "internal_power"); ("name", VStr "");
            ("related_pin", VStr "A"); ("rise_power", VStr "1")] in
  let d := [("related_pin", VStr "A")] in
  (type_is "internal_power" g = false -> d = []) /\
  (type_is "internal_power" g = true ->
     forall k, In k ["related_pin"; "related_pg_pin"; "when"] ->
               dict_get k d = dict_get k g) /\
  (forall k, In k (dict_keys d) ->
             In k ["related_pin"; "related_pg_pin"; "when"; "table_type"]) /\
  (forall t k, In k (dict_keys (sub_dict t (sub_dict "table_type" d))) ->
               In k ["index_1"; "index_2"; "values"]).
Proof.
  intros g d.
  apply (X12_power_info_copies_listed_attributes_only [] g d).
  vm_compute; reflexivity.
Defined.

(** ** [_getPinInfo] *)

Lemma get_append_to_eq k (x : pydict) (acc : pydict) (l : list pydict) :
  dict_get k acc = listed l ->
  dict_get k (append_to k (VDict x) acc) = listed (l ++ [x]).
Proof.
  intros H. unfold append_to. rewrite H.
  destruct l as [|a l]; cbn [listed app]; rewrite dict_get_set_eq.
  - reflexivity.
  - change (a :: l ++ [x]) with ((a :: l) ++ [x]). now rewrite map_app.
Qed.

Lemma get_append_to_ne k k' (x : pyval) (acc : pydict) :
  k' <> k -> dict_get k' (append_to k x acc) = dict_get k' acc.
Proof.
  intros H. unfold append_to.
  destruct (dict_get k acc) as [[]|]; now rewrite dict_get_set_ne.
Qed.

Lemma keys_append_to k v (d : pydict) x :
  In x (dict_keys (append_to k v d)) -> x = k \/ In x (dict_keys d).
Proof.
  unfold append_to.
  destruct (dict_get k d) as [[]|]; intros H; now apply keys_set_In in H.
Qed.

Lemma val_is_type_is t (g : pydict) (v : pyval) :
  getitem "type" g = Ok v -> val_is t v = type_is t g.
Proof.
  unfold getitem, type_is, val_is.
  destruct (dict_get "type" g) as [x|]; [|discriminate].
  intros H. now injection H as ->.
Qed.

(** The loop of [_getPinInfo] from a dictionary that holds the lists
    [ts] and [ps]: it goes through every sub-group and adds, in order, the
    information of those of type [timing] and [internal_power]. *)
Lemma pin_loop store (elems : list pyval) : forall (acc d : pydict) ts ps,
  dict_get "timing" acc = listed ts ->
  dict_get "internal_power" acc = listed ps ->
  (forall k, In k (dict_keys acc) -> k = "timing" \/ k = "internal_power") ->
  foldM (fun pinDic v =>
           let* pinGroupDic := as_dict store TypeError v in
           let* pinGroupType := getitem "type" pinGroupDic in
           add_timing_or_power store pinGroupType pinGroupDic pinDic)
        acc elems = Ok d ->
  exists subs timings powers,
    Forall2 (fun v sub => as_dict store TypeError v = Ok sub) elems subs /\
    Forall2 (fun sub info => _getTimingGroupInfo store sub = Ok info)
            (List.filter (type_is "timing") subs) timings /\
    Forall2 (fun sub info => _getInternalPowerGroupInfo store sub = Ok info)
            (List.filter (type_is "internal_power") subs) powers /\
    dict_get "timing" d = listed (ts ++ timings) /\
    dict_get "internal_power" d = listed (ps ++ powers) /\
    forall k, In k (dict_keys d) -> k = "timing" \/ k = "internal_power".
Proof.
  induction elems as [|v elems IH]; intros acc d ts ps Ht Hp Hk H.
  - injection H as <-. exists [], [], []. rewrite !app_nil_r.
    repeat split; auto; constructor.
  - cbn [foldM] in H.
    destruct (as_dict store TypeError v) as [sub| |] eqn:Ev; try discriminate.
    cbn [bind] in H.
    destruct (getitem "type" sub) as [t| |] eqn:Et; try discriminate.
    cbn [bind] in H. unfold add_timing_or_power in H. rewrite timing_dispatch in H.
    rewrite !(val_is_type_is _ sub t Et) in H.
    destruct (type_is "timing" sub) eqn:E1;
      [|destruct (type_is "internal_power" sub) eqn:E2].
    + assert (E2 : type_is "internal_power" sub = false).
      { unfold type_is in *. destruct (dict_get "type" sub) as [[]|]; try reflexivity.
        apply String.eqb_eq in E1. now subst. }
      destruct (_getTimingGroupInfo store sub) as [e| |] eqn:Ee; try discriminate.
      cbn [bind] in H.
      apply (IH _ d (ts ++ [e]) ps) in H.
      * destruct H as (subs & timings & powers & H1 & H2 & H3 & H4 & H5 & H6).
        exists (sub :: subs), (e :: timings), powers.
        cbn [List.filter]. rewrite E1, E2. rewrite <- app_assoc in H4.
        repeat split; auto; now constructor.
      * now apply get_append_to_eq.
      * rewrite get_append_to_ne by discriminate. exact Hp.
      * intros k Hin. apply keys_append_to in Hin. destruct Hin as [->|Hin]; auto.
    + destruct (_getInternalPowerGroupInfo store sub) as [e| |] eqn:Ee;
        try discriminate.
      cbn [bind] in H.
      apply (IH _ d ts (ps ++ [e])) in H.
      * destruct H as (subs & timings & powers & H1 & H2 & H3 & H4 & H5 & H6).
        exists (sub :: subs), timings, (e :: powers).
        cbn [List.filter]. rewrite E1, E2. rewrite <- app_assoc in H5.
        repeat split; auto; now constructor.
      * rewrite get_append_to_ne by discriminate. exact Ht.
      * now apply get_append_to_eq.
      * intros k Hin. apply keys_append_to in Hin. destruct Hin as [->|Hin]; auto.
    + cbn [bind] in H. apply (IH _ d ts ps) in H; auto.
      destruct H as (subs & timings & powers & H1 & H2 & H3 & H4 & H5 & H6).
      exists (sub :: subs), timings, powers.
      cbn [List.filter]. rewrite E1, E2.
      repeat split; auto; now constructor.
Qed.

(** X13.  [_getPinInfo] gives an empty dictionary for a group that is no
    [pin] group or has no child list.  Otherwise it goes through every
    sub-group of the group, and its result holds no key but [timing] and
    [internal_power]: under [timing] the list of the results of
    [_getTimingGroupInfo] on the sub-groups of type [timing], all of them
    and in their order, under [internal_power] the same with
    [_getInternalPowerGroupInfo] for the sub-groups of that type; a key is
    absent when the group has no sub-group of the type. *)
Theorem X13_pin_info_holds_timing_and_power_lists
        (store : list pydict) (g d : pydict) :
  _getPinInfo store g = Ok d ->
  (type_is "pin" g && dict_has "group" g = false -> d = []) /\
  (type_is "pin" g && dict_has "group" g = true ->
   exists elems subs timings powers,
     group_elems g = Ok elems /\
     Forall2 (fun v sub => as_dict store TypeError v = Ok sub) elems subs /\
     Forall2 (fun sub info => _getTimingGroupInfo store sub = Ok info)
             (List.filter (type_is "timing") subs) timings /\
     Forall2 (fun sub info => _getInternalPowerGroupInfo store sub = Ok info)
             (List.filter (type_is "internal_power") subs) powers /\
     dict_get "timing" d = listed timings /\
     dict_get "internal_power" d = listed powers /\
     forall k, In k (dict_keys d) -> k = "timing" \/ k = "internal_power").
Proof.
  unfold _getPinInfo.
  destruct (type_is "pin" g && dict_has "group" g).
  2:{ intros H. injection H as <-. split; [reflexivity | discriminate]. }
  destruct (group_elems g) as [elems| |]; try discriminate. cbn [bind].
  intros H. split; [discriminate|]. intros _.
  apply (pin_loop store elems [] d [] []) in H; try reflexivity; [|intros k []].
  destruct H as (subs & timings & powers & H1 & H2 & H3 & H4 & H5 & H6).
  exists elems, subs, timings, powers. auto 10.
Qed.

(** The pin [X] of cell [A]: one sub-group, of type [timing]. *)
Lemma X13_witness :
  let store := heap (parsed two_cells) in
  let g := nth 2 store [] in
  let d := [("timing", VList [VDict [("related_pin", VStr "Y")]])] in
  (_getPinInfo store g = Ok d /\ type_is "pin" g && dict_has "group" g = true) /\
  exists elems subs timings powers,
    group_elems g = Ok elems /\
    Forall2 (fun v sub => as_dict store TypeError v = Ok sub) elems subs /\
    Forall2 (fun sub info => _getTimingGroupInfo store sub = Ok info)
            (List.filter (type_is "timing") subs) timings /\
    Forall2 (fun sub info => _getInternalPowerGroupInfo store sub = Ok info)
            (List.filter (type_is "internal_power") subs) powers /\
    dict_get "timing" d = listed timings /\
    dict_get "internal_power" d = listed powers /\
    forall k, In k (dict_keys d) -> k = "timing" \/ k = "internal_power".
Proof.
  intros store g d.
  assert (Hd : _getPinInfo store g = Ok d) by (vm_compute; reflexivity).
  assert (Hg : type_is "pin" g && dict_has "group" g = true)
    by (vm_compute; reflexivity).
  split; [split; assumption|].
  exact (proj2 (X13_pin_info_holds_timing_and_power_lists store g d Hd) Hg).
Defined.

(** ** The filters of [getLibPinInfo] *)

Lemma filter_passes (names : list string) (v : pyval) (k : string) :
  negb (is_nil names) && negb (val_in v names) = false ->
  as_key v = Ok k -> passes names k.
Proof.
  intros Hf Hk Hne. destruct v as [|s| | |]; try discriminate.
  injection Hk as <-. destruct names as [|n names]; [congruence|].
  cbn [is_nil negb andb] in Hf. apply negb_false_iff in Hf.
  now apply str_in_In.
Qed.

Lemma set_cell_entry_ok cl pl bl busl (ck section nk : string) (v : pyval) (a : pydict) :
  all_in (top_ok cl pl bl busl) a ->
  passes cl ck ->
  In section ["pin"; "bundle"; "bus"] ->
  passes (section_names pl bl busl section) nk ->
  all_in (top_ok cl pl bl busl) (set_cell_entry ck section nk v a).
Proof.
  intros Ha Hck Hsec Hnk. unfold set_cell_entry.
  set (cells := sub_dict "cell" a).
  set (cell := sub_dict ck cells).
  set (sect := sub_dict section cell).
  assert (Hcells : all_in (cell_ok cl pl bl busl) cells).
  { apply (sub_dict_all_in _ (all_in (cell_ok cl pl bl busl)) "cell" a Ha).
    - intros k x [].
    - intros x (_ & x' & E & Hx). now injection E as <-. }
  assert (Hcell : all_in (section_ok pl bl busl) cell).
  { apply (sub_dict_all_in _ (all_in (section_ok pl bl busl)) ck cells Hcells).
    - intros k x [].
    - intros x (_ & x' & E & Hx). now injection E as <-. }
  assert (Hsect : forall n, In n (dict_keys sect) ->
                            passes (section_names pl bl busl section) n).
  { apply (sub_dict_all_in _ (fun x => forall n, In n (dict_keys x) -> _)
             section cell Hcell).
    - intros n [].
    - intros x (_ & x' & E & Hx). now injection E as <-. }
  intros k x Hin. apply dict_set_In in Hin.
  destruct Hin as [[-> ->]|Hin]; [|exact (Ha k x Hin)].
  split; [reflexivity|]. eexists. split; [reflexivity|].
  intros c cv Hc. apply dict_set_In in Hc.
  destruct Hc as [[-> ->]|Hc]; [|exact (Hcells c cv Hc)].
  split; [exact Hck|]. eexists. split; [reflexivity|].
  intros s sv Hs. apply dict_set_In in Hs.
  destruct Hs as [[-> ->]|Hs]; [|exact (Hcell s sv Hs)].
  split; [exact Hsec|]. eexists. split; [reflexivity|].
  intros n Hn. apply keys_set_In in Hn. destruct Hn as [->|Hn]; auto.
Qed.

Lemma entry_ok cl pl bl busl (g : pydict) (names : list string)
      (info : result pydict) (section : string) (cellName : pyval) (a a' : pydict) :
  In section ["pin"; "bundle"; "bus"] ->
  section_names pl bl busl section = names ->
  negb (is_nil cl) && negb (val_in cellName cl) = false ->
  all_in (top_ok cl pl bl busl) a ->
  (let* name := getitem "name" g in
   if negb (is_nil names) && negb (val_in name names) then Ok a
   else
     let* d := info in
     if is_nil d then Ok a
     else
       let* ck := as_key cellName in
       let* nk := as_key name in
       Ok (set_cell_entry ck section nk (VDict d) a)) = Ok a' ->
  all_in (top_ok cl pl bl busl) a'.
Proof.
  intros Hsec Hnames Hcl Ha.
  destruct (getitem "name" g) as [name| |]; try discriminate. cbn [bind].
  destruct (negb (is_nil names) && negb (val_in name names)) eqn:Hf.
  { intros H. now injection H as <-. }
  destruct info as [d| |]; try discriminate. cbn [bind].
  destruct (is_nil d).
  { intros H. now injection H as <-. }
  destruct (as_key cellName) as [ck| |] eqn:Eck; try discriminate. cbn [bind].
  destruct (as_key name) as [nk| |] eqn:Enk; try discriminate. cbn [bind].
  intros H. injection H as <-.
  apply set_cell_entry_ok; auto.
  - now apply (filter_passes cl cellName).
  - rewrite Hnames. now apply (filter_passes names name).
Qed.

Lemma getLibPinInfo_shape (self : instance)
      (cellList bundleList busList pinList : list string) (d : pydict) :
  getLibPinInfo self cellList bundleList busList pinList = Ok d ->
  all_in (top_ok cellList pinList bundleList busList) d.
Proof.
  unfold getLibPinInfo.
  destruct (group_elems (libDic self)) as [libElems| |]; try discriminate.
  cbn [bind]. intros H.
  refine (foldM_inv (all_in _) _ libElems [] d _ _ H); [intros k v []|].
  clear H d. intros a v a' Ha _.
  destruct (as_dict (heap self) AttributeError v) as [libGroupDic| |]; try discriminate.
  cbn [bind].
  destruct (negb (type_is "cell" libGroupDic)).
  { intros H. now injection H as <-. }
  destruct (getitem "name" libGroupDic) as [cellName| |]; try discriminate.
  cbn [bind].
  destruct (negb (is_nil cellList) && negb (val_in cellName cellList)) eqn:Hcl.
  { intros H. now injection H as <-. }
  destruct (group_elems libGroupDic) as [cellElems| |]; try discriminate.
  cbn [bind]. intros H.
  refine (foldM_inv (all_in _) _ cellElems a a' Ha _ H).
  clear H a' Ha a. intros a v' a' Ha _.
  destruct (as_dict (heap self) TypeError v') as [cellGroupDic| |]; try discriminate.
  cbn [bind].
  destruct (getitem "type" cellGroupDic) as [t| |]; try discriminate.
  cbn [bind]. rewrite section_dispatch.
  destruct (val_is "pin" t); [|destruct (val_is "bundle" t); [|destruct (val_is "bus" t)]].
  - apply (entry_ok cellList pinList bundleList busList cellGroupDic pinList
             _ "pin" cellName a a'); auto.
    now left.
  - apply (entry_ok cellList pinList bundleList busList cellGroupDic bundleList
             _ "bundle" cellName a a'); auto.
    right; now left.
  - apply (entry_ok cellList pinList bundleList busList cellGroupDic busList
             _ "bus" cellName a a'); auto.
    right; right; now left.
  - intros H. now injection H as <-.
Qed.

(** X14.  The filters of [getLibPinInfo] let nothing else through.  Its
    result has no key but [cell]; under it, when cells are requested,
    only requested cells; under a cell no key but [pin], [bundle] and
    [bus]; and under each of these, when pins, bundles or buses are
    requested, only requested names.  An empty list filters nothing. *)
Theorem X14_getLibPinInfo_filters
        (self : instance) (cellList bundleList busList pinList : list string)
        (d : pydict) :
  getLibPinInfo self cellList bundleList busList pinList = Ok d ->
  (forall k, In k (dict_keys d) -> k = "cell") /\
  (forall c, In c (dict_keys (sub_dict "cell" d)) -> passes cellList c) /\
  (forall c s, In s (dict_keys (sub_dict c (sub_dict "cell" d))) ->
               In s ["pin"; "bundle"; "bus"]) /\
  (forall c n, In n (dict_keys (sub_dict "pin" (sub_dict c (sub_dict "cell" d)))) ->
               passes pinList n) /\
  (forall c n, In n (dict_keys (sub_dict "bundle" (sub_dict c (sub_dict "cell" d)))) ->
               passes bundleList n) /\
  (forall c n, In n (dict_keys (sub_dict "bus" (sub_dict c (sub_dict "cell" d)))) ->
               passes busList n).
Proof.
  intros H. apply getLibPinInfo_shape in H.
  assert (Hcells : all_in (cell_ok cellList pinList bundleList busList)
                          (sub_dict "cell" d)).
  { apply (sub_dict_all_in _ (all_in (cell_ok cellList pinList bundleList busList))
             "cell" d H).
    - intros k x [].
    - intros x (_ & x' & E & Hx). now injection E as <-. }
  assert (Hcell : forall c, all_in (section_ok pinList bundleList busList)
                                   (sub_dict c (sub_dict "cell" d))).
  { intros c.
    apply (sub_dict_all_in _ (all_in (section_ok pinList bundleList busList))
             c _ Hcells).
    - intros k x [].
    - intros x (_ & x' & E & Hx). now injection E as <-. }
  assert (Hsect : forall c s n,
            In n (dict_keys (sub_dict s (sub_dict c (sub_dict "cell" d)))) ->
            passes (section_names pinList bundleList busList s) n).
  { intros c s.
    apply (sub_dict_all_in _ (fun x => forall n, In n (dict_keys x) -> _)
             s _ (Hcell c)).
    - intros n [].
    - intros x (_ & x' & E & Hx). now injection E as <-. }
  split; [|split; [|split; [|split; [|split]]]].
  - intros k Hk. apply keys_In in Hk. destruct Hk as [v Hv].
    now destruct (H k v Hv).
  - intros c Hc. apply keys_In in Hc. destruct Hc as [v Hv].
    now destruct (Hcells c v Hv).
  - intros c s Hs. apply keys_In in Hs. destruct Hs as [v Hv].
    now destruct (Hcell c s v Hv).
  - intros c n Hn. exact (Hsect c "pin" n Hn).
  - intros c n Hn. exact (Hsect c "bundle" n Hn).
  - intros c n Hn. exact (Hsect c "bus" n Hn).
Qed.

Lemma X14_witness :
  let d := [("cell",
             VDict [("A", VDict [("pin", VDict [("X",
                VDict [("timing", VList [VDict [("related_pin", VStr "Y")]])])])])])] in
  (forall k, In k (dict_keys d) -> k = "cell") /\
  (forall c, In c (dict_keys (sub_dict "cell" d)) -> passes ["A"; "Q"] c) /\
  (forall c s, In s (dict_keys (sub_dict c (sub_dict "cell" d))) ->
               In s ["pin"; "bundle"; "bus"]) /\
  (forall c n, In n (dict_keys (sub_dict "pin" (sub_dict c (sub_dict "cell" d)))) ->
               passes ["X"] n) /\
  (forall c n, In n (dict_keys (sub_dict "bundle" (sub_dict c (sub_dict "cell" d)))) ->
               passes [] n) /\
  (forall c n, In n (dict_keys (sub_dict "bus" (sub_dict c (sub_dict "cell" d)))) ->
               passes [] n).
Proof.
  intros d.
  apply (X14_getLibPinInfo_filters (parsed two_cells) ["A"; "Q"] [] [] ["X"] d).
  vm_compute; reflexivity.
Defined.

(** ** The records are dictionaries *)

Lemma apply_attr_is_dict d a : is_dict d -> is_dict (apply_attr d a).
Proof.
  unfold is_dict. destruct a as [[c key] v]. cbn [apply_attr]. intros H.
  destruct c.
  - unfold add_complex. destruct (dict_get key d) as [[]|]; now apply dict_set_nodup.
  - now apply dict_set_nodup.
Qed.

Lemma Forall_store_set (P : pydict -> Prop) store n d :
  Forall P store -> P d -> Forall P (store_set store n d).
Proof.
  intros Hall Hd. unfold store_set.
  assert (Hparts : forall m, Forall P (firstn m store) /\ Forall P (skipn m store)).
  { intros m. apply List.Forall_app. now rewrite firstn_skipn. }
  apply List.Forall_app. split; [apply Hparts|].
  constructor; [exact Hd | apply Hparts].
Qed.

Lemma change_is_dict st st' :
  change st st' -> Forall is_dict (groupList st) -> Forall is_dict (groupList st').
Proof.
  intros [(a & Hu & _) | [(depth & t & n & Hg & _) | [(_ & Hg & _) | (Hg & _)]]] Hall;
    try (now rewrite Hg).
  - unfold update_group in Hu.
    destruct (py_norm _ _) as [k|]; [|discriminate].
    destruct (nth_error (groupList st) k) as [d0|] eqn:Ed; [|discriminate].
    injection Hu as Hu. rewrite <- Hu.
    apply (Forall_store_set is_dict (groupList st) k); [exact Hall|].
    apply apply_attr_is_dict.
    rewrite List.Forall_forall in Hall. apply Hall. eapply nth_error_In; eauto.
  - rewrite Hg. apply List.Forall_app. split; [exact Hall|].
    constructor; [|constructor]. unfold is_dict. cbn.
    repeat constructor; simpl; intuition discriminate.
Qed.

Lemma run_is_dict lines : forall st st',
  run st lines = Ok st' ->
  Forall is_dict (groupList st) -> Forall is_dict (groupList st').
Proof.
  induction lines as [|line rest IH]; intros st st' H Hall.
  - now injection H as <-.
  - simpl in H. destruct (step st line) as [st1| |] eqn:Es; try discriminate.
    cbn [bind] in H. apply step_inv in Es. destruct Es as (_ & _ & Hc).
    apply (IH st1 st' H). now apply (change_is_dict st st1).
Qed.

Lemma attach_is_dict store i store' :
  attach store i = Ok store' -> Forall is_dict store -> Forall is_dict store'.
Proof.
  unfold attach. intros H Hall.
  destruct (nth_error store i) as [g|]; [|discriminate].
  destruct (dict_get "fatherGroupNum" g) as [[f| | | |]|]; try discriminate.
  destruct (f =? -1)%Z; [now injection H as <-|].
  destruct (py_norm (length store) f) as [p|]; [|discriminate].
  destruct (nth_error store p) as [father|] eqn:Ep; [|discriminate].
  assert (Hf : is_dict father).
  { rewrite List.Forall_forall in Hall. apply Hall. eapply nth_error_In; eauto. }
  assert (Hf1 : is_dict (if dict_has "group" father then father
                         else dict_set "group" (VList []) father)).
  { destruct (dict_has "group" father); [exact Hf|]. now apply dict_set_nodup. }
  destruct (dict_get "group" _) as [[| |l| |]|]; try discriminate.
  injection H as <-. apply Forall_store_set; [exact Hall|].
  now apply dict_set_nodup.
Qed.

Lemma organize_loop_is_dict i : forall store store',
  organize_loop i store = Ok store' -> Forall is_dict store -> Forall is_dict store'.
Proof.
  induction i as [|i IH]; intros store store' H Hall.
  - now injection H as <-.
  - cbn [organize_loop] in H.
    destruct (attach store (S i)) as [s1| |] eqn:Ea; try discriminate.
    cbn [bind] in H. apply (IH s1 store' H). now apply (attach_is_dict store (S i)).
Qed.

Lemma parse_file_is_dict w libFile w' self :
  parse_file w libFile = (w', Ok self) -> Forall is_dict (heap self).
Proof.
  unfold parse_file, libertyParser.
  destruct (files w !! libFile) as [content|]; [|discriminate].
  destruct (run initial_pstate (readlines content)) as [st| |] eqn:Er;
    cbn [bind]; try discriminate.
  intros H. injection H as _ H. unfold organizeData in H.
  destruct (organize_loop _ (groupList st)) as [store| |] eqn:Eo; try discriminate.
  cbn [bind] in H. destruct store as [|d0 store]; [discriminate|].
  injection H as <-. cbn [heap].
  apply (organize_loop_is_dict _ _ _ Eo).
  apply (run_is_dict _ _ _ Er). constructor.
Qed.

Lemma init_is_dict w libFile cellList w' self :
  init w libFile cellList = (w', Ok self) -> Forall is_dict (heap self).
Proof.
  unfold init. destruct (files w !! libFile); [|discriminate].
  destruct cellList as [|c cl].
  - apply parse_file_is_dict.
  - destruct (genCellLibFile w libFile (c :: cl)) as [w1 [path| |]]; try discriminate.
    apply parse_file_is_dict.
Qed.

(** ** [getUnit] *)

Lemma dict_set_fresh {V} (k : string) (v : V) (d : dict V) :
  ~ In k (dict_keys d) -> dict_set k v d = d ++ [(k, v)].
Proof.
  induction d as [|[k' v'] d IH]; [reflexivity|]. cbn [dict_keys map fst dict_set].
  intros H. destruct (String.eqb_spec k k') as [->|Hne].
  - exfalso. apply H. now left.
  - cbn [app]. f_equal. apply IH. intros Hin. apply H. now right.
Qed.

Lemma getUnit_filter (d : pydict) : forall acc : pydict,
  List.NoDup (dict_keys (acc ++ d)) ->
  fold_left (fun unitDic '(key, value) =>
               if endswith key "_unit" then dict_set key value unitDic
               else unitDic) d acc
  = acc ++ List.filter (fun '(key, _) => endswith key "_unit") d.
Proof.
  induction d as [|[k v] d IH]; intros acc Hnd; cbn [fold_left List.filter].
  - now rewrite app_nil_r.
  - assert (Hk : ~ In k (dict_keys acc)).
    { unfold dict_keys in Hnd. rewrite map_app in Hnd. cbn [map fst] in Hnd.
      apply List.NoDup_remove_2 in Hnd. intros Hin. apply Hnd.
      apply in_or_app. now left. }
    destruct (endswith k "_unit").
    + rewrite (dict_set_fresh k v acc Hk), IH.
      * now rewrite <- app_assoc.
      * now rewrite <- app_assoc.
    + rewrite IH; [reflexivity|].
      unfold dict_keys in *. rewrite map_app in *. cbn [map fst] in Hnd.
      now apply List.NoDup_remove_1 in Hnd.
Qed.

(** X15.  On a library built by the constructor, [getUnit] returns the
    attributes of the library group whose name ends with [_unit], each
    with its value, in the order in which the library group holds them,
    and nothing else. *)
Theorem X15_getUnit_is_the_unit_attributes
        (w w' : world) (libFile : string) (cellList : list string) (self : instance) :
  init w libFile cellList = (w', Ok self) ->
  getUnit self =
    List.filter (fun '(key, _) => endswith key "_unit") (libDic self).
Proof.
  intros H. apply init_is_dict in H. unfold getUnit.
  rewrite getUnit_filter; [reflexivity|]. cbn [app].
  unfold libDic. destruct (heap self) as [|d0 store]; [constructor|].
  cbn [nth]. now apply List.Forall_cons_iff in H.
Qed.

Lemma X15_witness :
  getUnit (parsed with_units) =
    [("time_unit", VStr "1ns"); ("capacitive_load_unit", VStr "(1,pf)");
     ("voltage_unit", VStr "1V")].
Proof.
  rewrite (X15_getUnit_is_the_unit_attributes
             (one_file "in.lib" with_units)
             (fst (init (one_file "in.lib" with_units) "in.lib" []))
             "in.lib" [] (parsed with_units)).
  - vm_compute; reflexivity.
  - vm_compute; reflexivity.
Defined.

(** ** [getCellLeakagePower] *)

Lemma as_dict_referred store bad v sub :
  as_dict store bad v = Ok sub -> referred store v = [sub].
Proof.
  unfold as_dict, referred. destruct v; try discriminate.
  destruct (nth_error store i); [|discriminate]. intros H. now injection H as ->.
Qed.

(** The loop over the sub-groups of one cell. *)
Lemma leakage_loop store (cellName : pyval) (celems : list pyval) :
  forall acc acc' : pydict,
  foldM (fun cellLeakagePowerDic v' =>
           let* cellGroupDic := as_dict store AttributeError v' in
           if type_is "leakage_power" cellGroupDic then
             let leakagePowerDic := leakage_info cellGroupDic in
             let* key := as_key cellName in
             Ok (append_to key (VDict leakagePowerDic) cellLeakagePowerDic)
           else Ok cellLeakagePowerDic)
        acc celems = Ok acc' ->
  Forall2 (fun v sub => as_dict store AttributeError v = Ok sub)
          celems (flat_map (referred store) celems) /\
  forall k L,
    dict_get k acc = listed L ->
    dict_get k acc' =
      listed (L ++ if val_is k cellName
                   then map leakage_info
                            (List.filter (type_is "leakage_power")
                                         (flat_map (referred store) celems))
                   else []).
Proof.
  induction celems as [|v celems IH]; intros acc acc' H.
  - injection H as <-. split; [constructor|].
    intros k L HL. cbn. destruct (val_is k cellName); now rewrite app_nil_r.
  - cbn [foldM] in H.
    destruct (as_dict store AttributeError v) as [sub| |] eqn:Ev; try discriminate.
    cbn [bind] in H. cbn [flat_map].
    rewrite (as_dict_referred _ _ _ _ Ev). cbn [app].
    destruct (type_is "leakage_power" sub) eqn:Et.
    + destruct (as_key cellName) as [key| |] eqn:Ek; try discriminate.
      cbn [bind] in H. apply IH in H. destruct H as [H1 H2].
      split; [now constructor|].
      intros k L HL. cbn [List.filter]. rewrite Et. cbn [map].
      destruct cellName as [|s| | |]; try discriminate. injection Ek as <-.
      cbn [val_is] in *.
      destruct (String.eqb_spec s k) as [->|Hne].
      * rewrite (H2 k (L ++ [leakage_info sub])).
        -- now rewrite String.eqb_refl, <- app_assoc.
        -- now apply get_append_to_eq.
      * rewrite (H2 k L).
        -- apply String.eqb_neq in Hne. now rewrite Hne.
        -- rewrite get_append_to_ne by congruence. exact HL.
    + apply IH in H. destruct H as [H1 H2].
      split; [now constructor|].
      intros k L HL. cbn [List.filter]. rewrite Et. now apply H2.
Qed.

Lemma in_filter_cons {A} (f : A -> bool) (x y : A) (l : list A) :
  In y (List.filter f (x :: l)) -> (y = x /\ f x = true) \/ In y (List.filter f l).
Proof.
  cbn [List.filter]. destruct (f x) eqn:E; [|now right].
  intros [<-|H]; [now left | now right].
Qed.

(** The loop over the groups of the library. *)
Lemma leakage_cells store (cellList : list string) (elems : list pyval) :
  forall acc d : pydict,
  foldM (fun cellLeakagePowerDic v =>
     let* groupDic := as_dict store AttributeError v in
     if type_is "cell" groupDic then
       let* cellName := getitem "name" groupDic in
       if is_nil cellList || val_in cellName cellList then
         let* cellElems := group_elems groupDic in
         foldM (fun cellLeakagePowerDic v' =>
            let* cellGroupDic := as_dict store AttributeError v' in
            if type_is "leakage_power" cellGroupDic then
              let leakagePowerDic := leakage_info cellGroupDic in
              let* key := as_key cellName in
              Ok (append_to key (VDict leakagePowerDic) cellLeakagePowerDic)
            else Ok cellLeakagePowerDic)
          cellLeakagePowerDic cellElems
       else Ok cellLeakagePowerDic
     else Ok cellLeakagePowerDic)
    acc elems = Ok d ->
  Forall2 (fun v c => as_dict store AttributeError v = Ok c)
          elems (flat_map (referred store) elems) /\
  (forall k c,
     In c (List.filter (cell_named cellList k) (flat_map (referred store) elems)) ->
     exists celems,
       group_elems c = Ok celems /\
       Forall2 (fun v sub => as_dict store AttributeError v = Ok sub)
               celems (sub_groups store c)) /\
  forall k L,
    dict_get k acc = listed L ->
    dict_get k d =
      listed (L ++ flat_map (leaks store)
                     (List.filter (cell_named cellList k)
                                  (flat_map (referred store) elems))).
Proof.
  induction elems as [|v elems IH]; intros acc d H.
  - injection H as <-. split; [constructor|]. split; [intros k c []|].
    intros k L HL. cbn. now rewrite app_nil_r.
  - cbn [foldM] in H.
    destruct (as_dict store AttributeError v) as [c| |] eqn:Ev; try discriminate.
    cbn [bind] in H. cbn [flat_map].
    rewrite (as_dict_referred _ _ _ _ Ev). cbn [app].
    assert (Hskip : forall acc1,
      (forall k, cell_named cellList k c = false) ->
      foldM (fun cellLeakagePowerDic v =>
         let* groupDic := as_dict store AttributeError v in
         if type_is "cell" groupDic then
           let* cellName := getitem "name" groupDic in
           if is_nil cellList || val_in cellName cellList then
             let* cellElems := group_elems groupDic in
             foldM (fun cellLeakagePowerDic v' =>
                let* cellGroupDic := as_dict store AttributeError v' in
                if type_is "leakage_power" cellGroupDic then
                  let leakagePowerDic := leakage_info cellGroupDic in
                  let* key := as_key cellName in
                  Ok (append_to key (VDict leakagePowerDic) cellLeakagePowerDic)
                else Ok cellLeakagePowerDic)
              cellLeakagePowerDic cellElems
           else Ok cellLeakagePowerDic
         else Ok cellLeakagePowerDic)
        acc1 elems = Ok d ->
      (forall k L, dict_get k acc = listed L -> dict_get k acc1 = listed L) ->
      Forall2 (fun v c => as_dict store AttributeError v = Ok c)
              (v :: elems) (c :: flat_map (referred store) elems) /\
      (forall k c0,
         In c0 (List.filter (cell_named cellList k)
                            (c :: flat_map (referred store) elems)) ->
         exists celems,
           group_elems c0 = Ok celems /\
           Forall2 (fun v sub => as_dict store AttributeError v = Ok sub)
                   celems (sub_groups store c0)) /\
      forall k L,
        dict_get k acc = listed L ->
        dict_get k d =
          listed (L ++ flat_map (leaks store)
                         (List.filter (cell_named cellList k)
                                      (c :: flat_map (referred store) elems)))).
    { intros acc1 Hno H1 Hsame. apply IH in H1. destruct H1 as (F & G & K).
      split; [now constructor|]. split.
      - intros k c0 Hin. apply in_filter_cons in Hin.
        destruct Hin as [[_ Hc]|Hin]; [|now apply (G k)].
        now rewrite Hno in Hc.
      - intros k L HL. cbn [List.filter]. rewrite Hno. apply K. now apply Hsame. }
    destruct (type_is "cell" c) eqn:Ec.
    2:{ apply (Hskip acc); [|exact H|auto].
        intros k. unfold cell_named. now rewrite Ec. }
    destruct (getitem "name" c) as [cellName| |] eqn:En; try discriminate.
    cbn [bind] in H.
    assert (Hname : dict_get "name" c = Some cellName).
    { unfold getitem in En. destruct (dict_get "name" c); [|discriminate].
      now injection En as ->. }
    destruct (is_nil cellList || val_in cellName cellList) eqn:Hcl.
    2:{ apply (Hskip acc); [|exact H|auto].
        intros k. unfold cell_named. rewrite Ec, Hname. cbn [andb].
        destruct cellName; try reflexivity. cbn [val_in] in Hcl.
        rewrite Hcl. apply andb_false_r. }
    destruct (group_elems c) as [celems| |] eqn:Eg; try discriminate.
    cbn [bind] in H.
    match type of H with
    | (let* acc1 := ?inner in _) = _ => destruct inner as [acc1| |] eqn:Ei
    end; try discriminate.
    cbn [bind] in H. apply leakage_loop in Ei. destruct Ei as [Fc Kc].
    apply IH in H. destruct H as (F & G & K).
    assert (Hsub : sub_groups store c = flat_map (referred store) celems)
      by (unfold sub_groups; now rewrite Eg).
    assert (Hcn : forall k, cell_named cellList k c = val_is k cellName).
    { intros k. unfold cell_named. rewrite Ec, Hname. cbn [andb].
      destruct cellName; try reflexivity. cbn [val_in val_is] in *.
      rewrite Hcl. apply andb_true_r. }
    split; [now constructor|]. split.
    + intros k c0 Hin. apply in_filter_cons in Hin.
      destruct Hin as [[-> _]|Hin]; [|now apply (G k)].
      exists celems. split; [exact Eg|]. now rewrite Hsub.
    + intros k L HL. cbn [List.filter]. rewrite Hcn.
      specialize (Kc k L HL). apply K in Kc. rewrite Kc.
      destruct (val_is k cellName); cbn [flat_map].
      * unfold leaks at 2. now rewrite Hsub, <- app_assoc.
      * now rewrite app_nil_r.
Qed.

(** X16.  [getCellLeakagePower] goes through every group of the library.
    For every name, what its result holds under the name is the list of
    what the cells of that name contribute, in the order of the library,
    when [cellList] is empty or holds the name: for each [leakage_power]
    sub-group of the cell, in order, its attributes [value], [when] and
    [related_pg_pin] and no other, in the order of the group.  A name
    without such a sub-group has no entry. *)
Theorem X16_leakage_entries
        (self : instance) (cellList : list string) (d : pydict) :
  getCellLeakagePower self cellList = Ok d ->
  let store := heap self in
  let cells := sub_groups store (libDic self) in
  (exists elems,
     group_elems (libDic self) = Ok elems /\
     Forall2 (fun v c => as_dict store AttributeError v = Ok c) elems cells) /\
  (forall k c,
     In c (List.filter (cell_named cellList k) cells) ->
     exists celems,
       group_elems c = Ok celems /\
       Forall2 (fun v sub => as_dict store AttributeError v = Ok sub)
               celems (sub_groups store c)) /\
  forall k,
    dict_get k d =
      listed (flat_map (leaks store) (List.filter (cell_named cellList k) cells)).
Proof.
  intros H store cells. unfold getCellLeakagePower in H.
  unfold cells, sub_groups, store.
  destruct (group_elems (libDic self)) as [elems| |]; try discriminate.
  cbn [bind] in H. apply (leakage_cells (heap self) cellList elems [] d) in H.
  destruct H as (F & G & K). split; [exists elems; auto|]. split; [exact G|].
  intros k. now apply (K k []).
Qed.

(** Cell [A] has two [leakage_power] groups, cell [B] none. *)
Lemma X16_witness :
  let self := parsed with_units in
  let d := [("A", VList [VDict [("value", VStr "0.5"); ("when", VStr "!X")];
                         VDict [("value", VStr "0.7")]])] in
  let store := heap self in
  let cells := sub_groups store (libDic self) in
  getCellLeakagePower self ["A"; "B"] = Ok d /\
  ((exists elems,
      group_elems (libDic self) = Ok elems /\
      Forall2 (fun v c => as_dict store AttributeError v = Ok c) elems cells) /\
   (forall k c,
      In c (List.filter (cell_named ["A"; "B"] k) cells) ->
      exists celems,
        group_elems c = Ok celems /\
        Forall2 (fun v sub => as_dict store AttributeError v = Ok sub)
                celems (sub_groups store c)) /\
   forall k,
     dict_get k d =
       listed (flat_map (leaks store) (List.filter (cell_named ["A"; "B"] k) cells))) /\
  listed (flat_map (leaks store) (List.filter (cell_named ["A"; "B"] "A") cells)) =
    Some (VList [VDict [("value", VStr "0.5"); ("when", VStr "!X")];
                 VDict [("value", VStr "0.7")]]) /\
  listed (flat_map (leaks store) (List.filter (cell_named ["A"; "B"] "B") cells)) = None.
Proof.
  intros self d store cells.
  assert (Hd : getCellLeakagePower self ["A"; "B"] = Ok d) by (vm_compute; reflexivity).
  split; [exact Hd|]. split.
  - exact (X16_leakage_entries self ["A"; "B"] d Hd).
  - split; vm_compute; reflexivity.
Defined.

(** ** The constructor and the files *)

Lemma parse_file_files w libFile :
  files (fst (parse_file w libFile)) = files w.
Proof.
  unfold parse_file. destruct (files w !! libFile) as [content|]; [|reflexivity].
  destruct (libertyParser content) as [[gl printed]| |]; reflexivity.
Qed.

(** X17.  The constructor never writes to the library file.  Without a
    cell list it writes no file at all; with one, the only path it may
    write to is that of the reduced file.  When the library file does
    not exist it prints one message and exits with status 1. *)
Theorem X17_constructor_leaves_the_library_file
        (w : world) (libFile : string) (cellList : list string) :
  files (fst (init w libFile cellList)) !! libFile = files w !! libFile /\
  (forall path, path <> cellLibFile_of libFile cellList ->
     files (fst (init w libFile cellList)) !! path = files w !! path) /\
  (cellList = [] -> files (fst (init w libFile cellList)) = files w) /\
  (files w !! libFile = None ->
     init w libFile cellList =
       (mkWorld (files w) (errors w ++ [ErrNoSuchFile libFile]), SysExit 1)).
Proof.
  assert (H : (forall path, path <> cellLibFile_of libFile cellList ->
                 files (fst (init w libFile cellList)) !! path = files w !! path) /\
              (cellList = [] -> files (fst (init w libFile cellList)) = files w) /\
              (files w !! libFile = None ->
                 init w libFile cellList =
                   (mkWorld (files w) (errors w ++ [ErrNoSuchFile libFile]), SysExit 1))).
  { unfold init. destruct (files w !! libFile) as [content|] eqn:Ef.
    2:{ repeat split; reflexivity. }
    destruct cellList as [|c cl].
    - split; [|split; [|discriminate]].
      + intros path _. now rewrite parse_file_files.
      + intros _. apply parse_file_files.
    - split; [|split; discriminate].
      intros path Hp.
      destruct (genCellLibFile_files w libFile (c :: cl)) as [H1 _].
      specialize (H1 path Hp).
      destruct (genCellLibFile w libFile (c :: cl)) as [w1 [p| |]]; cbn [fst] in *;
        try exact H1.
      now rewrite parse_file_files. }
  destruct H as (H1 & H2 & H3). split; [|auto].
  apply H1. intros E. symmetry in E. now apply cellLibFile_of_differs in E.
Qed.

(** ** Files the constructor accepts *)

Lemma apply_attr_has d a k :
  dict_has k d = true -> dict_has k (apply_attr d a) = true.
Proof.
  intros H. apply dict_has_In. apply dict_has_In in H.
  destruct (apply_attr_keys d a) as [more ->]. apply in_or_app. now left.
Qed.

Lemma apply_attr_father d a f :
  dict_get "fatherGroupNum" (apply_attr d a) = Some (VInt f) ->
  dict_get "fatherGroupNum" d = Some (VInt f).
Proof.
  destruct a as [[c key] v]. cbn [apply_attr].
  destruct (String.eqb_spec key "fatherGroupNum") as [->|Hne].
  - destruct c.
    + unfold add_complex.
      destruct (dict_get "fatherGroupNum" d) as [[]|]; rewrite dict_get_set_eq;
        discriminate.
    + unfold add_simple. rewrite dict_get_set_eq. discriminate.
  - destruct c.
    + unfold add_complex.
      destruct (dict_get key d) as [[]|]; now rewrite dict_get_set_ne.
    + unfold add_simple. now rewrite dict_get_set_ne.
Qed.

Lemma change_fathered st st' :
  stack_ok st -> fathered (groupList st) -> change st st' -> fathered (groupList st').
Proof.
  intros (Hnum & _ & Hrange & _) Hf.
  intros [(a & Hu & _) | [(depth & t & n & Hg & _) | [(_ & Hg & _) | (Hg & _)]]];
    try (now rewrite Hg).
  - unfold update_group in Hu.
    destruct (py_norm _ _) as [k|]; [|discriminate].
    destruct (nth_error (groupList st) k) as [d0|] eqn:Ed; [|discriminate].
    injection Hu as Hu. rewrite <- Hu.
    assert (Hk : k < length (groupList st)) by (apply nth_error_Some; congruence).
    intros i d Hi.
    change (nth_error (store_set (groupList st) k (apply_attr d0 a)) i = Some d) in Hi.
    destruct (Nat.eq_dec k i) as [<-|Hne].
    + rewrite (store_set_eq _ _ _ _ Ed) in Hi. injection Hi as <-.
      destruct (Hf k d0 Ed) as [Hn Hfa]. split.
      * now apply apply_attr_has.
      * intros f Hfather. apply Hfa. now apply (apply_attr_father d0 a).
    + rewrite store_set_ne in Hi by assumption. now apply Hf.
  - rewrite Hg. intros i d Hi.
    destruct (Nat.lt_ge_cases i (length (groupList st))) as [Hlt|Hge].
    + rewrite nth_error_app1 in Hi by assumption. now apply Hf.
    + rewrite nth_error_app2 in Hi by assumption.
      destruct (i - length (groupList st)) as [|j] eqn:Ej; [|now destruct j].
      injection Hi as <-. split; [reflexivity|].
      cbn [dict_get String.eqb Ascii.eqb Bool.eqb]. intros f H. injection H as <-.
      assert (i = length (groupList st)) by lia. subst i.
      destruct (getLast_range _ _ Hrange) as [-> | H]; lia.
Qed.

Lemma run_fathered lines : forall st st',
  stack_ok st -> fathered (groupList st) ->
  run st lines = Ok st' -> fathered (groupList st').
Proof.
  induction lines as [|line rest IH]; intros st st' Hs Hf H.
  - now injection H as <-.
  - simpl in H. destruct (step st line) as [st1| |] eqn:Es; try discriminate.
    cbn [bind] in H. apply step_inv in Es. destruct Es as (_ & _ & Hc).
    apply (IH st1 st'); auto.
    + now apply (change_stack_ok st).
    + now apply (change_fathered st).
Qed.

Lemma fathered_flat_ok (gl : list pydict) :
  gl <> [] -> fathered gl ->
  Forall (fun d => dict_has "group" d = false /\ father_of d <> None) gl ->
  flat_ok gl = true.
Proof.
  intros Hne Hf Hall. unfold flat_ok. apply andb_true_iff. split.
  - now destruct gl.
  - apply forallb_forall. intros [i d] Hin.
    apply in_enumerate_inv in Hin. destruct Hin as [_ Hi].
    rewrite Nat.sub_0_r in Hi.
    destruct (Hf i d Hi) as [Hn Hfa].
    rewrite List.Forall_forall in Hall.
    destruct (Hall d (nth_error_In _ _ Hi)) as [Hg Hfo].
    unfold father_of in *.
    destruct (dict_get "fatherGroupNum" d) as [[f| | | |]|]; try congruence.
    specialize (Hfa f eq_refl). rewrite Hg, Hn.
    repeat (apply andb_true_iff; split); auto; lia.
Qed.

Lemma organizeData_ok (gl : list pydict) :
  flat_ok gl = true ->
  exists self,
    organizeData gl = Ok self /\ length (heap self) = length gl /\
    forall p d, nth_error gl p = Some d ->
      nth_error (heap self) p = Some (with_children d (children_of gl p)).
Proof.
  intros Hok.
  assert (Hne : 0 < length gl).
  { destruct gl; [discriminate | simpl; lia]. }
  destruct (organize_loop_organized gl (length gl - 1) gl Hok)
    as (store & Hloop & Hlen & Hinv); [lia | |].
  { replace (S (length gl - 1)) with (length gl) by lia.
    split; [reflexivity|]. intros p d Hp. now rewrite children_from_end. }
  exists (mkInstance store). unfold organizeData. rewrite Hloop. cbn [bind].
  destruct store as [|s0 store'] eqn:Es; [simpl in Hlen; lia|]. rewrite <- Es in *.
  split; [reflexivity|]. split; [exact Hlen|].
  intros p d Hp. cbn [heap]. rewrite <- children_from_1 by assumption.
  now apply Hinv.
Qed.

(** X18.  When the line loop gets through a file and has met a group,
    and no record it built holds a key [group] or has lost its integer
    [fatherGroupNum] to an attribute of that name, the constructor
    returns a library: [organizeData] raises nothing, the messages of the
    line loop are all that is printed, and every record of the library is
    the record the line loop built, with the references to the groups
    declared directly inside it under [group], in the order of their
    declaration, when there are such groups. *)
Theorem X18_constructor_accepts_what_the_line_loop_built
        (w : world) (libFile content : string)
        (flat : list pydict) (printed : list diag) :
  files w !! libFile = Some content ->
  libertyParser content = Ok (flat, printed) ->
  flat <> [] ->
  Forall (fun d => dict_has "group" d = false /\ father_of d <> None) flat ->
  exists self,
    init w libFile [] = (mkWorld (files w) (errors w ++ printed), Ok self) /\
    length (heap self) = length flat /\
    forall p d, nth_error flat p = Some d ->
      nth_error (heap self) p = Some (with_children d (children_of flat p)).
Proof.
  intros Hfile Hparse Hne Hall.
  assert (Hok : flat_ok flat = true).
  { apply fathered_flat_ok; auto.
    unfold libertyParser in Hparse.
    destruct (run initial_pstate (readlines content)) as [st| |] eqn:Er; try discriminate.
    cbn [bind] in Hparse. injection Hparse as <- <-.
    assert (Hs0 : stack_ok initial_pstate) by (repeat split; constructor).
    assert (Hf0 : fathered (groupList initial_pstate))
      by (intros [|i] d H; discriminate).
    exact (run_fathered _ _ _ Hs0 Hf0 Er). }
  destruct (organizeData_ok flat Hok) as (self & Ho & Hlen & Hrec).
  exists self. split; [|split; [exact Hlen | exact Hrec]].
  unfold init, parse_file. now rewrite Hfile, Hparse, Ho.
Qed.

(** The library holds the cell, whose attribute is continued. *)
Lemma X18_witness :
  let flat := [[("fatherGroupNum", VInt (-1)); ("depth", VInt 0);
                ("type", VStr "library"); ("name", VStr "L")];
               [("fatherGroupNum", VInt 0); ("depth", VInt 2);
                ("type", VStr "cell"); ("name", VStr "A"); ("area", VStr "2")]] in
  (children_of flat 0 = [1] /\ children_of flat 1 = []) /\
  exists self,
    init (one_file "in.lib" continued_area) "in.lib" [] =
      (mkWorld (files (one_file "in.lib" continued_area)) ([] ++ []), Ok self) /\
    length (heap self) = length flat /\
    forall p d, nth_error flat p = Some d ->
      nth_error (heap self) p = Some (with_children d (children_of flat p)).
Proof.
  intros flat. split; [split; vm_compute; reflexivity|].
  apply (X18_constructor_accepts_what_the_line_loop_built
           (one_file "in.lib" continued_area) "in.lib" continued_area flat []).
  - vm_compute; reflexivity.
  - vm_compute; reflexivity.
  - discriminate.
  - repeat (apply List.Forall_cons; [split; [reflexivity | vm_compute; discriminate]|]).
    apply List.Forall_nil.
Defined.

(** ** Bundles and buses *)

Lemma pin_dispatch {A} (t : pyval) (a b : A) :
  match t with VStr "pin" => a | _ => b end = if val_is "pin" t then a else b.
Proof.
  destruct t as [z|s|l|i|x]; try reflexivity. unfold val_is. literal.
Qed.

Lemma sub_dict_setdefault k (d : pydict) :
  sub_dict k (setdefault_dict k d) = sub_dict k d.
Proof.
  unfold setdefault_dict, dict_has.
  destruct (dict_get k d) eqn:E; [reflexivity|].
  unfold sub_dict. now rewrite dict_get_set_eq, E.
Qed.

Lemma sub_dict_append_to k k' v (d : pydict) :
  k' <> k -> sub_dict k (append_to k' v d) = sub_dict k d.
Proof.
  intros Hne. unfold append_to, sub_dict.
  destruct (dict_get k' d) as [[]|]; now rewrite dict_get_set_ne.
Qed.

Lemma keys_setdefault k (d : pydict) x :
  In x (dict_keys (setdefault_dict k d)) -> x = k \/ In x (dict_keys d).
Proof.
  unfold setdefault_dict. destruct (dict_has k d); [now right|].
  intros H. now apply keys_set_In in H.
Qed.

Lemma add_timing_or_power_inv store t sub acc acc' :
  add_timing_or_power store t sub acc = Ok acc' ->
  sub_dict "pin" acc' = sub_dict "pin" acc /\
  forall k, In k (dict_keys acc') ->
            In k ["timing"; "internal_power"] \/ In k (dict_keys acc).
Proof.
  unfold add_timing_or_power. rewrite timing_dispatch.
  destruct (val_is "timing" t); [|destruct (val_is "internal_power" t)].
  - destruct (_getTimingGroupInfo store sub) as [e| |]; try discriminate.
    cbn [bind]. intros H. injection H as <-. split.
    + now apply sub_dict_append_to.
    + intros k Hk. apply keys_append_to in Hk. destruct Hk as [->|Hk]; auto.
      left. now left.
  - destruct (_getInternalPowerGroupInfo store sub) as [e| |]; try discriminate.
    cbn [bind]. intros H. injection H as <-. split.
    + now apply sub_dict_append_to.
    + intros k Hk. apply keys_append_to in Hk. destruct Hk as [->|Hk]; auto.
      left. right. now left.
  - intros H. injection H as <-. auto.
Qed.

Lemma pins_of_inv store pinList elems (P : pydict -> Prop) (K : list string) :
  (forall x key v, P x -> passes pinList key -> P (dict_set key v x)) ->
  forall acc0 d,
  P (sub_dict "pin" acc0) ->
  (forall k, In k (dict_keys acc0) -> In k K) ->
  pins_of store pinList elems acc0 = Ok d ->
  P (sub_dict "pin" d) /\
  forall k, In k (dict_keys d) -> In k ["pin"; "timing"; "internal_power"] \/ In k K.
Proof.
  intros HP acc0 d H0 K0 H.
  refine (foldM_inv
            (fun acc => P (sub_dict "pin" acc) /\
               forall k, In k (dict_keys acc) ->
                         In k ["pin"; "timing"; "internal_power"] \/ In k K)
            _ elems acc0 d _ _ H); [auto|].
  clear H H0 K0 acc0 d. intros a v a' [Ha Hk] _.
  destruct (as_dict store TypeError v) as [sub| |]; try discriminate. cbn [bind].
  destruct (getitem "type" sub) as [t| |]; try discriminate. cbn [bind].
  rewrite pin_dispatch. destruct (val_is "pin" t).
  - destruct (getitem "name" sub) as [pinName| |]; try discriminate. cbn [bind].
    destruct (negb (is_nil pinList) && negb (val_in pinName pinList)) eqn:Hf.
    { intros H. injection H as <-. auto. }
    assert (Hk1 : forall k, In k (dict_keys (setdefault_dict "pin" a)) ->
                            In k ["pin"; "timing"; "internal_power"] \/ In k K).
    { intros k Hin. apply keys_setdefault in Hin.
      destruct Hin as [->|Hin]; [left; now left | now apply Hk]. }
    destruct (_getPinInfo store sub) as [pinDic| |]; try discriminate. cbn [bind].
    destruct (is_nil pinDic).
    { intros H. injection H as <-. now rewrite sub_dict_setdefault. }
    destruct (as_key pinName) as [key| |] eqn:Ek; try discriminate. cbn [bind].
    intros H. injection H as <-. split.
    + unfold sub_dict at 1. rewrite dict_get_set_eq, sub_dict_setdefault.
      apply HP; [exact Ha|]. now apply (filter_passes pinList pinName).
    + intros k Hin. apply keys_set_In in Hin.
      destruct Hin as [->|Hin]; [left; now left | now apply Hk1].
  - intros H. apply add_timing_or_power_inv in H. destruct H as [E Hk'].
    split; [now rewrite E|].
    intros k Hin. apply Hk' in Hin. destruct Hin as [Hin|Hin]; [|now apply Hk].
    left. right. exact Hin.
Qed.

(** X19.  [_getBusInfo] gives a dictionary with no key but [pin],
    [timing] and [internal_power], and when pins are requested, only
    requested pins are listed under [pin]. *)
Theorem X19_bus_info_lists_requested_pins_only
        (store : list pydict) (g : pydict) (pinList : list string) (d : pydict) :
  _getBusInfo store g pinList = Ok d ->
  (forall k, In k (dict_keys d) -> In k ["pin"; "timing"; "internal_power"]) /\
  (forall n, In n (dict_keys (sub_dict "pin" d)) -> passes pinList n).
Proof.
  unfold _getBusInfo.
  destruct (group_elems g) as [elems| |]; try discriminate. cbn [bind].
  intros H.
  apply (pins_of_inv store pinList elems
           (fun x => forall n, In n (dict_keys x) -> passes pinList n) []) in H.
  - destruct H as [H1 H2]. split; [|exact H1].
    intros k Hk. apply H2 in Hk. now destruct Hk.
  - intros x key v Hx Hkey n Hn. apply keys_set_In in Hn.
    destruct Hn as [->|Hn]; auto.
  - intros n [].
  - intros k [].
Qed.

Lemma X19_witness :
  let store := [[("type", VStr "bus"); ("name", VStr "D"); ("group", VList [VRef 1; VRef 3])];
                [("type", VStr "pin"); ("name", VStr "D[0]"); ("group", VList [VRef 2])];
                [("type", VStr "timing"); ("name", VStr ""); ("related_pin", VStr "CK")];
                [("type", VStr "pin"); ("name", VStr "D[1]"); ("group", VList [VRef 2])]] in
  let d := [("pin", VDict [("D[1]",
              VDict [("timing", VList [VDict [("related_pin", VStr "CK")]])])])] in
  (forall k, In k (dict_keys d) -> In k ["pin"; "timing"; "internal_power"]) /\
  (forall n, In n (dict_keys (sub_dict "pin" d)) -> passes ["D[1]"] n).
Proof.
  intros store d.
  apply (X19_bus_info_lists_requested_pins_only store (nth 0 store []) ["D[1]"] d).
  vm_compute; reflexivity.
Defined.

Lemma members_declared (pins : list string) : forall acc : pydict,
  let declared := fold_left (fun acc pinName => setdefault_dict (strip pinName) acc)
                            pins acc in
  (forall k, dict_has k acc = true -> dict_has k declared = true) /\
  (forall p, In p pins -> dict_has (strip p) declared = true).
Proof.
  induction pins as [|p pins IH]; intros acc; cbn [fold_left].
  - split; [auto | intros p []].
  - destruct (IH (setdefault_dict (strip p) acc)) as [IH1 IH2].
    assert (Hgrow : forall k, dict_has k acc = true ->
                              dict_has k (setdefault_dict (strip p) acc) = true).
    { intros k Hk. unfold setdefault_dict.
      destruct (dict_has (strip p) acc) eqn:E; [exact Hk|].
      apply dict_has_In, keys_set_In. right. now apply dict_has_In. }
    split.
    + intros k Hk. apply IH1. now apply Hgrow.
    + intros q [<-|Hq]; [|now apply IH2].
      apply IH1. unfold setdefault_dict.
      destruct (dict_has (strip p) acc) eqn:E; [exact E|].
      unfold dict_has. now rewrite dict_get_set_eq.
Qed.

(** X20.  Every member a bundle names in its [members] attribute is
    listed under [pin] in the result of [_getBundleInfo], whatever
    [pinList] is: the filter applies to the [pin] groups of the bundle,
    not to its members. *)
Theorem X20_bundle_members_are_always_listed
        (store : list pydict) (g : pydict) (pinList : list string)
        (members : string) (d : pydict) :
  dict_get "members" g = Some (VStr members) ->
  _getBundleInfo store g pinList = Ok d ->
  forall pinName,
    In pinName (split_comma [] (chars (drop_members_punct members))) ->
    dict_has (strip pinName) (sub_dict "pin" d) = true.
Proof.
  unfold _getBundleInfo. intros -> H. cbn [bind] in H.
  destruct (group_elems g) as [elems| |]; try discriminate. cbn [bind] in H.
  set (pins := split_comma [] (chars (drop_members_punct members))) in *.
  apply (pins_of_inv store pinList elems
           (fun x => forall p, In p pins -> dict_has (strip p) x = true) ["pin"]) in H.
  - now destruct H.
  - intros x key v Hx _ p Hp. apply dict_has_In, keys_set_In. right.
    apply dict_has_In. now apply Hx.
  - cbn. intros p Hp. now apply (members_declared pins []).
  - intros k [<-|[]]. now left.
Qed.

Lemma X20_witness :
  let g := [("type", VStr "bundle"); ("name", VStr "Q");
            ("members", VStr "(Q0, Q1)")] in
  let d := [("pin", VDict [("Q0", VDict []); ("Q1", VDict [])])] in
  _getBundleInfo [] g ["Z"] = Ok d /\
  forall pinName,
    In pinName ["Q0"; "Q1"] -> dict_has (strip pinName) (sub_dict "pin" d) = true.
Proof.
  intros g d. split; [vm_compute; reflexivity|].
  apply (X20_bundle_members_are_always_listed [] g ["Z"] "(Q0, Q1)" d).
  - vm_compute; reflexivity.
  - vm_compute; reflexivity.
Defined.
